(** * monetiq: the receipt parser ([ReceiptParser], js/parser)

    A shallow embedding of the class [ReceiptParser] and of the parts of
    the JavaScript run time it relies on (strings, regular expressions,
    IEEE-754 numbers), followed by the properties of [parse] and
    [parsePrice].

    Conventions.
    - A JavaScript string is a sequence of UTF-16 code units.  The
      embedding keeps the code units U+0000..U+00FF, one [ascii] each, so
      a string is a [list ascii].  Within that range [trim], [\s], [\d],
      [\b] and [.] are exactly those of ECMAScript; [toUpperCase] is exact
      except on U+00B5 and U+00FF, whose upper-case forms lie outside the
      range and which are left unchanged.
    - A JavaScript Number is a binary64 value, [spec_float] with
      [prec = 53] and [emax = 1024]; arithmetic and comparisons are those
      of [SpecFloat], all values are kept in canonical form.
    - [new Date()] is an input of [parse]: the processing date, already
      rendered by [toISOString().split('T')[0]]. *)

From Stdlib Require Import Ascii String DecimalString.
From Stdlib Require Import ZArith List Bool Lia PeanoNat.
From Stdlib Require Import Floats.SpecFloat.
Import ListNotations.

Set Implicit Arguments.

Local Open Scope list_scope.

(** ** Code units and strings *)

Definition str := list ascii.

(** A string literal of the source. *)
Definition lit (s : string) : str := list_ascii_of_string s.

Module Char.

Definition code (c : ascii) : nat := nat_of_ascii c.

Definition eqb (a b : ascii) : bool := Ascii.eqb a b.

Definition between (lo hi : nat) (c : ascii) : bool :=
  (lo <=? code c) && (code c <=? hi).

(** [\d] *)
Definition isDigit (c : ascii) : bool := between 48 57 c.

(** [\s], also the set removed by [trim]: TAB, LF, VT, FF, CR, SP, NBSP. *)
Definition isSpace (c : ascii) : bool :=
  between 9 13 c || (code c =? 32) || (code c =? 160).

(** [\w], which decides [\b]: [A-Za-z0-9_]. *)
Definition isWord (c : ascii) : bool :=
  between 65 90 c || between 97 122 c || isDigit c || (code c =? 95).

(** [.] without the [s] flag: anything but LF and CR. *)
Definition isDot (c : ascii) : bool :=
  negb ((code c =? 10) || (code c =? 13)).

Definition isLower (c : ascii) : bool := between 97 122 c.

(** Lower-case letters of the Latin-1 supplement with an upper-case
    form in the same block: U+00E0..U+00FE but U+00F7. *)
Definition isLowerLatin1 (c : ascii) : bool :=
  between 224 254 c && negb (code c =? 247).

(** [toUpperCase] on one code unit; U+00DF becomes "SS". *)
Definition upper (c : ascii) : str :=
  if isLower c || isLowerLatin1 c then [ascii_of_nat (code c - 32)]
  else if code c =? 223 then lit "SS"
  else [c].

(** The canonical form a regular expression with the [i] flag compares
    (no [u] flag): the upper-case form when it is one code unit, and
    never an ASCII unit for a non-ASCII one. *)
Definition canonicalize (c : ascii) : ascii :=
  if isLower c || isLowerLatin1 c then ascii_of_nat (code c - 32) else c.

Definition digitVal (c : ascii) : Z := Z.of_nat (code c) - 48.

(** The unit [c] after every [a] has been replaced by [d]. *)
Definition replace (a d c : ascii) : ascii := if eqb c a then d else c.

End Char.

Module Str.

Fixpoint eqb (a b : str) : bool :=
  match a, b with
  | [], [] => true
  | x :: a', y :: b' => Char.eqb x y && eqb a' b'
  | _, _ => false
  end.

Fixpoint dropWhile (p : ascii -> bool) (s : str) : str :=
  match s with
  | c :: s' => if p c then dropWhile p s' else s
  | [] => []
  end.

Fixpoint takeWhile (p : ascii -> bool) (s : str) : str :=
  match s with
  | c :: s' => if p c then c :: takeWhile p s' else []
  | [] => []
  end.

Definition trimStart (s : str) : str := dropWhile Char.isSpace s.
Definition trimEnd (s : str) : str := rev (dropWhile Char.isSpace (rev s)).

(** [s.trim()] *)
Definition trim (s : str) : str := trimEnd (trimStart s).

(** [s.split(sep)] for a one-unit separator: never empty. *)
Fixpoint split (sep : ascii) (s : str) : list str :=
  match s with
  | [] => [[]]
  | c :: s' =>
      if Char.eqb c sep then [] :: split sep s'
      else match split sep s' with
           | cur :: more => (c :: cur) :: more
           | [] => [[c]]
           end
  end.

(** [parts.join(sep)] *)
Fixpoint join (sep : str) (parts : list str) : str :=
  match parts with
  | [] => []
  | [p] => p
  | p :: more => p ++ sep ++ join sep more
  end.

(** [s.toUpperCase()] *)
Definition toUpperCase (s : str) : str := flat_map Char.upper s.

Fixpoint startsWith (p s : str) : bool :=
  match p, s with
  | [], _ => true
  | x :: p', y :: s' => Char.eqb x y && startsWith p' s'
  | _ :: _, [] => false
  end.

(** [s.includes(k)] *)
Fixpoint includes (s k : str) : bool :=
  startsWith k s ||
  match s with
  | [] => false
  | _ :: s' => includes s' k
  end.

(** [s.includes(c)] for a one-unit string. *)
Definition includesChar (s : str) (c : ascii) : bool :=
  existsb (Char.eqb c) s.

(** [s.lastIndexOf(c)], [-1] when absent. *)
Fixpoint lastIndexOfFrom (c : ascii) (s : str) (i : Z) (found : Z) : Z :=
  match s with
  | [] => found
  | x :: s' => lastIndexOfFrom c s' (i + 1) (if Char.eqb x c then i else found)
  end.

Definition lastIndexOf (s : str) (c : ascii) : Z :=
  lastIndexOfFrom c s 0 (-1).

(** [s.replace(a, b)] with a string pattern of one unit: the first
    occurrence only. *)
Fixpoint replaceFirst (a : ascii) (b : str) (s : str) : str :=
  match s with
  | [] => []
  | c :: s' => if Char.eqb c a then b ++ s' else c :: replaceFirst a b s'
  end.

(** [s.replace(/[class]/g, '')] *)
Definition removeAll (p : ascii -> bool) (s : str) : str :=
  filter (fun c => negb (p c)) s.

(** [s.replace(/c/g, d)] *)
Definition mapAll (a d : ascii) (s : str) : str :=
  map (Char.replace a d) s.

(** [s.substring(0, n)] *)
Definition substring0 (n : nat) (s : str) : str := firstn n s.

(** [s.padStart(n, c)] *)
Definition padStart (n : nat) (c : ascii) (s : str) : str :=
  repeat c (n - length s) ++ s.

(** [array.includes(s)] on an array of strings *)
Definition member (s : str) (l : list str) : bool := existsb (eqb s) l.

End Str.

(** ** Numbers *)

Module Num.

Local Open Scope Z_scope.

Definition prec : Z := 53.
Definition emax : Z := 1024.

Definition number := spec_float.

Definition NaN : number := S754_nan.
Definition Infinity : number := S754_infinity false.
Definition zero : number := S754_zero false.

(** The Number nearest to the integer [z] (an integer literal). *)
Definition ofZ (z : Z) : number := binary_normalize prec emax z 0 false.

(** The Number nearest to [n / d], ties to even: what reading a
    decimal numeral gives. *)
Definition ratio (neg : bool) (n : Z) (d : positive) : number :=
  match n with
  | Zpos m => SFdiv prec emax (S754_finite neg m 0) (S754_finite false d 0)
  | _ => S754_zero neg
  end.

(** The Number written [m]e[-k] in decimal: [dec 125 2] is [1.25]. *)
Definition dec (m : Z) (k : nat) : number :=
  ratio false m (Z.to_pos (10 ^ Z.of_nat k)).

Definition add (a b : number) : number := SFadd prec emax a b.
Definition sub (a b : number) : number := SFsub prec emax a b.
Definition abs (a : number) : number := SFabs a.

(** [a < b], [a > b] and [a === b] *)
Definition ltb (a b : number) : bool := SFltb a b.
Definition gtb (a b : number) : bool := SFltb b a.
Definition eqb (a b : number) : bool := SFeqb a b.

(** ToBoolean: [NaN], [+0] and [-0] are falsy. *)
Definition truthy (a : number) : bool :=
  match a with S754_nan | S754_zero _ => false | _ => true end.

(** [a || b] on Numbers *)
Definition orElse (a b : number) : number := if truthy a then a else b.

(** [Math.max(a, b)]: [NaN] is contagious and [+0] is above [-0]. *)
Definition max2 (a b : number) : number :=
  match SFcompare a b with
  | None => NaN
  | Some Lt => b
  | Some Gt => a
  | Some Eq =>
      match a with
      | S754_zero true => b
      | _ => a
      end
  end.

(** [Math.max(...l)]: [-Infinity] for no argument. *)
Definition max (l : list number) : number :=
  fold_left max2 l (S754_infinity true).

(** *** Reading a numeral: [parseFloat] *)

Definition digitsVal (ds : str) : Z :=
  fold_left (fun acc c => 10 * acc + Char.digitVal c) ds 0.

(** The value of mantissa [m] scaled by [10^e]. *)
Definition scale10 (neg : bool) (m : Z) (e : Z) : number :=
  match e with
  | Zneg p => ratio neg m (Pos.pow 10 p)
  | Z0 => ratio neg m 1
  | Zpos p => ratio neg (m * Z.pow 10 (Zpos p)) 1
  end.

(** The exponent part [e[+-]digits] when one starts [s]. *)
Definition exponentPart (s : str) : Z :=
  match s with
  | c :: s' =>
      if Char.eqb c "e" || Char.eqb c "E" then
        let '(neg, s'') :=
          match s' with
          | x :: t => if Char.eqb x "-" then (true, t)
                      else if Char.eqb x "+" then (false, t)
                      else (false, s')
          | [] => (false, s')
          end in
        let ds := Str.takeWhile Char.isDigit s'' in
        if neg then - digitsVal ds else digitsVal ds
      else 0
  | [] => 0
  end.

(** [parseFloat(s)]: leading white space is skipped, then the longest
    prefix that is a decimal literal is read; [NaN] when there is
    none.  The value is rounded to nearest, ties to even. *)
Definition parseFloat (s : str) : number :=
  let s0 := Str.trimStart s in
  let '(neg, s1) :=
    match s0 with
    | c :: t => if Char.eqb c "-" then (true, t)
                else if Char.eqb c "+" then (false, t)
                else (false, s0)
    | [] => (false, s0)
    end in
  if Str.startsWith (lit "Infinity") s1 then S754_infinity neg
  else
    let ip := Str.takeWhile Char.isDigit s1 in
    let s2 := Str.dropWhile Char.isDigit s1 in
    let '(fp, s3) :=
      match s2 with
      | c :: t =>
          if Char.eqb c "." then
            (Str.takeWhile Char.isDigit t, Str.dropWhile Char.isDigit t)
          else ([], s2)
      | [] => ([], s2)
      end in
    match ip ++ fp with
    | [] => NaN
    | ds => scale10 neg (digitsVal ds) (exponentPart s3 - Z.of_nat (length fp))
    end.

(** *** Writing a numeral: [toFixed(2)] *)

Definition digitsOf (n : Z) : str :=
  lit (NilZero.string_of_uint (N.to_uint (Z.to_N n))).

(** The integer nearest to [100 * |x|], the larger one on a tie. *)
Definition hundredths (x : number) : Z :=
  match x with
  | S754_finite _ m e =>
      match e with
      | Zneg p => (200 * Zpos m + Z.pow 2 (Zpos p)) / Z.pow 2 (Zpos p + 1)
      | _ => 100 * Zpos m * Z.pow 2 e
      end
  | _ => 0
  end.

Definition isNegative (x : number) : bool :=
  match x with
  | S754_finite s _ _ | S754_infinity s => s
  | _ => false
  end.

(** [x.toFixed(2)].  From [10^21] on the source defers to
    [Number::toString], whose digits read back as [x]; the embedding
    then writes all the digits of the integer [x], which read back as
    [x] too. *)
Definition toFixed2 (x : number) : str :=
  match x with
  | S754_nan => lit "NaN"
  | S754_infinity s => (if s then lit "-" else []) ++ lit "Infinity"
  | _ =>
      let sign := if isNegative x then lit "-" else [] in
      if ltb (abs x) (ofZ (10 ^ 21)) then
        let ds := Str.padStart 3 "0" (digitsOf (hundredths x)) in
        let n := (length ds - 2)%nat in
        sign ++ firstn n ds ++ lit "." ++ skipn n ds
      else
        sign ++ digitsOf (hundredths x / 100)
  end.

End Num.

(** ** Regular expressions

    The fragment of ECMAScript regular expressions the parser uses, with
    the backtracking semantics of the language: a sequence tries its
    left part first, an alternative its left branch first, and a
    quantifier is greedy.  Every quantifier of the source applies to a
    single character class, so [Rep] carries a class. *)

Module Regex.

Inductive regex : Type :=
| Eps                                   (* the empty pattern *)
| Chr (p : ascii -> bool)               (* one unit of a class *)
| Rep (p : ascii -> bool) (lo : nat) (hi : option nat)
                                        (* class{lo,hi}, greedy *)
| Seq (a b : regex)
| Alt (a b : regex)
| Grp (a : regex)                       (* a capturing group *)
| Bol                                   (* ^ *)
| WordB.                                (* \b *)

Definition isWordOpt (c : option ascii) : bool :=
  match c with Some x => Char.isWord x | None => false end.

Section Matcher.

Variable A : Type.

(** [rep p lo hi prev s k]: consume units of class [p], as many as
    [hi] allows, and give the rest to [k]; on failure give back one
    unit at a time, down to [lo] units. *)
Fixpoint rep (p : ascii -> bool) (lo : nat) (hi : option nat)
    (prev : option ascii) (s : str)
    (k : option ascii -> str -> option A) {struct s} : option A :=
  let stop := match lo with O => k prev s | S _ => None end in
  match hi, s with
  | Some O, _ => stop
  | _, c :: s' =>
      if p c then
        match rep p (pred lo) (option_map pred hi) (Some c) s' k with
        | Some x => Some x
        | None => stop
        end
      else stop
  | _, [] => stop
  end.

(** [run r prev s caps k]: match [r] at the head of [s], [prev]
    being the unit before it, then continue with [k]; captures are
    recorded in the order their groups close. *)
Fixpoint run (r : regex) (prev : option ascii) (s : str)
    (caps : list str)
    (k : option ascii -> str -> list str -> option A) : option A :=
  match r with
  | Eps => k prev s caps
  | Chr p =>
      match s with
      | c :: s' => if p c then k (Some c) s' caps else None
      | [] => None
      end
  | Rep p lo hi => rep p lo hi prev s (fun prev' s' => k prev' s' caps)
  | Seq a b =>
      run a prev s caps (fun prev' s' caps' => run b prev' s' caps' k)
  | Alt a b =>
      match run a prev s caps k with
      | Some x => Some x
      | None => run b prev s caps k
      end
  | Grp a =>
      run a prev s caps (fun prev' s' caps' =>
        k prev' s' (caps' ++ [firstn (length s - length s') s]))
  | Bol => match prev with None => k prev s caps | Some _ => None end
  | WordB =>
      if xorb (isWordOpt prev) (isWordOpt (hd_error s))
      then k prev s caps else None
  end.

End Matcher.

(** A match: [m.index], [m[0]] and [m[1]], [m[2]], ... *)
Record result := { index : nat; whole : str; groups : list str }.

(** The match starting exactly at the head of [s], as the text left
    after it and the captures. *)
Definition matchHere (r : regex) (prev : option ascii) (s : str)
    : option (str * list str) :=
  run r prev s [] (fun _ s' caps => Some (s', caps)).

Definition mkResult (i : nat) (s : str) (m : str * list str) : result :=
  {| index := i;
     whole := firstn (length s - length (fst m)) s;
     groups := snd m |}.

(** The leftmost match at or after the head of [s], which is at
    offset [i] of the subject. *)
Fixpoint execFrom (r : regex) (prev : option ascii) (s : str) (i : nat)
    : option result :=
  match matchHere r prev s with
  | Some m => Some (mkResult i s m)
  | None =>
      match s with
      | c :: s' => execFrom r (Some c) s' (S i)
      | [] => None
      end
  end.

(** [r.exec(s)], [s.match(r)] without the [g] flag *)
Definition exec (r : regex) (s : str) : option result :=
  execFrom r None s 0.

(** [r.test(s)] *)
Definition test (r : regex) (s : str) : bool :=
  match exec r s with Some _ => true | None => false end.

(** [s.matchAll(r)] with the [g] flag: [skip] units of the last match
    are still to be passed; an empty match moves on by one unit. *)
Fixpoint matchAllFrom (r : regex) (prev : option ascii) (s : str)
    (i skip : nat) : list result :=
  match skip with
  | S n =>
      match s with
      | c :: s' => matchAllFrom r (Some c) s' (S i) n
      | [] => []
      end
  | O =>
      match matchHere r prev s with
      | Some m =>
          let res := mkResult i s m in
          res ::
          match s with
          | c :: s' =>
              match length (whole res) with
              | O => matchAllFrom r (Some c) s' (S i) 0
              | S n => matchAllFrom r (Some c) s' (S i) n
              end
          | [] => []
          end
      | None =>
          match s with
          | c :: s' => matchAllFrom r (Some c) s' (S i) 0
          | [] => []
          end
      end
  end.

Definition matchAll (r : regex) (s : str) : list result :=
  matchAllFrom r None s 0 0.

(** [s.replace(r, '')] without the [g] flag *)
Definition removeFirst (r : regex) (s : str) : str :=
  match exec r s with
  | Some m => firstn (index m) s ++ skipn (index m + length (whole m)) s
  | None => s
  end.

(** *** Writing patterns *)

(** A literal unit under the [i] flag. *)
Definition ichr (c : ascii) : regex :=
  Chr (fun x => Char.eqb (Char.canonicalize x) (Char.canonicalize c)).

(** A class [[abc]]. *)
Definition oneOf (cs : string) : ascii -> bool :=
  fun x => existsb (Char.eqb x) (lit cs).

Fixpoint seq (rs : list regex) : regex :=
  match rs with
  | [] => Eps
  | [r] => r
  | r :: rs' => Seq r (seq rs')
  end.

Fixpoint alt (rs : list regex) : regex :=
  match rs with
  | [] => Eps
  | [r] => r
  | r :: rs' => Alt r (alt rs')
  end.

(** A literal word under the [i] flag: [/CALLE/i]. *)
Definition iword (w : string) : regex := seq (map ichr (lit w)).

(** The letters of [w] with [\s*] between them, under the [i] flag:
    [/L\s*I\s*D\s*L/i]. *)
Fixpoint spacedOf (w : str) : list regex :=
  match w with
  | [] => []
  | [c] => [ichr c]
  | c :: w' => ichr c :: Rep Char.isSpace 0 None :: spacedOf w'
  end.
Definition spaced (w : string) : regex := seq (spacedOf (lit w)).

(** The letters of [w] with [\.?] between them, under the [i] flag:
    [/I\.?N\.?G/i]. *)
Fixpoint dottedOf (w : str) : list regex :=
  match w with
  | [] => []
  | [c] => [ichr c]
  | c :: w' => ichr c :: Rep (Char.eqb ".") 0 (Some 1) :: dottedOf w'
  end.
Definition dotted (w : string) : regex := seq (dottedOf (lit w)).

Definition digits (lo : nat) (hi : option nat) : regex :=
  Rep Char.isDigit lo hi.

End Regex.

Import Regex.

(** ** The parser *)

(** An element of [data.items]. *)
Record LineItem := {
  description : str;
  price : Num.number;
  category : str
}.

(** The object [data] that [parse] returns. *)
Record ReceiptDraft := {
  merchant : str;
  date : str;
  total : Num.number;
  items : list LineItem
}.

Module ReceiptParser.

(** *** [parsePrice] *)

(** [/[€$£eE]/g]; U+20AC is not a unit of the embedding. *)
Definition currencyClass (c : ascii) : bool :=
  oneOf "$eE" c || (Char.code c =? 163).

Definition ocrFix (s : str) : str :=
  let s := Str.mapAll "o" "0" (Str.mapAll "O" "0" s) in
  let s := Str.mapAll "|" "1" (Str.mapAll "l" "1" (Str.mapAll "I" "1" s)) in
  let s := Str.mapAll "s" "5" (Str.mapAll "S" "5" s) in
  let s := Str.mapAll "B" "8" s in
  let s := Str.mapAll "G" "6" s in
  Str.mapAll "Z" "2" s.

Definition resolveSeparators (normalized : str) : str :=
  if Str.includesChar normalized "," && Str.includesChar normalized "." then
    let lastComma := Str.lastIndexOf normalized "," in
    let lastDot := Str.lastIndexOf normalized "." in
    if (lastDot <? lastComma)%Z then
      Str.replaceFirst "," (lit ".") (Str.removeAll (Char.eqb ".") normalized)
    else
      Str.removeAll (Char.eqb ",") normalized
  else if Str.includesChar normalized "," then
    Str.replaceFirst "," (lit ".") normalized
  else normalized.

Definition parsePrice (priceStr : str) : Num.number :=
  match priceStr with
  | [] => Num.ofZ 0
  | _ =>
      let normalized := Str.trim (Str.removeAll currencyClass priceStr) in
      let normalized := ocrFix normalized in
      let normalized := resolveSeparators normalized in
      let normalized :=
        Str.removeAll
          (fun c => negb (Char.isDigit c || Char.eqb c ".")) normalized in
      Num.orElse (Num.parseFloat normalized) (Num.ofZ 0)
  end.

(** *** Lines *)

Definition LF : ascii := ascii_of_nat 10.

(** [rawText.split('\n').map(l => l.trim()).filter(l => l.length > 0)] *)
Definition splitLines (rawText : str) : list str :=
  filter (fun l => 0 <? length l) (map Str.trim (Str.split LF rawText)).

(** *** 1. Merchant *)

Definition unknownMerchant : str := lit "Desconocido".

Definition establishments : list (str * list regex) :=
  [ (lit "MERCADONA", [spaced "MERCADONA"; spaced "MERKADONA"]);
    (lit "CARREFOUR", [spaced "CARREFOUR"; spaced "CFR"; spaced "CAREFUR"]);
    (lit "LIDL", [spaced "LIDL"]);
    (lit "ALDI", [spaced "ALDI"]);
    (lit "AHORRAMAS", [spaced "AHORRAMAS"]);
    (lit "CONSUM", [spaced "CONSUM"]);
    (lit "DIA",
      [seq [WordB; ichr "D"; ichr "I"; Rep Char.isDot 0 (Some 1);
            ichr "A"; WordB]]);
    (lit "EL CORTE INGLES", [spaced "CORTEINGLES"; dotted "INGLES"]);
    (lit "HIPERCOR", [spaced "HIPERCOR"]);
    (lit "EROSKI", [spaced "EROSKI"]) ].

(** [regexes.some(rx => rx.test(fullText))] *)
Definition aliasMatches (fullText : str) (e : str * list regex) : bool :=
  existsb (fun rx => test rx fullText) (snd e).

(** The loop over [Object.entries(establishments)]. *)
Definition knownMerchant (fullText : str) : str :=
  match find (aliasMatches fullText) establishments with
  | Some e => fst e
  | None => unknownMerchant
  end.

(** [/CALLE|AVENIDA|C\/|TLF|TEL:|CIF|NIF|TICKET/i] *)
Definition addressRegex : regex :=
  alt [iword "CALLE"; iword "AVENIDA"; iword "C/"; iword "TLF";
       iword "TEL:"; iword "CIF"; iword "NIF"; iword "TICKET"].

Definition headerCandidate (line : str) : bool :=
  (3 <? length line) &&
  negb (test (digits 2 None) line) &&
  negb (test addressRegex line).

(** The loop over the first twelve lines. *)
Fixpoint firstHeader (ls : list str) (fallback : str) : str :=
  match ls with
  | [] => fallback
  | l :: ls' =>
      let line := Str.toUpperCase l in
      if headerCandidate line then Str.trim line
      else firstHeader ls' fallback
  end.

Definition detectMerchant (lines : list str) : str :=
  let fullText := Str.toUpperCase (Str.join (lit " ") lines) in
  let merchant := knownMerchant fullText in
  if Str.eqb merchant unknownMerchant then
    firstHeader (firstn (Nat.min (length lines) 12) lines) merchant
  else merchant.

(** *** 2. Date *)

(** [/\b(\d{1,2})[-/.](\d{1,2})[-/.](\d{2,4})\b/] *)
Definition dateRegex : regex :=
  seq [WordB; Grp (digits 1 (Some 2)); Chr (oneOf "-/.");
       Grp (digits 1 (Some 2)); Chr (oneOf "-/.");
       Grp (digits 2 (Some 4)); WordB].

(** [parseInt(s)] in radix 10, [None] for [NaN].  The prefix [0x]
    that selects radix 16 is not modelled: the argument is a capture
    of [\d{1,2}]. *)
Definition parseInt (s : str) : option Z :=
  let s0 := Str.trimStart s in
  let '(neg, s1) :=
    match s0 with
    | c :: t => if Char.eqb c "-" then (true, t)
                else if Char.eqb c "+" then (false, t)
                else (false, s0)
    | [] => (false, s0)
    end in
  match Str.takeWhile Char.isDigit s1 with
  | [] => None
  | ds => Some (if neg then (- Num.digitsVal ds)%Z else Num.digitsVal ds)
  end.

(** [parseInt(s) > n] *)
Definition parseIntGt (s : str) (n : Z) : bool :=
  match parseInt s with
  | Some v => (n <? v)%Z
  | None => false
  end.

(** The body of [if (match) { ... }]. *)
Definition normalizeDate (day month year : str) : str :=
  let '(day, month) :=
    if parseIntGt month 12 then (month, day) else (day, month) in
  let year := if length year =? 2 then lit "20" ++ year else year in
  let day := Str.padStart 2 "0" day in
  let month := Str.padStart 2 "0" month in
  year ++ lit "-" ++ month ++ lit "-" ++ day.

Fixpoint detectDate (lines : list str) (fallback : str) : str :=
  match lines with
  | [] => fallback
  | line :: more =>
      match exec dateRegex line with
      | Some m =>
          normalizeDate (nth 0 (groups m) []) (nth 1 (groups m) [])
                        (nth 2 (groups m) [])
      | None => detectDate more fallback
      end
  end.

(** *** 3. Items *)

(** [/^\d+.+\d+[.,]\d{2}/] *)
Definition likelyItemRegex : regex :=
  seq [Bol; digits 1 None; Rep Char.isDot 1 None; digits 1 None;
       Chr (oneOf ".,"); digits 2 (Some 2)].

Definition isLikelyItem (line : str) : bool := test likelyItemRegex line.

Definition Eacute : ascii := ascii_of_nat 201.
Definition Aacute : ascii := ascii_of_nat 193.

Definition noiseKeywords : list str :=
  [ lit "IVA"; lit "FACTURA"; lit "TICKET";
    lit "TEL" ++ [Eacute] ++ lit "FONO"; lit "GRACIAS"; lit "C.I.F";
    lit "N.I.F"; lit "P" ++ [Aacute] ++ lit "GINA"; lit "CHANGE";
    lit "CAMBIO"; lit "ENTREGADO"; lit "EFECTIVO" ].

Definition isNoise (line : str) : bool :=
  let uppercase := Str.toUpperCase line in
  if Str.member uppercase noiseKeywords then true
  else if Str.includes uppercase (lit "TOTAL")
          && negb (test (digits 1 (Some 1)) line) then true
  else false.

(** The guard at the head of the item loop: [true] for [continue]. *)
Definition skipped (line : str) : bool :=
  if isLikelyItem line then false
  else if isNoise line then true
  else false.

(** [/(\d+[.,]\d{2,3})/g] *)
Definition priceRegex : regex :=
  Grp (seq [digits 1 None; Chr (oneOf ".,"); digits 2 (Some 3)]).

Definition summaryKeywords : list str :=
  map lit
    [ "TOTAL"; "SUBTOTAL"; "IMPORTE"; "TARJETA"; "EFECTIVO"; "PAGO";
      "PAGAR"; "IVA"; "I.V.A"; "BASE"; "IMPONIBLE"; "CUOTA"; "RECARGO";
      "DESCUENTO"; "REDONDEO"; "VALOR"; "OPERACION"; "TERMINAL";
      "AUTORIZ"; "COPIA"; "CLIENTE" ]%string.

(** [/(\d{2,4}[-/.]\d{2}[-/.]\d{2,4})|(\d{9,})/] *)
Definition garbageRegex : regex :=
  Alt (Grp (seq [digits 2 (Some 4); Chr (oneOf "-/."); digits 2 (Some 2);
                 Chr (oneOf "-/."); digits 2 (Some 4)]))
      (Grp (digits 9 None)).

Definition noMatch : result := {| index := 0; whole := []; groups := [] |}.

(** [allPriceMatches[i][0]] *)
Definition tokenAt (allPriceMatches : list result) (i : nat) : str :=
  whole (nth i allPriceMatches noMatch).

(** The index of the token stored as the price. *)
Definition priceIndex (n : nat) : nat :=
  if 2 <=? n then n - 2 else n - 1.

Definition describe (line : str) (firstIndex : nat) : str :=
  let description := Str.trim (Str.substring0 firstIndex line) in
  let description :=
    removeFirst (seq [Bol; digits 1 None; Rep Char.isSpace 1 None])
      description in
  Str.trim (removeFirst (seq [Bol; digits 1 None]) description).

Definition isSummary (line : str) : bool :=
  let upperLine := Str.toUpperCase line in
  existsb (fun k => Str.includes upperLine k) summaryKeywords.

Definition isGarbage (line : str) : bool := test garbageRegex line.

Definition otros : str := lit "Otros".

(** One turn of the item loop on a line that is not skipped: the item
    pushed and [amountForTotal], or nothing. *)
Definition extractItem (line : str) : option (LineItem * Num.number) :=
  let allPriceMatches := matchAll priceRegex line in
  match allPriceMatches with
  | [] => None
  | first :: _ =>
      let n := length allPriceMatches in
      let rawPrice := tokenAt allPriceMatches (priceIndex n) in
      let price := parsePrice rawPrice in
      let description := describe line (index first) in
      if (1 <? length description)
         && Num.gtb price (Num.ofZ 0) && Num.ltb price (Num.ofZ 1000)
         && negb (isSummary line) && negb (isGarbage line)
      then
        Some ({| description := description; price := price;
                 category := otros |},
              parsePrice (tokenAt allPriceMatches (n - 1)))
      else None
  end.

(** The item loop, on the state [(data.items, calculatedTotal)]. *)
Definition itemStep (st : list LineItem * Num.number) (line : str)
    : list LineItem * Num.number :=
  if skipped line then st
  else match extractItem line with
       | Some (item, amountForTotal) =>
           (fst st ++ [item], Num.add (snd st) amountForTotal)
       | None => st
       end.

Definition extractItems (lines : list str) : list LineItem * Num.number :=
  fold_left itemStep lines ([], Num.ofZ 0).

(** *** 4. Total *)

Definition totalKeywords : list str :=
  map lit ["TOTAL"; "IMPORTE"; "PAGAR"; "A PAGAR"; "LIQUIDO"]%string.

Definition isTotalLine (line : str) : bool :=
  existsb (fun k => Str.includes (Str.toUpperCase line) k) totalKeywords
  && negb (Str.includes (Str.toUpperCase line) (lit "SUBTOTAL")).

(** [/(\d+[.,]\d{2})/] *)
Definition totalRegex : regex :=
  Grp (seq [digits 1 None; Chr (oneOf ".,"); digits 2 (Some 2)]).

Definition totalStep (detectedTotal : Num.number) (line : str)
    : Num.number :=
  if isTotalLine line then
    match exec totalRegex line with
    | Some m => parsePrice (nth 0 (groups m) [])
    | None => detectedTotal
    end
  else detectedTotal.

Definition detectTotal (lines : list str) : Num.number :=
  fold_left totalStep lines (Num.ofZ 0).

(** [parseFloat(calculatedTotal.toFixed(2))] *)
Definition rounded (calculatedTotal : Num.number) : Num.number :=
  Num.parseFloat (Num.toFixed2 calculatedTotal).

(** The first [if] after the total loop. *)
Definition reconcile (detectedTotal calculatedTotal : Num.number)
    : Num.number :=
  if Num.eqb detectedTotal (Num.ofZ 0)
     || (Num.gtb calculatedTotal (Num.ofZ 0)
         && Num.gtb (Num.abs (Num.sub detectedTotal calculatedTotal))
                    (Num.ofZ 30))
  then Num.max2 detectedTotal (rounded calculatedTotal)
  else detectedTotal.

(** The final sanity check, when its call of [Math.max] returns:
    the largest of the prices (see [parseCall] for the call
    itself). *)
Definition sanity (total : Num.number) (items : list LineItem)
    : Num.number :=
  if Num.eqb total (Num.ofZ 0) && (0 <? length items)
  then Num.max (map price items)
  else total.

(** *** [parse] *)

Definition parseLines (today : str) (lines : list str) : ReceiptDraft :=
  let '(items, calculatedTotal) := extractItems lines in
  {| merchant := detectMerchant lines;
     date := detectDate lines today;
     total := sanity (reconcile (detectTotal lines) calculatedTotal) items;
     items := items |}.

Definition parse (today : str) (rawText : str) : ReceiptDraft :=
  parseLines today (splitLines rawText).

(** *** A call of [parse]

    [Math.max(...data.items.map(i => i.price))] is a call with one
    argument for each item.  An engine takes only so many arguments
    in one call, [argLimit] of them; given more, the call ends in a
    RangeError, which nothing in [parse] catches.  No other step of
    [parse] throws.  [parse] above is the draft a call returns,
    when it returns. *)
Inductive completion : Type :=
| Returns (data : ReceiptDraft)
| RangeError.

(** The sanity check is entered and its spread is refused. *)
Definition spreadOverflows (argLimit : nat) (total : Num.number)
    (items : list LineItem) : bool :=
  Num.eqb total (Num.ofZ 0) && (0 <? length items)
  && (argLimit <? length items).

Definition parseCall (argLimit : nat) (today : str) (rawText : str)
    : completion :=
  let lines := splitLines rawText in
  let '(items, calculatedTotal) := extractItems lines in
  if spreadOverflows argLimit
       (reconcile (detectTotal lines) calculatedTotal) items
  then RangeError
  else Returns (parse today rawText).

End ReceiptParser.

Import ReceiptParser.

(** ** Text of the Latin-1 range *)

Module Latin1.

(** The code units of a literal of the source.  This file is written
    in UTF-8: a unit U+0080..U+00FF is the two bytes C2 or C3 and a
    continuation, which [decode] joins again. *)
Fixpoint decode (pending : option nat) (s : str) : str :=
  match s with
  | [] => []
  | c :: s' =>
      match pending with
      | Some offset => ascii_of_nat (Char.code c + offset) :: decode None s'
      | None =>
          if Char.code c =? 195 then decode (Some 64) s'
          else if Char.code c =? 194 then decode (Some 0) s'
          else c :: decode None s'
      end
  end.

Definition text (s : string) : str := decode None (lit s).

Definition words (l : list string) : list str := map text l.

Definition isUpper (c : ascii) : bool := Char.between 65 90 c.

(** Upper-case letters of the Latin-1 supplement: U+00C0..U+00DE but
    U+00D7. *)
Definition isUpperLatin1 (c : ascii) : bool :=
  Char.between 192 222 c && negb (Char.code c =? 215).

(** [toLowerCase] on one code unit. *)
Definition lower (c : ascii) : ascii :=
  if isUpper c || isUpperLatin1 c then ascii_of_nat (Char.code c + 32)
  else c.

(** [s.toLowerCase()] *)
Definition toLowerCase (s : str) : str := map lower s.

(** [a < b] on strings: the order of [Array.prototype.sort] without a
    comparator. *)
Fixpoint ltb (a b : str) : bool :=
  match a, b with
  | [], [] => false
  | [], _ :: _ => true
  | _ :: _, [] => false
  | x :: a', y :: b' =>
      if Char.code x <? Char.code y then true
      else if Char.code y <? Char.code x then false
      else ltb a' b'
  end.

Fixpoint insert (x : str) (l : list str) : list str :=
  match l with
  | [] => [x]
  | y :: l' => if ltb y x then y :: insert x l' else x :: l
  end.

(** [l.sort()] on an array of strings *)
Definition sort (l : list str) : list str := fold_right insert [] l.

End Latin1.

(** ** The categorizer ([Categorizer], js/categorizer) *)

Module Categorizer.

Import Latin1.

(** [this.categories], in the order of [Object.entries]. *)
Definition categories : list (str * list str) :=
  [
    (text "Carnes",
     words
      ["pollo"; "pavo"; "ternera"; "cerdo"; "lomo"; "solomillo";
       "burguer"; "hamburguesa"; "jamón"; "longaniza"; "salchicha";
       "morcilla"; "chorizo"; "bacon"; "panceta"; "costilla"; "chuleta";
       "filete"; "bistec"; "entrecot"; "muslo"; "pechuga"; "alas";
       "carne"; "albóndigas"; "sobrasada"]%string);
    (text "Pescado y Marisco",
     words
      ["pescado"; "merluza"; "salmón"; "bacalao"; "atún"; "sardina";
       "boquerón"; "calamar"; "sepia"; "pulpo"; "gamba"; "langostino";
       "mejillón"; "almeja"; "rodaja"; "dorada"; "lubina"; "trucha";
       "perca"; "rape"; "bonito"; "anchoa"]%string);
    (text "Lácteos",
     words
      ["leche"; "yogur"; "queso"; "mantequilla"; "nata"; "postre";
       "kefir"; "actimel"; "margarina"; "flan"; "natillas"; "cuajada";
       "batido"; "requesón"; "mascarpone"; "mozzarella"]%string);
    (text "Frutas y Verduras",
     words
      ["manzana"; "pera"; "plátano"; "banana"; "naranja"; "limón";
       "patata"; "cebolla"; "zanahoria"; "tomate"; "lechuga"; "ensalada";
       "aguacate"; "pimento"; "pimiento"; "ajo"; "calabacín";
       "berenjena"; "pepino"; "uva"; "melón"; "sandía"; "fresa";
       "cereza"; "mandarina"; "pomelo"; "lima"; "coco"; "piña"; "kiwi";
       "espinaca"; "acelga"; "repollo"; "coliflor"; "brócoli"; "judía";
       "guisante"; "haba"; "maíz"; "champiñón"; "seta"; "verdura";
       "fruta"]%string);
    (text "Panadería",
     words
      ["pan"; "barra"; "hogaza"; "croissant"; "bollo"; "tostada";
       "harina"; "levadura"; "baguette"; "molde"; "chapata"; "magdalena";
       "bizcocho"; "donut"; "rosquilla"; "ensaimada"; "tarta"; "pastel"]%string);
    (text "Bebidas",
     words
      ["agua"; "refresco"; "coca"; "fanta"; "pepsi"; "cerveza"; "vino";
       "zumo"; "néctar"; "licor"; "soda"; "kas"; "seven"; "sprite";
       "tónica"; "alcohol"; "ginebra"; "ron"; "whisky"; "vodka";
       "tequila"; "brandy"; "coñac"; "anís"; "sidra"; "cava"; "champán"]%string);
    (text "Limpieza y Hogar",
     words
      ["detergente"; "suavizante"; "lavavajillas"; "fregasuelos";
       "lejía"; "amoniaco"; "limpiacristales"; "quitagrasas";
       "ambientador"; "estropajo"; "bayeta"; "fregona"; "escoba";
       "recogedor"; "cubo"; "basura"; "bolsa"; "papel"; "servilleta";
       "rollo"; "aluminio"; "film"; "batería"; "pila"; "bombilla"]%string);
    (text "Higiene",
     words
      ["champú"; "gel"; "jabón"; "desodorante"; "pasta"; "cepillo";
       "crema"; "colonia"; "perfume"; "compresa"; "tampón";
       "protegeslip"; "pañal"; "toallita"; "papel higienico";
       "acondicionador"; "mascarilla"; "loción"; "aceite"; "afeitado";
       "cuchilla"]%string);
    (text "Congelados",
     words
      ["congelado"; "helado"; "pizza"; "nuggets"; "croquetas";
       "empanadilla"]%string);
    (text "Snacks",
     words
      ["patatas fritas"; "chips"; "chocolate"; "bombón"; "galleta";
       "turrón"; "caramelo"; "chicle"; "doritos"; "nachos"; "pipas";
       "kikos"; "frutos secos"; "pistacho"; "almendra"; "nuez";
       "avellana"; "gominola"; "pasticceria"]%string);
    (text "Despensa",
     words
      ["arroz"; "pasta"; "macarrones"; "espagueti"; "fideo"; "tallarín";
       "legumbre"; "lenteja"; "garbanzo"; "aceite"; "vinagre"; "sal";
       "azúcar"; "huevo"; "atún"; "salsa"; "tomate frito"; "mayonesa";
       "ketchup"; "mostaza"; "especias"; "pimienta"; "orégano";
       "pimentón"; "canela"; "café"; "té"; "infusión"; "cacao";
       "mermelada"; "miel"; "cereales"; "galletas"]%string);
    (text "Mascotas",
     words
      ["perro"; "gato"; "pienso"; "arena"; "collar"; "correa"; "juguete"]%string) ].

(** [keywords.some(keyword => lowerDesc.includes(keyword))] *)
Definition mentions (lowerDesc : str) (e : str * list str) : bool :=
  existsb (fun keyword => Str.includes lowerDesc keyword) (snd e).

Definition categorize (description : str) : str :=
  match description with
  | [] => lit "Otros"
  | _ =>
      let lowerDesc := toLowerCase description in
      if Str.includes lowerDesc (lit "papel higienico") then lit "Higiene"
      else if Str.includes lowerDesc (lit "papel cocina")
      then lit "Limpieza y Hogar"
      else match find (mentions lowerDesc) categories with
           | Some e => fst e
           | None => lit "Otros"
           end
  end.

Definition getCategories : list str :=
  sort (map fst categories) ++ [lit "Otros"].

End Categorizer.

(** ** The callers of [parse] ([App], js/app) *)

(** An entry of [groups] in [consolidateItems]. *)
Record Group := {
  groupDescription : str;
  groupCategory : str;
  groupPrice : Num.number;
  count : nat
}.

Module App.

(** [item.category = this.categorizer.categorize(item.description)] *)
Definition categorizeItem (item : LineItem) : LineItem :=
  {| description := description item;
     price := price item;
     category := Categorizer.categorize (description item) |}.

(** [rawData.items.forEach(item => ...)] *)
Definition categorizeItems (rawData : ReceiptDraft) : ReceiptDraft :=
  {| merchant := merchant rawData;
     date := date rawData;
     total := total rawData;
     items := map categorizeItem (items rawData) |}.

(** The ticket [processText] hands to the editor. *)
Definition processText (today : str) (text : str) : ReceiptDraft :=
  categorizeItems (ReceiptParser.parse today text).

(** *** [consolidateItems]

    [groups] is an object used as a map; every key holds a bar, so
    none is an array index or a name of [Object.prototype], and
    [Object.values] lists the entries in the order of their
    insertion: an association list that grows at its end. *)

(** [`${item.description.trim().toUpperCase()}|${item.category}`] *)
Definition groupKey (item : LineItem) : str :=
  Str.toUpperCase (Str.trim (description item)) ++ lit "|" ++ category item.

(** [groups[key]] *)
Fixpoint lookup (key : str) (groups : list (str * Group))
    : option Group :=
  match groups with
  | [] => None
  | (k, g) :: rest => if Str.eqb k key then Some g else lookup key rest
  end.

(** An assignment to the fields of [groups[key]]. *)
Fixpoint update (key : str) (f : Group -> Group)
    (groups : list (str * Group)) : list (str * Group) :=
  match groups with
  | [] => []
  | (k, g) :: rest =>
      if Str.eqb k key then (k, f g) :: rest
      else (k, g) :: update key f rest
  end.

(** The body of [items.forEach]. *)
Definition consolidateStep (groups : list (str * Group))
    (item : LineItem) : list (str * Group) :=
  let key := groupKey item in
  let groups :=
    match lookup key groups with
    | Some _ => groups
    | None =>
        groups ++ [(key, {| groupDescription := description item;
                            groupCategory := category item;
                            groupPrice := Num.ofZ 0;
                            count := 0 |})]
    end in
  update key
    (fun g => {| groupDescription := groupDescription g;
                 groupCategory := groupCategory g;
                 groupPrice := Num.add (groupPrice g) (price item);
                 count := count g + 1 |})
    groups.

(** The item made of a group. *)
Definition consolidated (g : Group) : LineItem :=
  {| description :=
       if 1 <? count g
       then groupDescription g ++ lit " (x"
            ++ Num.digitsOf (Z.of_nat (count g)) ++ lit ")"
       else groupDescription g;
     price := groupPrice g;
     category := groupCategory g |}.

Definition consolidateItems (items : list LineItem) : list LineItem :=
  map consolidated (map snd (fold_left consolidateStep items [])).

End App.

(** ** The store ([Storage], js/storage) *)

(** A ticket of the cache: a draft with the identifier and the time
    [addTicket] gave it. *)
Record Ticket := {
  id : str;
  timestamp : Z;
  receipt : ReceiptDraft
}.

(** The cache, and the cache as it was at the last call of [save].
    [save] writes the JSON text of the cache with [setItem]; the
    store below is the case in which the browser takes every write,
    and [saved] stands for the tickets written, not for their text. *)
Record Store := {
  cache : list Ticket;
  saved : list Ticket
}.

Module Storage.

(** [this.save()] *)
Definition save (cache : list Ticket) : Store :=
  {| cache := cache; saved := cache |}.

(** [addTicket(ticket)]; [uuid] is [crypto.randomUUID()] and [now] is
    [Date.now()]. *)
Definition addTicket (uuid : str) (now : Z) (ticket : ReceiptDraft)
    (st : Store) : Store :=
  save ({| id := uuid; timestamp := now; receipt := ticket |} :: cache st).

Definition deleteTicket (ticketId : str) (st : Store) : Store :=
  save (filter (fun t => negb (Str.eqb (id t) ticketId)) (cache st)).

Definition clearAll (st : Store) : Store := save [].

Definition getAll (st : Store) : list Ticket := cache st.

(** The body of [ticket.items.forEach] in [reclassifyAll]: the item
    afterwards, and whether it set [changed]. *)
Definition reclassifyItem (item : LineItem) : LineItem * bool :=
  match description item with
  | [] => (item, false)
  | _ =>
      let newCat := Categorizer.categorize (description item) in
      if negb (Str.eqb newCat (category item)) then
        ({| description := description item; price := price item;
            category := newCat |}, true)
      else (item, false)
  end.

Definition reclassifyTicket (t : Ticket) : Ticket * bool :=
  let results := map reclassifyItem (items (receipt t)) in
  ({| id := id t; timestamp := timestamp t;
      receipt := {| merchant := merchant (receipt t);
                    date := date (receipt t);
                    total := total (receipt t);
                    items := map fst results |} |},
   existsb snd results).

Definition reclassifyAll (st : Store) : Store :=
  let results := map reclassifyTicket (cache st) in
  if existsb snd results then save (map fst results)
  else {| cache := map fst results; saved := saved st |}.

End Storage.

Unset Implicit Arguments.

(** * Regular expressions: what a match is *)

Module RegexSpec.

(** The unit before the position reached after reading [pre]. *)
Definition lastc (prev : option ascii) (pre : str) : option ascii :=
  fold_left (fun _ c => Some c) pre prev.

Definition within (n : nat) (hi : option nat) : Prop :=
  match hi with Some h => n <= h | None => True end.

(** [Matches r prev w rest caps caps']: [r] can match the text [w]
    when [prev] precedes it and [rest] follows it, extending the
    captures [caps] to [caps']. *)
Inductive Matches : regex -> option ascii -> str -> str ->
                    list str -> list str -> Prop :=
| MEps prev rest caps : Matches Eps prev [] rest caps caps
| MChr p prev c rest caps :
    p c = true -> Matches (Chr p) prev [c] rest caps caps
| MRep p lo hi prev w rest caps :
    forallb p w = true -> lo <= length w -> within (length w) hi ->
    Matches (Rep p lo hi) prev w rest caps caps
| MSeq a b prev w1 w2 rest caps caps1 caps2 :
    Matches a prev w1 (w2 ++ rest) caps caps1 ->
    Matches b (lastc prev w1) w2 rest caps1 caps2 ->
    Matches (Seq a b) prev (w1 ++ w2) rest caps caps2
| MAltL a b prev w rest caps caps' :
    Matches a prev w rest caps caps' ->
    Matches (Alt a b) prev w rest caps caps'
| MAltR a b prev w rest caps caps' :
    Matches b prev w rest caps caps' ->
    Matches (Alt a b) prev w rest caps caps'
| MGrp a prev w rest caps caps' :
    Matches a prev w rest caps caps' ->
    Matches (Grp a) prev w rest caps (caps' ++ [w])
| MBol rest caps : Matches Bol None [] rest caps caps
| MWordB prev rest caps :
    xorb (isWordOpt prev) (isWordOpt (hd_error rest)) = true ->
    Matches WordB prev [] rest caps caps.

End RegexSpec.

(** * Predicates of the statements *)

Module Props.

Import RegexSpec.

(** A Number that is not [NaN] and whose sign bit is clear. *)
Definition nonneg (x : Num.number) : bool :=
  match x with
  | S754_zero s | S754_infinity s | S754_finite s _ _ => negb s
  | S754_nan => false
  end.

(** [m] is a match of [r] in [s]. *)
Definition MatchIn (r : regex) (prev : option ascii) (s : str)
    (i : nat) (m : result) : Prop :=
  exists pre rest,
    s = pre ++ whole m ++ rest /\ index m = i + length pre /\
    Matches r (lastc prev pre) (whole m) rest [] (groups m).

(** [m] is a match of [r] somewhere. *)
Definition IsMatch (r : regex) (m : result) : Prop :=
  exists prev rest, Matches r prev (whole m) rest [] (groups m).

Definition isSep (c : ascii) : bool := oneOf ".," c.

(** A price token: digits, one separator, [lo] to [hi] digits. *)
Definition Token (lo hi : nat) (t : str) : Prop :=
  exists ip sep fp,
    t = ip ++ sep :: fp /\
    forallb Char.isDigit ip = true /\ 1 <= length ip /\
    isSep sep = true /\
    forallb Char.isDigit fp = true /\ lo <= length fp <= hi.

(** A digit or the decimal point: what the final clean-up keeps. *)
Definition digitOrDot (c : ascii) : bool :=
  Char.isDigit c || Char.eqb c ".".

Definition tokenChar (c : ascii) : bool := Char.isDigit c || isSep c.

Definition ocrChar (c : ascii) : ascii :=
  Char.replace "Z" "2" (Char.replace "G" "6" (Char.replace "B" "8"
    (Char.replace "s" "5" (Char.replace "S" "5" (Char.replace "|" "1"
      (Char.replace "l" "1" (Char.replace "I" "1" (Char.replace "o" "0"
        (Char.replace "O" "0" c))))))))).

(** The numeral [ip.fp] read as a Number. *)
Definition decimalValue (ip fp : str) : Num.number :=
  Num.scale10 false (Num.digitsVal (ip ++ fp)) (- Z.of_nat (length fp))%Z.

(** What the guard of the item loop lets through. *)
Definition itemOk (it : LineItem) : Prop :=
  Num.gtb (price it) (Num.ofZ 0) = true /\
  Num.ltb (price it) (Num.ofZ 1000) = true /\
  1 < length (description it).

(** One to [hi] digits, at least [lo]. *)
Definition Digits (lo hi : nat) (s : str) : Prop :=
  forallb Char.isDigit s = true /\ lo <= length s <= hi.

(** The letters of [w] with the white space [gaps] between them. *)
Fixpoint spell (w : str) (gaps : list str) : str :=
  match w with
  | [] => []
  | [c] => [c]
  | c :: w' => c :: hd [] gaps ++ spell w' (tl gaps)
  end.

Definition blank (g : str) : Prop := forallb Char.isSpace g = true.

(** A line as [splitLines] gives them: it starts with a unit that is
    not white space. *)
Definition solid (l : str) : Prop :=
  match l with
  | c :: _ => Char.isSpace c = false
  | [] => False
  end.

(** A group of one or two digits written with two: a single digit
    gets a zero in front. *)
Definition zeroPadded (s : str) : str :=
  match s with
  | [c] => ["0"%char; c]
  | _ => s
  end.

(** The date written from a year, a month and a day: the year, with
    "20" in front when it has two digits, the month and the day in
    two digits each, hyphens between them. *)
Definition isoDate (year month day : str) : str :=
  (if length year =? 2 then lit "20" ++ year else year) ++ lit "-" ++
  zeroPadded month ++ lit "-" ++ zeroPadded day.

(** The word an alias is looked for by: its name, without the
    article for EL CORTE INGLES. *)
Definition keyword (name : str) : str :=
  if Str.eqb name (lit "EL CORTE INGLES") then lit "CORTEINGLES" else name.

Definition fullTextOf (lines : list str) : str :=
  Str.toUpperCase (Str.join (lit " ") lines).

(** Four digits, a hyphen, two digits, a hyphen, two digits. *)
Definition isIsoDate (s : str) : bool :=
  match s with
  | [y1; y2; y3; y4; h1; m1; m2; h2; d1; d2] =>
      forallb Char.isDigit [y1; y2; y3; y4; m1; m2; d1; d2]
      && Char.eqb h1 "-" && Char.eqb h2 "-"
  | _ => false
  end.

(** A decimal that is not negative: a finite Number, zero or
    above. *)
Definition decimal (x : Num.number) : bool :=
  match x with
  | S754_zero _ => true
  | S754_finite s _ _ => negb s
  | _ => false
  end.

(** The draft of the data model: a merchant that is not empty, a
    date of the form YYYY-MM-DD, a total that is a decimal and not
    negative, items within the range. *)
Definition wellFormed (d : ReceiptDraft) : Prop :=
  merchant d <> [] /\ isIsoDate (date d) = true /\
  decimal (total d) = true /\ Forall itemOk (items d).

End Props.

(** * Sample receipts *)

Module Samples.

Definition receipt1 : list str :=
  [ lit "MERCADONA S.A."; lit "01/02/2024"; lit "2 PAN 0,50 1,00";
    lit "TOTAL 1,00" ].

Definition pan : LineItem :=
  {| description := lit "PAN"; price := Num.dec 50 2; category := otros |}.

Definition draft1 : ReceiptDraft :=
  {| merchant := lit "MERCADONA";
     date := lit "2024-02-01";
     total := Num.dec 100 2;
     items := [pan] |}.

Definition text1 : str :=
  lit "MERCADONA S.A." ++ [LF] ++ lit "  01/02/2024" ++ [LF] ++ [LF] ++
  lit "2 PAN 0,50 1,00 " ++ [LF] ++ lit "TOTAL 1,00" ++ [LF].

Definition receipt1005 : list str := [lit "PAN 1.005"].

Definition receipt45 : list str :=
  [ lit "CAFE 20.00"; lit "VINO 25.00"; lit "TOTAL 12.00" ].

Definition panLine : str := lit "2 PAN 0,50 1,00".

Definition dateLines : list str :=
  [lit "LIDL"; lit "FECHA: 5/13/24 18:30"].

Definition dateMatch : result :=
  {| index := 7; whole := lit "5/13/24";
     groups := [lit "5"; lit "13"; lit "24"] |}.

Definition line1000 : str := lit "JAMON 1000,00".

(** A line with an item whose line amount is zero, and the item. *)
Definition zeroLine : str := lit "PAN 0,50 0,00".

Definition zeroItem : LineItem :=
  {| description := lit "PAN"; price := Num.dec 50 2; category := otros |}.

(** A receipt of [n] such lines. *)
Definition longReceipt (n : nat) : str :=
  concat (repeat (zeroLine ++ [LF]) n).

(** A total line with an amount of 310 digits before the comma. *)
Definition hugeTotal : str :=
  lit "TOTAL 1" ++ repeat "0"%char 309 ++ lit ",00".

End Samples.

Import Props Samples.

(** * Predicates of the further properties *)

Module MoreProps.

Import RegexSpec.

(** The units [parsePrice] reads: digits, the two separators and the
    letters its OCR map turns into digits. *)
Definition significant (c : ascii) : bool :=
  oneOf "0123456789,.OoIl|SsBGZ" c.

(** The last separator of a string. *)
Definition lastSep (s : str) : option ascii :=
  fold_left (fun acc c => if isSep c then Some c else acc) s None.

(** What one line adds to [data.items]. *)
Definition itemOf (line : str) : list LineItem :=
  if skipped line then []
  else match extractItem line with
       | Some (item, _) => [item]
       | None => []
       end.

(** [a <= b] on Numbers *)
Definition leb (a b : Num.number) : bool := SFleb a b.

(** The draft of a text without lines. *)
Definition emptyDraft (today : str) : ReceiptDraft :=
  {| merchant := unknownMerchant; date := today;
     total := Num.ofZ 0; items := [] |}.

(** Whether the last separator seen is a comma. *)
Definition isComma (acc : option ascii) : bool :=
  match acc with Some c => Char.eqb c "," | None => false end.

(** The final clean-up of [parsePrice]. *)
Definition cleanup (s : str) : str :=
  Str.removeAll (fun c => negb (Char.isDigit c || Char.eqb c ".")) s.

(** What [parsePrice] reads of a string, before [parseFloat]. *)
Definition numeral (s : str) : str :=
  cleanup (resolveSeparators
             (ocrFix (Str.trim (Str.removeAll currencyClass s)))).

(** Every match of the pattern holds a digit. *)
Definition needsDigit (r : regex) : Prop :=
  forall prev w rest caps caps',
    Matches r prev w rest caps caps' -> existsb Char.isDigit w = true.

(** The units whose upper-case form is one unit of the Latin-1 range
    again: all but U+00B5, U+00DF and U+00FF. *)
Definition plainCase (c : ascii) : bool :=
  negb ((Char.code c =? 181) || (Char.code c =? 223) || (Char.code c =? 255)).

(** The match of the total pattern in "TOTAL A PAGAR 7,50". *)
Definition totalMatch : result :=
  {| index := 14; whole := lit "7,50"; groups := [lit "7,50"] |}.

(** A receipt without a known shop. *)
Definition cornerShop : list str :=
  [ lit "28001 MADRID"; lit "CALLE MAYOR 5"; lit "Frutas Pepe";
    lit "PERAS 1,20" ].

(** *** Groups of items *)

(** [y] falls into the group of [x]. *)
Definition sameKey (x y : LineItem) : bool :=
  Str.eqb (App.groupKey y) (App.groupKey x).

(** The items of the group of [x], in their order. *)
Definition members (x : LineItem) (l : list LineItem) : list LineItem :=
  filter (sameKey x) l.

(** The items whose key no earlier item has, [seen] being the keys
    met so far. *)
Fixpoint firsts (seen : list str) (l : list LineItem) : list LineItem :=
  match l with
  | [] => []
  | x :: l' =>
      if Str.member (App.groupKey x) seen then firsts seen l'
      else x :: firsts (App.groupKey x :: seen) l'
  end.

(** The group of [x] among [l]: the description and the category of
    [x], the prices of the members added from the left to 0, and
    their number. *)
Definition groupOf (x : LineItem) (l : list LineItem) : Group :=
  {| groupDescription := description x;
     groupCategory := category x;
     groupPrice := fold_left Num.add (map price (members x l)) (Num.ofZ 0);
     count := length (members x l) |}.

(** The list of groups when the items [l] are read. *)
Definition groupsOf (l : list LineItem) : list (str * Group) :=
  map (fun y => (App.groupKey y, groupOf y l)) (firsts [] l).

(** The same item with [0 + price]. *)
Definition repriced (it : LineItem) : LineItem :=
  {| description := description it;
     price := Num.add (Num.ofZ 0) (price it);
     category := category it |}.

(** Three lines of a ticket, two of them the same product. *)
Definition basket : list LineItem :=
  [ {| description := lit "PAN"; price := Num.dec 50 2;
       category := lit "Otros" |};
    {| description := lit "LECHE"; price := Num.dec 120 2;
       category := lit "Otros" |};
    {| description := lit " pan "; price := Num.dec 50 2;
       category := lit "Otros" |} ].

End MoreProps.

Import MoreProps.

(** * Facts on Numbers *)

Module NumFacts.

Import Num.
Local Open Scope Z_scope.

Lemma shr_1_nonneg mrs : 0 <= shr_m mrs -> 0 <= shr_m (shr_1 mrs).
Proof.
  destruct mrs as [m r s]; simpl.
  destruct m as [|[p|p|]|[p|p|]]; simpl; lia.
Qed.

Lemma iter_shr_1_nonneg p : forall mrs,
  0 <= shr_m mrs -> 0 <= shr_m (iter_pos shr_1 p mrs).
Proof.
  induction p; intros mrs H; simpl; auto using shr_1_nonneg.
Qed.

Lemma shr_fexp_nonneg m e l :
  0 <= m -> 0 <= shr_m (fst (shr_fexp prec emax m e l)).
Proof.
  intros H. unfold shr_fexp, shr.
  assert (H0 : 0 <= shr_m (shr_record_of_loc m l))
    by (destruct l as [|[]]; simpl; exact H).
  destruct (fexp prec emax (Zdigits2 m + e) - e); simpl; auto.
  apply iter_shr_1_nonneg; exact H0.
Qed.

Lemma round_nearest_even_nonneg m l :
  0 <= m -> 0 <= round_nearest_even m l.
Proof.
  intros H. destruct l as [|[]]; simpl; try lia.
  destruct (Z.even m); lia.
Qed.

Lemma binary_round_aux_nonneg m e l :
  0 <= m -> nonneg (binary_round_aux prec emax false m e l) = true.
Proof.
  intros H. unfold binary_round_aux.
  pose proof (shr_fexp_nonneg m e l H) as H1.
  destruct (shr_fexp prec emax m e l) as [mrs' e']; simpl in H1.
  pose proof (round_nearest_even_nonneg _ (loc_of_shr_record mrs') H1) as H2.
  pose proof (shr_fexp_nonneg _ e' loc_Exact H2) as H3.
  destruct (shr_fexp prec emax _ e' loc_Exact) as [mrs'' e'']; simpl in H3.
  destruct (shr_m mrs'') as [|q|q]; simpl; try reflexivity; try lia.
  destruct (Z.leb _ _); reflexivity.
Qed.

Lemma binary_round_nonneg m e :
  nonneg (binary_round prec emax false m e) = true.
Proof.
  unfold binary_round.
  destruct (shl_align m e _) as [mz ez].
  apply binary_round_aux_nonneg; lia.
Qed.

Lemma ofZ_nonneg z : 0 <= z -> nonneg (ofZ z) = true.
Proof.
  intros H. unfold ofZ, binary_normalize.
  destruct z; try reflexivity; try lia. apply binary_round_nonneg.
Qed.

Lemma ratio_nonneg n d : nonneg (ratio false n d) = true.
Proof.
  unfold ratio. destruct n as [|m|m]; try reflexivity.
  unfold SFdiv.
  destruct (SFdiv_core_binary prec emax (Z.pos m) 0 (Z.pos d) 0)
    as [[mz ez] lz] eqn:E.
  apply binary_round_aux_nonneg.
  unfold SFdiv_core_binary in E.
  set (m' := match _ - _ - _ with Z0 => _ | Zpos _ => _ | Zneg _ => _ end) in E.
  assert (Hm' : 0 <= m').
  { subst m'. destruct (_ - _ - _); try lia. apply Z.shiftl_nonneg. lia. }
  pose proof (Z.div_mod m' (Z.pos d) ltac:(lia)) as Hd.
  pose proof (Z.div_pos m' (Z.pos d) Hm' ltac:(lia)) as Hq.
  unfold Z.div in Hq.
  destruct (Z.div_eucl m' (Z.pos d)) as [q r]. simpl in Hq.
  inversion E; subst. exact Hq.
Qed.

Lemma scale10_nonneg m e : nonneg (scale10 false m e) = true.
Proof. unfold scale10. destruct e; apply ratio_nonneg. Qed.

Lemma add_nonneg a b :
  nonneg a = true -> nonneg b = true -> nonneg (add a b) = true.
Proof.
  destruct a as [[]|[]| |[] ma ea], b as [[]|[]| |[] mb eb];
    simpl; intros Ha Hb; try discriminate; try reflexivity.
  unfold add, SFadd. simpl. unfold binary_normalize.
  apply binary_round_nonneg.
Qed.

Lemma max2_nonneg a b :
  nonneg a = true -> nonneg b = true -> nonneg (max2 a b) = true.
Proof.
  intros Ha Hb. unfold max2.
  destruct (SFcompare a b) as [[]|] eqn:E; auto.
  - destruct a as [[]| | |]; auto.
  - destruct a, b; simpl in *; discriminate.
Qed.

Create HintDb num discriminated.
#[export] Hint Resolve ofZ_nonneg ratio_nonneg scale10_nonneg add_nonneg
max2_nonneg binary_round_nonneg : num.

End NumFacts.

Module RegexFacts.

Import RegexSpec.

Lemma lastc_app prev a b : lastc prev (a ++ b) = lastc (lastc prev a) b.
Proof. unfold lastc. apply fold_left_app. Qed.

Lemma firstn_app_length (w rest : str) :
  firstn (length (w ++ rest) - length rest) (w ++ rest) = w.
Proof.
  rewrite length_app, Nat.add_sub.
  rewrite firstn_app, Nat.sub_diag, firstn_all. simpl.
  apply app_nil_r.
Qed.

Section Sound.

Variable A : Type.

Lemma rep_sound p : forall s lo hi prev (k : option ascii -> str -> option A) x,
  rep p lo hi prev s k = Some x ->
  exists w rest,
    s = w ++ rest /\ forallb p w = true /\ lo <= length w /\
    within (length w) hi /\ k (lastc prev w) rest = Some x.
Proof.
  induction s as [|c s IH]; intros lo hi prev k x H.
  - exists [], []. simpl in H.
    destruct lo; [|destruct hi as [[|]|]; discriminate].
    assert (k prev [] = Some x) by (destruct hi as [[|]|]; exact H).
    repeat split; auto. destruct hi; simpl; lia.
  - simpl in H.
    assert (Stop : match lo with 0 => k prev (c :: s) | S _ => None end = Some x ->
            exists w rest, c :: s = w ++ rest /\ forallb p w = true /\
              lo <= length w /\ within (length w) hi /\
              k (lastc prev w) rest = Some x).
    { intros E. destruct lo; [|discriminate].
      exists [], (c :: s). repeat split; auto.
      destruct hi; simpl; lia. }
    destruct hi as [[|h]|].
    + auto.
    + destruct (p c) eqn:Pc; auto.
      destruct (rep p (pred lo) (option_map pred (Some (S h))) (Some c) s k)
        as [y|] eqn:E; auto.
      inversion H; subst y.
      apply IH in E. destruct E as (w & rest & -> & Hw & Hlo & Hhi & Hk).
      exists (c :: w), rest. simpl in *. rewrite Pc, Hw.
      repeat split; auto; lia.
    + destruct (p c) eqn:Pc; auto.
      destruct (rep p (pred lo) (option_map pred None) (Some c) s k)
        as [y|] eqn:E; auto.
      inversion H; subst y.
      apply IH in E. destruct E as (w & rest & -> & Hw & Hlo & Hhi & Hk).
      exists (c :: w), rest. simpl in *. rewrite Pc, Hw.
      repeat split; auto; lia.
Qed.

(** Whatever [run] finds is a match, and the continuation accepted
    what followed it. *)
Lemma run_sound : forall r prev s caps
    (k : option ascii -> str -> list str -> option A) x,
  run r prev s caps k = Some x ->
  exists w rest caps',
    s = w ++ rest /\ Matches r prev w rest caps caps' /\
    k (lastc prev w) rest caps' = Some x.
Proof.
  induction r as [|p|p lo hi|a IHa b IHb|a IHa b IHb|a IHa| |];
    intros prev s caps k x H; simpl in H.
  - exists [], s, caps. repeat split; auto. constructor.
  - destruct s as [|c s]; [discriminate|].
    destruct (p c) eqn:Pc; [|discriminate].
    exists [c], s, caps. repeat split; auto. constructor; auto.
  - apply rep_sound in H.
    destruct H as (w & rest & -> & Hw & Hlo & Hhi & Hk).
    exists w, rest, caps. repeat split; auto. constructor; auto.
  - apply IHa in H. destruct H as (w1 & rest1 & caps1 & -> & Ma & H).
    apply IHb in H. destruct H as (w2 & rest & caps2 & -> & Mb & H).
    exists (w1 ++ w2), rest, caps2. rewrite lastc_app, <- app_assoc.
    repeat split; auto. econstructor; eauto.
  - destruct (run a prev s caps k) as [y|] eqn:E.
    + inversion H; subst y. apply IHa in E.
      destruct E as (w & rest & caps' & -> & M & Hk).
      exists w, rest, caps'. repeat split; auto. apply MAltL; auto.
    + apply IHb in H.
      destruct H as (w & rest & caps' & -> & M & Hk).
      exists w, rest, caps'. repeat split; auto. apply MAltR; auto.
  - apply IHa in H. destruct H as (w & rest & caps' & -> & M & Hk).
    rewrite firstn_app_length in Hk.
    exists w, rest, (caps' ++ [w]). repeat split; auto.
    constructor; auto.
  - destruct prev; [discriminate|].
    exists [], s, caps. repeat split; auto. constructor.
  - destruct (xorb _ _) eqn:E; [|discriminate].
    exists [], s, caps. repeat split; auto. constructor; auto.
Qed.

Lemma rep_complete p : forall w lo hi prev rest
    (k : option ascii -> str -> option A) x,
  forallb p w = true -> lo <= length w -> within (length w) hi ->
  k (lastc prev w) rest = Some x ->
  exists y, rep p lo hi prev (w ++ rest) k = Some y.
Proof.
  induction w as [|c w IH]; intros lo hi prev rest k x Hw Hlo Hhi Hk.
  - simpl in *. assert (lo = 0) by lia. subst lo.
    destruct rest as [|c rest]; simpl.
    + destruct hi as [[|]|]; eauto.
    + destruct hi as [[|h]|]; eauto;
        destruct (p c); eauto;
        destruct (rep p _ _ _ _ _); eauto.
  - simpl in Hw. apply andb_prop in Hw. destruct Hw as [Pc Hw].
    simpl app. simpl rep.
    destruct hi as [[|h]|]; simpl in Hhi; [lia| |]; rewrite Pc.
    + destruct (IH (pred lo) (Some h) (Some c) rest k x) as [y Hy];
        simpl in *; auto; try lia.
      simpl. rewrite Hy. eauto.
    + destruct (IH (pred lo) None (Some c) rest k x) as [y Hy];
        simpl in *; auto; try lia.
      simpl. rewrite Hy. eauto.
Qed.

(** When a match exists that the continuation accepts, [run]
    succeeds. *)
Lemma run_complete : forall r prev w rest caps caps',
  Matches r prev w rest caps caps' ->
  forall (k : option ascii -> str -> list str -> option A) x,
  k (lastc prev w) rest caps' = Some x ->
  exists y, run r prev (w ++ rest) caps k = Some y.
Proof.
  induction 1; intros k x Hk; simpl in *.
  - eauto.
  - rewrite H. eauto.
  - eapply rep_complete; eauto.
  - rewrite lastc_app in Hk.
    destruct (IHMatches2 k x Hk) as [y Hy].
    rewrite <- app_assoc. eapply IHMatches1. exact Hy.
  - destruct (IHMatches k x Hk) as [y Hy]. rewrite Hy. eauto.
  - destruct (run a prev (w ++ rest) caps k); eauto.
  - eapply IHMatches. rewrite firstn_app_length. exact Hk.
  - eauto.
  - rewrite H. eauto.
Qed.

End Sound.

End RegexFacts.

Module ExecFacts.

Import RegexSpec RegexFacts.

Lemma matchHere_sound r prev s m :
  matchHere r prev s = Some m ->
  exists w, s = w ++ fst m /\ Matches r prev w (fst m) [] (snd m).
Proof.
  unfold matchHere. intros H. apply run_sound in H.
  destruct H as (w & rest & caps & -> & M & E).
  inversion E; subst m. exists w. split; auto.
Qed.

Lemma mkResult_sound r prev s i m :
  matchHere r prev s = Some m -> MatchIn r prev s i (mkResult i s m).
Proof.
  intros H. apply matchHere_sound in H. destruct H as (w & -> & M).
  exists [], (fst m). unfold mkResult; simpl.
  rewrite firstn_app_length. repeat split; auto.
Qed.

Lemma MatchIn_cons r prev c s i m :
  MatchIn r (Some c) s (S i) m -> MatchIn r prev (c :: s) i m.
Proof.
  intros (pre & rest & -> & Hi & M).
  exists (c :: pre), rest. simpl. repeat split; auto. lia.
Qed.

Lemma execFrom_sound r : forall s prev i m,
  execFrom r prev s i = Some m -> MatchIn r prev s i m.
Proof.
  induction s as [|c s IH]; intros prev i m H; simpl in H.
  - destruct (matchHere r prev []) eqn:E; [|discriminate].
    inversion H; subst m. apply mkResult_sound; auto.
  - destruct (matchHere r prev (c :: s)) eqn:E.
    + inversion H; subst m. apply mkResult_sound; auto.
    + apply MatchIn_cons, IH; auto.
Qed.

Lemma exec_sound r s m : exec r s = Some m -> MatchIn r None s 0 m.
Proof. apply execFrom_sound. Qed.

Lemma matchHere_complete r prev w rest caps :
  Matches r prev w rest [] caps ->
  exists m, matchHere r prev (w ++ rest) = Some m.
Proof.
  intros M. unfold matchHere.
  eapply run_complete; eauto.
Qed.

Lemma execFrom_complete r : forall pre prev w rest caps i,
  Matches r (lastc prev pre) w rest [] caps ->
  exists m, execFrom r prev (pre ++ w ++ rest) i = Some m.
Proof.
  induction pre as [|c pre IH]; intros prev w rest caps i M.
  - simpl in M. apply matchHere_complete in M. destruct M as [m Hm].
    simpl app. destruct (w ++ rest); simpl; rewrite Hm; eauto.
  - simpl app. simpl execFrom.
    destruct (matchHere r prev (c :: pre ++ w ++ rest)); eauto.
Qed.

(** A match anywhere in the subject makes [test] succeed. *)
Lemma test_complete r pre w rest caps :
  Matches r (lastc None pre) w rest [] caps ->
  test r (pre ++ w ++ rest) = true.
Proof.
  intros M. unfold test, exec.
  destruct (execFrom_complete r pre None w rest caps 0 M) as [m ->]. reflexivity.
Qed.

Lemma MatchIn_IsMatch r prev s i m : MatchIn r prev s i m -> IsMatch r m.
Proof. intros (pre & rest & _ & _ & M). eexists _, _; eauto. Qed.

Lemma exec_IsMatch r s m : exec r s = Some m -> IsMatch r m.
Proof. intros H. eapply MatchIn_IsMatch, exec_sound, H. Qed.

Lemma matchAllFrom_sound r : forall s prev i skip,
  Forall (IsMatch r) (matchAllFrom r prev s i skip).
Proof.
  induction s as [|c s IH]; intros prev i skip; simpl.
  - destruct skip; [|constructor].
    destruct (matchHere r prev []) eqn:E; constructor; [|constructor].
    eapply MatchIn_IsMatch, mkResult_sound, E.
  - destruct skip; [|apply IH].
    destruct (matchHere r prev (c :: s)) eqn:E; [|apply IH].
    constructor.
    + eapply MatchIn_IsMatch, mkResult_sound, E.
    + destruct (length _); apply IH.
Qed.

Lemma matchAll_sound r s : Forall (IsMatch r) (matchAll r s).
Proof. apply matchAllFrom_sound. Qed.

End ExecFacts.

(** * Price tokens *)

Module TokenFacts.

Import RegexSpec RegexFacts ExecFacts.

Ltac inv_matches :=
  match goal with
  | H : Matches (Grp _) _ _ _ _ _ |- _ => inversion H; subst; clear H
  | H : Matches (Seq _ _) _ _ _ _ _ |- _ => inversion H; subst; clear H
  | H : Matches (Rep _ _ _) _ _ _ _ _ |- _ => inversion H; subst; clear H
  | H : Matches (Chr _) _ _ _ _ _ |- _ => inversion H; subst; clear H
  | H : Matches WordB _ _ _ _ _ |- _ => inversion H; subst; clear H
  | H : Matches Bol _ _ _ _ _ |- _ => inversion H; subst; clear H
  | H : Matches Eps _ _ _ _ _ |- _ => inversion H; subst; clear H
  end.

Lemma tokenRegex_shape hi prev w rest caps caps' :
  Matches (Grp (seq [digits 1 None; Chr (oneOf ".,"); digits 2 (Some hi)]))
          prev w rest caps caps' ->
  Token 2 hi w /\ caps' = caps ++ [w].
Proof.
  unfold digits. simpl. intros M. repeat inv_matches.
  split; auto.
  match goal with
  | |- Token _ _ (?ip ++ [?sep] ++ ?fp) => exists ip, sep, fp
  end.
  simpl in *. repeat split; auto.
Qed.

Lemma priceRegex_token m : IsMatch priceRegex m -> Token 2 3 (whole m).
Proof.
  intros (prev & rest & M). apply tokenRegex_shape in M. tauto.
Qed.

Lemma totalRegex_token m :
  IsMatch totalRegex m ->
  Token 2 2 (whole m) /\ groups m = [whole m].
Proof.
  intros (prev & rest & M). apply tokenRegex_shape in M. tauto.
Qed.

End TokenFacts.

(** * [parsePrice] *)

Module PriceFacts.

Import NumFacts TokenFacts.

Ltac ascii_cases c := destruct c as [[] [] [] [] [] [] [] []].

Lemma ocrFix_map s : ocrFix s = map ocrChar s.
Proof.
  unfold ocrFix, Str.mapAll. rewrite !map_map. reflexivity.
Qed.

Lemma tokenChar_facts c :
  tokenChar c = true ->
  currencyClass c = false /\ Char.isSpace c = false /\ ocrChar c = c /\
  (Char.isDigit c = false -> isSep c = true).
Proof.
  ascii_cases c; intros H; vm_compute in H; try discriminate H;
    vm_compute; repeat split; intros; congruence.
Qed.

Lemma digitOrDot_facts c :
  digitOrDot c = true ->
  Char.isSpace c = false /\ Char.eqb c "-" = false /\
  Char.eqb c "+" = false /\ Char.eqb "I" c = false.
Proof.
  ascii_cases c; intros H; vm_compute in H; try discriminate H;
    vm_compute; repeat split.
Qed.

Lemma forallb_filter_id (p : ascii -> bool) s :
  forallb p s = true -> filter p s = s.
Proof.
  induction s as [|c s IH]; simpl; auto.
  intros H. apply andb_prop in H. destruct H as [-> H].
  rewrite IH; auto.
Qed.

Lemma forallb_filter (p : ascii -> bool) s : forallb p (filter p s) = true.
Proof.
  induction s as [|c s IH]; simpl; auto.
  destruct (p c) eqn:E; simpl; auto. rewrite E; auto.
Qed.

Lemma forallb_impl (p q : ascii -> bool) s :
  (forall c, p c = true -> q c = true) ->
  forallb p s = true -> forallb q s = true.
Proof.
  intros Hpq. induction s as [|c s IH]; simpl; auto.
  intros H. apply andb_prop in H. destruct H as [Hc H].
  rewrite (Hpq c Hc), IH; auto.
Qed.

(** Reading a numeral made of digits and points gives [NaN] or a
    Number that is not negative. *)
Lemma parseFloat_digitOrDot n :
  forallb digitOrDot n = true ->
  Num.parseFloat n = Num.NaN \/ nonneg (Num.parseFloat n) = true.
Proof.
  destruct n as [|c t]; [left; reflexivity|].
  simpl. intros H. apply andb_prop in H. destruct H as [Hc _].
  destruct (digitOrDot_facts c Hc) as (Hs & Hm & Hp & HI).
  unfold Num.parseFloat, Str.trimStart. simpl Str.dropWhile.
  rewrite Hs, Hm, Hp.
  change (Str.startsWith (lit "Infinity") (c :: t))
    with (Char.eqb "I" c && Str.startsWith (lit "nfinity") t).
  rewrite HI. simpl.
  destruct (Char.isDigit c).
  - right.
    destruct (Str.dropWhile Char.isDigit t) as [|d u];
      [|destruct (Char.eqb d ".")]; apply scale10_nonneg.
  - destruct (Char.eqb c ".").
    + destruct (Str.takeWhile Char.isDigit t); simpl; auto.
      right. apply scale10_nonneg.
    + left; reflexivity.
Qed.

Lemma orElse_nonneg x :
  x = Num.NaN \/ nonneg x = true ->
  nonneg (Num.orElse x (Num.ofZ 0)) = true.
Proof.
  intros [->|H]; [reflexivity|].
  destruct x as [[]|[]| |[]]; simpl in *; auto; discriminate.
Qed.

(** [parsePrice] never answers [NaN] or a negative Number. *)
Lemma parsePrice_nonneg priceStr : nonneg (parsePrice priceStr) = true.
Proof.
  unfold parsePrice. destruct priceStr as [|c s]; [reflexivity|].
  apply orElse_nonneg, parseFloat_digitOrDot.
  unfold Str.removeAll.
  eapply forallb_impl; [|apply forallb_filter].
  intros x Hx. simpl in Hx. unfold digitOrDot.
  destruct (Char.isDigit x || Char.eqb x "."); auto.
Qed.

End PriceFacts.

Module TokenPrice.

Import NumFacts TokenFacts PriceFacts.

Lemma dropWhile_head (p : ascii -> bool) c s :
  p c = false -> Str.dropWhile p (c :: s) = c :: s.
Proof. intros H. simpl. rewrite H. reflexivity. Qed.

Lemma dropWhile_nospace s :
  forallb tokenChar s = true -> Str.dropWhile Char.isSpace s = s.
Proof.
  destruct s as [|c s]; auto. simpl. intros H.
  apply andb_prop in H. destruct H as [Hc _].
  apply tokenChar_facts in Hc. destruct Hc as (_ & -> & _). reflexivity.
Qed.

Lemma forallb_rev (p : ascii -> bool) s :
  forallb p s = true -> forallb p (rev s) = true.
Proof.
  rewrite !forallb_forall. intros H x Hx. apply H, in_rev, Hx.
Qed.

Lemma trim_token s : forallb tokenChar s = true -> Str.trim s = s.
Proof.
  intros H. unfold Str.trim, Str.trimStart, Str.trimEnd.
  rewrite (dropWhile_nospace s H).
  rewrite (dropWhile_nospace (rev s) (forallb_rev _ _ H)).
  apply rev_involutive.
Qed.

Lemma removeAll_id (p : ascii -> bool) s :
  forallb (fun c => negb (p c)) s = true -> Str.removeAll p s = s.
Proof. apply forallb_filter_id. Qed.

Lemma ocrFix_token s : forallb tokenChar s = true -> ocrFix s = s.
Proof.
  rewrite ocrFix_map. induction s as [|c s IH]; simpl; auto.
  intros H. apply andb_prop in H. destruct H as [Hc H].
  apply tokenChar_facts in Hc. destruct Hc as (_ & _ & -> & _).
  rewrite IH; auto.
Qed.

Lemma digit_facts c :
  Char.isDigit c = true ->
  tokenChar c = true /\ digitOrDot c = true /\
  Char.eqb "," c = false /\ Char.eqb "." c = false /\
  Char.eqb c "," = false /\ Char.eqb c "." = false.
Proof.
  ascii_cases c; intros H; vm_compute in H; try discriminate H;
    vm_compute; repeat split.
Qed.

Lemma isSep_cases c : isSep c = true -> c = ","%char \/ c = "."%char.
Proof.
  ascii_cases c; intros H; vm_compute in H; try discriminate H; auto.
Qed.

Lemma takeWhile_digits ip c s :
  forallb Char.isDigit ip = true -> Char.isDigit c = false ->
  Str.takeWhile Char.isDigit (ip ++ c :: s) = ip /\
  Str.dropWhile Char.isDigit (ip ++ c :: s) = c :: s.
Proof.
  intros H Hc. induction ip as [|d ip IH]; simpl in *.
  - rewrite Hc. auto.
  - apply andb_prop in H. destruct H as [-> H].
    destruct (IH H) as [-> ->]. auto.
Qed.

Lemma takeWhile_all_digits fp :
  forallb Char.isDigit fp = true ->
  Str.takeWhile Char.isDigit fp = fp /\ Str.dropWhile Char.isDigit fp = [].
Proof.
  induction fp as [|d fp IH]; simpl; auto.
  intros H. apply andb_prop in H. destruct H as [-> H].
  destruct (IH H) as [-> ->]. auto.
Qed.

Lemma existsb_digits (c : ascii) ip :
  (forall d, Char.isDigit d = true -> Char.eqb c d = false) ->
  forallb Char.isDigit ip = true -> existsb (Char.eqb c) ip = false.
Proof.
  intros Hc. induction ip as [|d ip IH]; simpl; auto.
  intros H. apply andb_prop in H. destruct H as [Hd H].
  rewrite (Hc d Hd), IH; auto.
Qed.

Lemma replaceFirst_digits ip fp :
  forallb Char.isDigit ip = true ->
  Str.replaceFirst "," (lit ".") (ip ++ ","%char :: fp) = ip ++ "."%char :: fp.
Proof.
  induction ip as [|d ip IH]; [reflexivity|].
  intros H. cbn [forallb] in H. apply andb_prop in H. destruct H as [Hd H].
  apply digit_facts in Hd. destruct Hd as (_ & _ & _ & _ & Hd & _).
  cbn [app Str.replaceFirst]. rewrite Hd, IH; auto.
Qed.

Lemma orElse_id x : nonneg x = true -> Num.orElse x (Num.ofZ 0) = x.
Proof. destruct x as [[]|[]| |[]]; simpl; auto; discriminate. Qed.

Lemma parseFloat_numeral ip fp :
  forallb Char.isDigit ip = true -> 1 <= length ip ->
  forallb Char.isDigit fp = true ->
  Num.parseFloat (ip ++ "."%char :: fp) = decimalValue ip fp.
Proof.
  intros Hip Hn Hfp.
  destruct ip as [|c ip]; [simpl in Hn; lia|].
  pose proof Hip as Hip'. simpl in Hip'.
  apply andb_prop in Hip'. destruct Hip' as [Hc _].
  destruct (digit_facts c Hc) as (_ & Hdd & _).
  destruct (digitOrDot_facts c Hdd) as (Hs & Hm & Hp & HI).
  unfold Num.parseFloat, Str.trimStart.
  change ((c :: ip) ++ "."%char :: fp) with (c :: (ip ++ "."%char :: fp)).
  rewrite (dropWhile_head _ _ _ Hs), Hm, Hp.
  change (Str.startsWith (lit "Infinity") (c :: ip ++ "."%char :: fp))
    with (Char.eqb "I" c && Str.startsWith (lit "nfinity") (ip ++ "."%char :: fp)).
  rewrite HI. cbv beta iota zeta. simpl andb. cbv iota.
  change (c :: ip ++ "."%char :: fp) with ((c :: ip) ++ "."%char :: fp).
  destruct (takeWhile_digits (c :: ip) "." fp Hip eq_refl) as [-> ->].
  change (Char.eqb "." ".") with true. cbv iota.
  destruct (takeWhile_all_digits fp Hfp) as [-> ->].
  unfold decimalValue. simpl app. simpl Num.exponentPart.
  reflexivity.
Qed.

Lemma parsePrice_unfold s :
  s <> [] ->
  parsePrice s =
  Num.orElse
    (Num.parseFloat
       (Str.removeAll (fun c => negb (Char.isDigit c || Char.eqb c "."))
          (resolveSeparators
             (ocrFix (Str.trim (Str.removeAll currencyClass s))))))
    (Num.ofZ 0).
Proof. destruct s; [congruence|reflexivity]. Qed.

(** On a price token [parsePrice] changes nothing but the separator,
    and reads the numeral. *)
Lemma parsePrice_token ip sep fp :
  forallb Char.isDigit ip = true -> 1 <= length ip ->
  isSep sep = true -> forallb Char.isDigit fp = true ->
  let t := ip ++ sep :: fp in
  Str.trim (Str.removeAll currencyClass t) = t /\
  ocrFix t = t /\
  Str.includesChar t "," && Str.includesChar t "." = false /\
  resolveSeparators t = ip ++ "."%char :: fp /\
  parsePrice t = decimalValue ip fp.
Proof.
  intros Hip Hn Hsep Hfp t.
  assert (Ht : forallb tokenChar t = true).
  { unfold t. rewrite forallb_app. simpl.
    rewrite (forallb_impl _ _ ip (fun c H => proj1 (digit_facts c H)) Hip).
    rewrite (forallb_impl _ _ fp (fun c H => proj1 (digit_facts c H)) Hfp).
    unfold tokenChar. rewrite Hsep, orb_true_r. reflexivity. }
  assert (H1 : Str.trim (Str.removeAll currencyClass t) = t).
  { rewrite removeAll_id; [apply trim_token, Ht|].
    eapply forallb_impl; [|exact Ht].
    intros c Hc. apply tokenChar_facts in Hc.
    destruct Hc as (-> & _). reflexivity. }
  assert (H2 : ocrFix t = t) by (apply ocrFix_token, Ht).
  assert (Hc : Str.includesChar t "," = Char.eqb "," sep).
  { unfold Str.includesChar, t. rewrite existsb_app. simpl.
    rewrite !existsb_digits; auto.
    - rewrite orb_false_r. reflexivity.
    - intros d Hd. apply digit_facts in Hd. tauto.
    - intros d Hd. apply digit_facts in Hd. tauto. }
  assert (Hd : Str.includesChar t "." = Char.eqb "." sep).
  { unfold Str.includesChar, t. rewrite existsb_app. simpl.
    rewrite !existsb_digits; auto.
    - rewrite orb_false_r. reflexivity.
    - intros d Hd. apply digit_facts in Hd. tauto.
    - intros d Hd. apply digit_facts in Hd. tauto. }
  assert (H3 : Str.includesChar t "," && Str.includesChar t "." = false).
  { rewrite Hc, Hd. destruct (isSep_cases sep Hsep); subst; reflexivity. }
  assert (H4 : resolveSeparators t = ip ++ "."%char :: fp).
  { unfold resolveSeparators. rewrite H3, Hc.
    destruct (isSep_cases sep Hsep); subst sep.
    - change (Char.eqb "," ",") with true. cbv iota.
      apply replaceFirst_digits, Hip.
    - reflexivity. }
  repeat split; auto.
  assert (Hne : t <> []) by (unfold t; destruct ip; discriminate).
  rewrite (parsePrice_unfold t Hne), H1, H2, H4.
  rewrite removeAll_id.
  - rewrite parseFloat_numeral; auto.
    apply orElse_id, scale10_nonneg.
  - apply forallb_forall. intros x Hx.
    rewrite forallb_forall in Hip, Hfp.
    apply in_app_or in Hx. destruct Hx as [Hx|[<-|Hx]].
    + rewrite (Hip x Hx). reflexivity.
    + reflexivity.
    + rewrite (Hfp x Hx). reflexivity.
Qed.

End TokenPrice.

(** * The item loop and the total *)

Module LoopFacts.

Import NumFacts TokenFacts PriceFacts TokenPrice ExecFacts.

Lemma tokenAt_nth l i : tokenAt l i = nth i (map whole l) [].
Proof. unfold tokenAt. rewrite <- (map_nth whole). reflexivity. Qed.

Lemma extractItem_inv line it amt :
  extractItem line = Some (it, amt) ->
  let toks := map whole (matchAll priceRegex line) in
  toks <> [] /\
  price it = parsePrice (nth (priceIndex (length toks)) toks []) /\
  amt = parsePrice (nth (length toks - 1) toks []) /\
  category it = otros /\ itemOk it /\
  isSummary line = false /\ isGarbage line = false.
Proof.
  intros H. cbv zeta. unfold extractItem in H.
  destruct (matchAll priceRegex line) as [|first more];
    [discriminate|].
  cbv zeta in H.
  destruct (_ && _) eqn:G in H; [|discriminate].
  inversion H; subst; clear H. cbn [price category description].
  rewrite !tokenAt_nth, length_map. rewrite !tokenAt_nth in G.
  repeat (apply andb_prop in G; destruct G as [G ?]).
  unfold itemOk. cbn [price category description].
  repeat split; auto.
  - discriminate.
  - apply Nat.ltb_lt; auto.
  - apply negb_true_iff; auto.
  - apply negb_true_iff; auto.
Qed.

Lemma extractItem_amount_nonneg line it amt :
  extractItem line = Some (it, amt) -> nonneg amt = true.
Proof.
  intros H. apply extractItem_inv in H.
  destruct H as (_ & _ & -> & _). apply parsePrice_nonneg.
Qed.

Lemma itemStep_inv st line :
  Forall itemOk (fst st) -> nonneg (snd st) = true ->
  Forall itemOk (fst (itemStep st line)) /\
  nonneg (snd (itemStep st line)) = true.
Proof.
  intros Hi Hc. unfold itemStep.
  destruct (skipped line); auto.
  destruct (extractItem line) as [[it amt]|] eqn:E; auto.
  simpl. split.
  - apply Forall_app. split; auto. constructor; auto.
    apply extractItem_inv in E. tauto.
  - apply add_nonneg; auto. eapply extractItem_amount_nonneg; eauto.
Qed.

Lemma fold_itemStep_inv lines : forall st,
  Forall itemOk (fst st) -> nonneg (snd st) = true ->
  Forall itemOk (fst (fold_left itemStep lines st)) /\
  nonneg (snd (fold_left itemStep lines st)) = true.
Proof.
  induction lines as [|l ls IH]; intros st Hi Hc; simpl; auto.
  destruct (itemStep_inv st l Hi Hc). apply IH; auto.
Qed.

Lemma extractItems_inv lines :
  Forall itemOk (fst (extractItems lines)) /\
  nonneg (snd (extractItems lines)) = true.
Proof. apply fold_itemStep_inv; simpl; auto. Qed.

Lemma totalStep_nonneg d line :
  nonneg d = true -> nonneg (totalStep d line) = true.
Proof.
  intros H. unfold totalStep.
  destruct (isTotalLine line); auto.
  destruct (exec totalRegex line); auto. apply parsePrice_nonneg.
Qed.

(** Without a total line that carries a value nothing is detected. *)
Lemma detectTotal_no_value lines :
  Forall (fun l => isTotalLine l = false \/ exec totalRegex l = None) lines ->
  detectTotal lines = Num.ofZ 0.
Proof.
  intros H. unfold detectTotal. generalize (Num.ofZ 0).
  induction H as [|l ls Hl _ IH]; intros d; simpl; auto.
  assert (E : totalStep d l = d).
  { unfold totalStep. destruct Hl as [-> | Hl]; [reflexivity|].
    rewrite Hl. destruct (isTotalLine l); reflexivity. }
  rewrite E. apply IH.
Qed.

Lemma detectTotal_nonneg lines : nonneg (detectTotal lines) = true.
Proof.
  unfold detectTotal.
  assert (H : nonneg (Num.ofZ 0) = true) by reflexivity.
  revert H. generalize (Num.ofZ 0).
  induction lines as [|l ls IH]; intros d H; simpl; auto.
  apply IH, totalStep_nonneg, H.
Qed.

(** *** Rounding to two decimals *)

Lemma parseFloat_digit_head c s :
  Char.isDigit c = true -> nonneg (Num.parseFloat (c :: s)) = true.
Proof.
  intros Hc.
  destruct (digit_facts c Hc) as (_ & Hdd & _).
  destruct (digitOrDot_facts c Hdd) as (Hs & Hm & Hp & HI).
  unfold Num.parseFloat, Str.trimStart.
  rewrite (dropWhile_head _ _ _ Hs), Hm, Hp.
  change (Str.startsWith (lit "Infinity") (c :: s))
    with (Char.eqb "I" c && Str.startsWith (lit "nfinity") s).
  rewrite HI. simpl. rewrite Hc.
  destruct (Str.dropWhile Char.isDigit s) as [|d u];
    [|destruct (Char.eqb d ".")]; apply scale10_nonneg.
Qed.

Lemma digitsOf_head n :
  exists c s, Num.digitsOf n = c :: s /\ Char.isDigit c = true.
Proof.
  unfold Num.digitsOf. generalize (N.to_uint (Z.to_N n)).
  intros d. destruct d; simpl; eexists _, _; split; reflexivity.
Qed.

Lemma padStart_head ds :
  (exists c s, ds = c :: s /\ Char.isDigit c = true) ->
  exists c s, Str.padStart 3 "0" ds = c :: s /\ Char.isDigit c = true /\
              2 <= length s.
Proof.
  intros (c & s & -> & Hc). unfold Str.padStart.
  destruct s as [|c1 [|c2 s]]; simpl; eexists _, _; repeat split;
    try reflexivity; auto; simpl; lia.
Qed.

Lemma toFixed2_nonneg m e :
  exists c s, Num.toFixed2 (S754_finite false m e) = c :: s /\
              Char.isDigit c = true.
Proof.
  unfold Num.toFixed2. cbv [Num.isNegative]. rewrite !app_nil_l.
  destruct (Num.ltb _ _).
  - destruct (padStart_head _ (digitsOf_head (Num.hundredths (S754_finite false m e))))
      as (c & s & -> & Hc & Hl).
    exists c. simpl length.
    replace (S (length s) - 2) with (S (length s - 2)) by lia.
    simpl. eexists; split; [reflexivity|exact Hc].
  - apply digitsOf_head.
Qed.

Lemma rounded_nonneg x : nonneg x = true -> nonneg (rounded x) = true.
Proof.
  unfold rounded. destruct x as [[]|[]| |[] m e]; cbn [nonneg negb];
    intros H; try discriminate H.
  - vm_compute. reflexivity.
  - vm_compute. reflexivity.
  - destruct (toFixed2_nonneg m e) as (c & s & -> & Hc).
    apply parseFloat_digit_head, Hc.
Qed.

Lemma reconcile_nonneg d calc :
  nonneg d = true -> nonneg calc = true ->
  nonneg (reconcile d calc) = true.
Proof.
  intros Hd Hc. unfold reconcile.
  destruct (_ || _); auto using rounded_nonneg with num.
Qed.

Lemma gtb_zero_nonneg p :
  Num.gtb p (Num.ofZ 0) = true -> nonneg p = true.
Proof. destruct p as [[]|[]| |[]]; simpl; auto; discriminate. Qed.

Lemma fold_max2_nonneg l : forall a,
  nonneg a = true -> Forall (fun p => nonneg p = true) l ->
  nonneg (fold_left Num.max2 l a) = true.
Proof.
  induction l as [|p l IH]; intros a Ha Hl; simpl; auto.
  inversion Hl; subst. apply IH; auto. apply max2_nonneg; auto.
Qed.

Lemma max_nonneg l :
  l <> [] -> Forall (fun p => nonneg p = true) l ->
  nonneg (Num.max l) = true.
Proof.
  destruct l as [|p l]; [congruence|]. intros _ Hl.
  inversion Hl; subst. unfold Num.max. simpl fold_left.
  apply fold_max2_nonneg; auto.
  destruct p as [[]|[]| |[]]; simpl in *; auto.
Qed.

Lemma sanity_nonneg t its :
  nonneg t = true -> Forall itemOk its -> nonneg (sanity t its) = true.
Proof.
  intros Ht Hi. unfold sanity.
  destruct (_ && _) eqn:G; auto.
  apply andb_prop in G. destruct G as [_ G]. apply Nat.ltb_lt in G.
  apply max_nonneg.
  - destruct its; simpl in *; [lia|discriminate].
  - apply Forall_map. eapply Forall_impl; [|exact Hi].
    intros it (H & _). apply gtb_zero_nonneg, H.
Qed.

End LoopFacts.

(** * Dates *)

Module DateFacts.

Import RegexSpec RegexFacts ExecFacts TokenFacts PriceFacts TokenPrice.

Lemma dateRegex_matches prev w rest caps caps' :
  Matches dateRegex prev w rest caps caps' ->
  exists d s1 mo s2 y,
    caps' = caps ++ [d; mo; y] /\ w = d ++ s1 :: mo ++ s2 :: y /\
    Digits 1 2 d /\ Digits 1 2 mo /\ Digits 2 4 y /\
    oneOf "-/." s1 = true /\ oneOf "-/." s2 = true.
Proof.
  unfold dateRegex, digits. simpl. intros M. repeat inv_matches.
  do 5 eexists.
  split; [rewrite <- !app_assoc; reflexivity|].
  split; [simpl; rewrite app_nil_r; reflexivity|].
  unfold Digits, within in *. repeat split; auto.
Qed.

Lemma dateRegex_shape m :
  IsMatch dateRegex m ->
  exists d s1 mo s2 y,
    groups m = [d; mo; y] /\ whole m = d ++ s1 :: mo ++ s2 :: y /\
    Digits 1 2 d /\ Digits 1 2 mo /\ Digits 2 4 y /\
    oneOf "-/." s1 = true /\ oneOf "-/." s2 = true.
Proof.
  intros (prev & rest & M). apply dateRegex_matches in M. exact M.
Qed.

Lemma parseInt_digits s :
  forallb Char.isDigit s = true -> 1 <= length s ->
  parseInt s = Some (Num.digitsVal s).
Proof.
  intros H Hn. destruct s as [|c s]; [simpl in Hn; lia|].
  pose proof H as H'. cbn [forallb] in H'.
  apply andb_prop in H'. destruct H' as [Hc _].
  destruct (digit_facts c Hc) as (_ & Hdd & _).
  destruct (digitOrDot_facts c Hdd) as (Hs & Hm & Hp & _).
  unfold parseInt, Str.trimStart.
  rewrite (dropWhile_head _ _ _ Hs), Hm, Hp.
  destruct (takeWhile_all_digits (c :: s) H) as [-> _]. reflexivity.
Qed.

Lemma detectDate_first today pre line post m :
  Forall (fun l => exec dateRegex l = None) pre ->
  exec dateRegex line = Some m ->
  detectDate (pre ++ line :: post) today =
  normalizeDate (nth 0 (groups m) []) (nth 1 (groups m) [])
                (nth 2 (groups m) []).
Proof.
  intros Hpre Hm. induction Hpre as [|l pre Hl Hpre IH]; simpl.
  - rewrite Hm. reflexivity.
  - rewrite Hl. exact IH.
Qed.

End DateFacts.

(** * Merchants *)

Module MerchantFacts.

Import RegexSpec RegexFacts ExecFacts.

Lemma ichr_self c prev rest caps :
  Matches (ichr c) prev [c] rest caps caps.
Proof.
  apply MChr. unfold Char.eqb. apply Ascii.eqb_refl.
Qed.

Lemma seq_cons r rs :
  rs <> [] -> seq (r :: rs) = Seq r (seq rs).
Proof. destruct rs; [congruence|reflexivity]. Qed.

Lemma spacedOf_nonempty c w : spacedOf (c :: w) <> [].
Proof. destruct w; discriminate. Qed.

Lemma spaced_spell : forall w gaps prev rest caps,
  w <> [] -> Forall blank gaps ->
  Matches (seq (spacedOf w)) prev (spell w gaps) rest caps caps.
Proof.
  induction w as [|c w IH]; intros gaps prev rest caps Hw Hg;
    [congruence|].
  destruct w as [|c' w].
  - apply ichr_self.
  - change (spacedOf (c :: c' :: w))
      with (ichr c :: Rep Char.isSpace 0 None :: spacedOf (c' :: w)).
    rewrite seq_cons by discriminate.
    rewrite seq_cons by apply spacedOf_nonempty.
    change (spell (c :: c' :: w) gaps)
      with ([c] ++ hd [] gaps ++ spell (c' :: w) (tl gaps)).
    eapply MSeq; [apply ichr_self|].
    eapply MSeq.
    + apply MRep; simpl; auto with arith.
      destruct Hg; simpl; auto.
    + apply IH; [discriminate|]. destruct Hg; simpl; auto.
Qed.

(** A spaced-out spelling of [w] anywhere in the text is found by
    the pattern [spaced w]. *)
Lemma spaced_test w gaps pre post :
  lit w <> [] -> Forall blank gaps ->
  test (spaced w) (pre ++ spell (lit w) gaps ++ post) = true.
Proof.
  intros Hw Hg. eapply test_complete. apply spaced_spell; auto.
Qed.






Lemma find_first {A} (f : A -> bool) pre e post :
  Forall (fun x => f x = false) pre -> f e = true ->
  find f (pre ++ e :: post) = Some e.
Proof.
  intros Hpre He. induction Hpre as [|x pre Hx Hpre IH]; simpl.
  - rewrite He. reflexivity.
  - rewrite Hx. exact IH.
Qed.



End MerchantFacts.

Module LineFacts.

Import PriceFacts MerchantFacts.

Lemma dropWhile_stops (p : ascii -> bool) s c t :
  Str.dropWhile p s = c :: t -> p c = false.
Proof.
  induction s as [|x s IH]; simpl; [discriminate|].
  destruct (p x) eqn:E; auto. intros H. inversion H; subst. exact E.
Qed.

Lemma dropWhile_suffix (p : ascii -> bool) s :
  exists a, s = a ++ Str.dropWhile p s.
Proof.
  induction s as [|x s [a IH]]; [exists []; reflexivity|].
  simpl. destruct (p x).
  - exists (x :: a). simpl. rewrite <- IH. reflexivity.
  - exists []. reflexivity.
Qed.

Lemma trim_solid x : Str.trim x <> [] -> solid (Str.trim x).
Proof.
  unfold Str.trim, Str.trimEnd, Str.trimStart.
  set (y := Str.dropWhile Char.isSpace x).
  destruct (dropWhile_suffix Char.isSpace (rev y)) as [a Ha].
  set (z := Str.dropWhile Char.isSpace (rev y)) in *.
  intros Hz.
  assert (Hy : y = rev z ++ rev a).
  { rewrite <- rev_app_distr, <- Ha, rev_involutive. reflexivity. }
  destruct (rev z) as [|c t] eqn:E; [congruence|].
  apply (dropWhile_stops Char.isSpace x c (t ++ rev a)). exact Hy.
Qed.

Lemma splitLines_solid rawText : Forall solid (splitLines rawText).
Proof.
  unfold splitLines. apply Forall_forall. intros l Hl.
  apply filter_In in Hl. destruct Hl as [Hl Hn].
  apply in_map_iff in Hl. destruct Hl as (x & <- & _).
  apply trim_solid. destruct (Str.trim x); [discriminate|discriminate].
Qed.

Lemma upper_solid_char c :
  Char.isSpace c = false -> solid (Char.upper c).
Proof.
  ascii_cases c; intros H; vm_compute in H; try discriminate H;
    vm_compute; reflexivity.
Qed.

Lemma toUpperCase_solid l : solid l -> solid (Str.toUpperCase l).
Proof.
  destruct l as [|c t]; [intros []|]. intros Hc.
  pose proof (upper_solid_char c Hc) as H.
  unfold Str.toUpperCase. simpl flat_map.
  destruct (Char.upper c); [destruct H|exact H].
Qed.

Lemma dropWhile_keeps_last (p : ascii -> bool) a c :
  p c = false -> Str.dropWhile p (a ++ [c]) <> [].
Proof.
  intros Hc. induction a as [|x a IH]; simpl.
  - rewrite Hc. discriminate.
  - destruct (p x); auto. discriminate.
Qed.

Lemma trim_nonempty l : solid l -> Str.trim l <> [].
Proof.
  destruct l as [|c t]; [intros []|]. intros Hc.
  unfold Str.trim, Str.trimStart, Str.trimEnd.
  rewrite (TokenPrice.dropWhile_head _ _ _ Hc).
  simpl rev. intros E.
  apply (f_equal (@rev ascii)) in E. rewrite rev_involutive in E.
  exact (dropWhile_keeps_last _ _ _ Hc E).
Qed.

Lemma firstHeader_nonempty fb : forall ls,
  Forall solid ls -> fb <> [] -> firstHeader ls fb <> [].
Proof.
  induction ls as [|l ls IH]; intros Hs Hfb; simpl; auto.
  inversion Hs; subst.
  destruct (headerCandidate _); auto.
  apply trim_nonempty, toUpperCase_solid. assumption.
Qed.

Lemma Forall_firstn {A} (P : A -> Prop) n l :
  Forall P l -> Forall P (firstn n l).
Proof.
  intros H. revert n. induction H; intros [|n]; simpl; auto.
Qed.

Lemma knownMerchant_nonempty text : knownMerchant text <> [].
Proof.
  unfold knownMerchant.
  destruct (find _ establishments) as [e|] eqn:E; [|discriminate].
  apply find_some in E. destruct E as [E _].
  assert (N : Forall (fun e => fst e <> []) establishments)
    by (repeat constructor; discriminate).
  rewrite Forall_forall in N. apply N, E.
Qed.

(** The merchant of lines given by [splitLines] is never empty. *)
Lemma detectMerchant_nonempty lines :
  Forall solid lines -> detectMerchant lines <> [].
Proof.
  intros Hs. unfold detectMerchant.
  destruct (Str.eqb _ _).
  - apply firstHeader_nonempty.
    + apply Forall_firstn, Hs.
    + apply knownMerchant_nonempty.
  - apply knownMerchant_nonempty.
Qed.

End LineFacts.

(** * Properties of [parse] *)

Module Claims.

Import NumFacts RegexSpec RegexFacts ExecFacts TokenFacts PriceFacts
       TokenPrice LoopFacts DateFacts MerchantFacts LineFacts.

(** The fields of the draft, one section of [parse] each. *)
Lemma parseLines_fields today lines :
  merchant (parseLines today lines) = detectMerchant lines /\
  date (parseLines today lines) = detectDate lines today /\
  items (parseLines today lines) = fst (extractItems lines) /\
  total (parseLines today lines) =
    sanity (reconcile (detectTotal lines) (snd (extractItems lines)))
           (fst (extractItems lines)).
Proof.
  unfold parseLines. destruct (extractItems lines). simpl. auto.
Qed.

(** ** C1 *)

(** C1. A text whose trimmed, non-empty lines are "MERCADONA S.A.",
    "01/02/2024", "2 PAN 0,50 1,00" and "TOTAL 1,00" is parsed into
    the draft with merchant "MERCADONA", date "2024-02-01", the one
    item PAN at 0.50 and total 1.00, whatever the processing date. *)
Theorem parse_receipt1 today rawText :
  splitLines rawText = receipt1 -> parse today rawText = draft1.
Proof.
  intros H. unfold parse. rewrite H. vm_compute. reflexivity.
Qed.

Lemma parse_receipt1_witness :
  splitLines text1 = receipt1 /\ parse (lit "2026-11-02") text1 = draft1.
Proof.
  split; [vm_compute; reflexivity|].
  apply (parse_receipt1 (lit "2026-11-02") text1).
  vm_compute; reflexivity.
Defined.

(** ** C2 *)

(** C2, counterexample.  The calculated sum enters the total only
    after rounding to two decimals: on the single line "PAN 1.005"
    nothing is detected, the sum is 1.005 and the total is 1. *)
Lemma reconcile_not_max_counterexample :
  Num.eqb (detectTotal receipt1005) (Num.ofZ 0) = true /\
  snd (extractItems receipt1005) = Num.dec 1005 3 /\
  reconcile (detectTotal receipt1005) (snd (extractItems receipt1005)) =
    Num.ofZ 1 /\
  Num.max2 (detectTotal receipt1005) (snd (extractItems receipt1005)) =
    Num.dec 1005 3 /\
  Num.eqb
    (reconcile (detectTotal receipt1005) (snd (extractItems receipt1005)))
    (Num.max2 (detectTotal receipt1005) (snd (extractItems receipt1005)))
  = false.
Proof. vm_compute. repeat split; reflexivity. Qed.

Lemma nonneg_not_positive x :
  nonneg x = true -> Num.gtb x (Num.ofZ 0) = false -> x = Num.zero.
Proof.
  destruct x as [[]|[]| |[] m e]; simpl; intros H G;
    try discriminate; reflexivity.
Qed.

Lemma max2_zero d :
  nonneg d = true -> Num.eqb d (Num.ofZ 0) = false ->
  Num.max2 d Num.zero = d /\ Num.sub d Num.zero = d.
Proof.
  destruct d as [[]|[]| |[] m e]; simpl; intros H G;
    try discriminate; split; reflexivity.
Qed.

(** C2 (amended). When no total line gives a value, or the
    detected total is zero, or it is more than 30 away from the
    calculated sum, the total before the last fallback is the larger
    of the detected total and the calculated sum ROUNDED TO TWO
    DECIMALS; items of 20.00 and 25.00 with a line "TOTAL 12.00"
    give the total 45. *)
Theorem reconcile_max :
  (forall lines,
     let detected := detectTotal lines in
     let calculated := snd (extractItems lines) in
     Forall (fun l => isTotalLine l = false \/ exec totalRegex l = None)
            lines \/
     Num.eqb detected (Num.ofZ 0) = true \/
     Num.gtb (Num.abs (Num.sub detected calculated)) (Num.ofZ 30) = true ->
     reconcile detected calculated =
     Num.max2 detected (rounded calculated)) /\
  (forall today,
     snd (extractItems receipt45) = Num.ofZ 45 /\
     detectTotal receipt45 = Num.ofZ 12 /\
     total (parseLines today receipt45) = Num.ofZ 45).
Proof.
  split.
  - intros lines detected calculated H.
    pose proof (detectTotal_nonneg lines) as Hd. fold detected in Hd.
    destruct (extractItems_inv lines) as [_ Hc]. fold calculated in Hc.
    assert (H' : Num.eqb detected (Num.ofZ 0) = true \/
                 Num.gtb (Num.abs (Num.sub detected calculated))
                         (Num.ofZ 30) = true).
    { destruct H as [H|[H|H]]; auto.
      left. unfold detected. rewrite (detectTotal_no_value lines H).
      reflexivity. }
    clear H. unfold reconcile.
    destruct (Num.eqb detected (Num.ofZ 0)) eqn:E; [reflexivity|].
    destruct H' as [H|H]; [discriminate|]. rewrite H.
    destruct (Num.gtb calculated (Num.ofZ 0)) eqn:G; [reflexivity|].
    cbn [orb andb].
    rewrite (nonneg_not_positive calculated Hc G).
    replace (rounded Num.zero) with Num.zero by (vm_compute; reflexivity).
    symmetry. apply max2_zero; assumption.
  - intros today.
    destruct (parseLines_fields today receipt45) as (_ & _ & _ & ->).
    vm_compute. repeat split; reflexivity.
Qed.

Lemma reconcile_max_witness :
  Num.gtb (Num.abs (Num.sub (detectTotal receipt45)
                             (snd (extractItems receipt45))))
          (Num.ofZ 30) = true /\
  reconcile (detectTotal receipt45) (snd (extractItems receipt45)) =
  Num.max2 (detectTotal receipt45) (rounded (snd (extractItems receipt45))).
Proof.
  split; [vm_compute; reflexivity|].
  apply (proj1 reconcile_max receipt45).
  right. right. vm_compute. reflexivity.
Defined.

(** ** C3 *)

(** C3. On a line that is not skipped as noise and whose item is
    accepted: with one price token the stored price is its value;
    with two or more it is the value of the last but one; and the
    amount added to the calculated total is the value of the last
    token in either case.  The tokens are digits, one of [,] and
    [.], and two or three digits. *)
Theorem stored_and_added_price line it amt :
  skipped line = false ->
  extractItem line = Some (it, amt) ->
  let tokens := map whole (matchAll priceRegex line) in
  Forall (Token 2 3) tokens /\
  (forall t, tokens = [t] -> price it = parsePrice t) /\
  (forall before t1 t2,
     tokens = before ++ [t1; t2] -> price it = parsePrice t1) /\
  amt = parsePrice (last tokens []) /\
  forall its calculatedTotal,
    itemStep (its, calculatedTotal) line =
    (its ++ [it], Num.add calculatedTotal (parsePrice (last tokens []))).
Proof.
  intros Hs H tokens.
  pose proof (extractItem_inv line it amt H) as I. cbv zeta in I.
  fold tokens in I. destruct I as (Hne & Hp & Ha & _).
  assert (Hlast : nth (length tokens - 1) tokens [] = last tokens []).
  { destruct tokens as [|t ts] using rev_ind; [congruence|].
    rewrite last_last, length_app, Nat.add_sub. simpl.
    rewrite nth_middle. reflexivity. }
  rewrite Hlast in Ha.
  split; [|split; [|split; [|split]]].
  - unfold tokens. apply Forall_map.
    eapply Forall_impl; [|apply matchAll_sound].
    intros m. apply priceRegex_token.
  - intros t E. rewrite Hp, E. reflexivity.
  - intros before t1 t2 E. rewrite Hp, E.
    rewrite length_app. simpl length. unfold priceIndex.
    replace (2 <=? length before + 2) with true
      by (symmetry; apply Nat.leb_le; lia).
    rewrite Nat.add_sub. rewrite nth_middle. reflexivity.
  - exact Ha.
  - intros its calc. unfold itemStep. rewrite Hs, H, <- Ha. reflexivity.
Qed.

Lemma stored_and_added_price_witness :
  skipped panLine = false /\
  extractItem panLine = Some (pan, Num.dec 100 2) /\
  price pan = parsePrice (lit "0,50") /\
  itemStep ([], Num.ofZ 0) panLine =
  ([pan], Num.add (Num.ofZ 0) (parsePrice (lit "1,00"))).
Proof.
  assert (Hs : skipped panLine = false) by (vm_compute; reflexivity).
  assert (He : extractItem panLine = Some (pan, Num.dec 100 2))
    by (vm_compute; reflexivity).
  destruct (stored_and_added_price panLine pan (Num.dec 100 2) Hs He)
    as (_ & _ & Hp & _ & Hstep).
  split; [exact Hs|]. split; [exact He|]. split.
  - apply (Hp [] (lit "0,50") (lit "1,00")). vm_compute. reflexivity.
  - apply (Hstep [] (Num.ofZ 0)).
Defined.

(** ** C4 *)

(** The values the documentation of [parsePrice] names. *)
Lemma parsePrice_examples :
  parsePrice (lit "1,25") = Num.dec 125 2 /\
  parsePrice (lit "1.200,50") = Num.dec 120050 2 /\
  parsePrice (lit "1,200.50") = Num.dec 120050 2 /\
  parsePrice (lit "12,5O") = Num.dec 1250 2 /\
  parsePrice (lit "") = Num.ofZ 0 /\
  parsePrice (lit "abc") = Num.ofZ 0.
Proof. vm_compute. repeat split; reflexivity. Qed.

(** C4, at the failing input.  With a point and two commas, the
    comma being last, the FIRST comma becomes the decimal point and
    the last one is dropped: "1.200,300,50" is read as 1200.3005,
    not as 1200300.50; with two points, the point being last,
    reading stops at the second one: "1,2.3.4" is 12.3, not 123.4. *)
Theorem parsePrice_repeated_separator :
  parsePrice (lit "1.200,300,50") = Num.dec 12003005 4 /\
  Num.eqb (parsePrice (lit "1.200,300,50")) (Num.dec 120030050 2) = false /\
  parsePrice (lit "1,2.3.4") = Num.dec 123 1 /\
  Num.eqb (parsePrice (lit "1,2.3.4")) (Num.dec 1234 1) = false.
Proof. vm_compute. repeat split; reflexivity. Qed.

(** ** C5 *)

Lemma padStart_zeroPadded s :
  Digits 1 2 s -> Str.padStart 2 "0" s = zeroPadded s.
Proof.
  intros [_ [Lo Hi]].
  destruct s as [|a [|b [|c s]]]; simpl in Lo, Hi; try lia; reflexivity.
Qed.

Lemma normalizeDate_isoDate d mo y :
  Digits 1 2 d -> Digits 1 2 mo ->
  normalizeDate d mo y =
  if (12 <? Num.digitsVal mo)%Z then isoDate y d mo else isoDate y mo d.
Proof.
  intros Hd Hmo. unfold normalizeDate, parseIntGt.
  rewrite (parseInt_digits mo (proj1 Hmo) (proj1 (proj2 Hmo))).
  unfold isoDate.
  destruct (12 <? Num.digitsVal mo)%Z;
    rewrite (padStart_zeroPadded d Hd), (padStart_zeroPadded mo Hmo);
    reflexivity.
Qed.

(** The groups of a match are read off its text: the digits before
    the first separator, those between the two, those after. *)
Lemma groups_of_whole d s1 mo s2 y a b c :
  Digits 1 2 d -> Digits 1 2 mo -> Digits 2 4 y ->
  oneOf "-/." s1 = true -> oneOf "-/." s2 = true ->
  Digits 2 2 a -> Digits 2 2 b -> Digits 2 2 c ->
  d ++ s1 :: mo ++ s2 :: y = a ++ "/"%char :: b ++ "/"%char :: c ->
  d = a /\ mo = b /\ y = c.
Proof.
  intros [Hd [Ld Ld']] [Hm [Lm Lm']] [Hy [Ly Ly']] Hs1 Hs2
         [Ha [La La']] [Hb [Lb Lb']] [Hc [Lc Lc']] E.
  destruct a as [|a1 [|a2 [|a3 a]]]; simpl in La, La'; try lia.
  destruct b as [|b1 [|b2 [|b3 b]]]; simpl in Lb, Lb'; try lia.
  destruct c as [|c1 [|c2 [|c3 c]]]; simpl in Lc, Lc'; try lia.
  cbn [forallb] in Ha, Hb, Hc.
  repeat match goal with
         | H : _ && _ = true |- _ => apply andb_prop in H; destruct H
         end.
  assert (Sep : forall x, Char.isDigit x = true -> oneOf "-/." x = true ->
                          False).
  { intros x. ascii_cases x; vm_compute; intros; discriminate. }
  destruct d as [|d1 [|d2 [|d3 d]]]; simpl in Ld, Ld'; try lia;
    destruct mo as [|m1 [|m2 [|m3 mo]]]; simpl in Lm, Lm'; try lia;
    destruct y as [|y1 [|y2 [|y3 [|y4 [|y5 y]]]]]; simpl in Ly, Ly'; try lia;
    simpl in E; inversion E; subst;
    try (exfalso; eapply Sep; eassumption);
    try (exfalso; vm_compute in Hs1; discriminate Hs1);
    try (exfalso; vm_compute in Hs2; discriminate Hs2);
    try (cbn [forallb] in Hd, Hm, Hy;
         repeat match goal with
                | H : _ && _ = true |- _ => apply andb_prop in H; destruct H
                end;
         exfalso;
         match goal with
         | H : Char.isDigit "/" = true |- _ => vm_compute in H; discriminate H
         end);
    repeat split; reflexivity.
Qed.

(** C5. The date comes from the first line the pattern matches; its
    three groups are read as day, month and year, day and month are
    exchanged when the month is above 12, a year of two digits gets
    the prefix "20", a day or a month of one digit gets a zero in
    front.  A first matching line whose match is 05/13/24, and one
    whose match is 13/05/24, both give "2024-05-13"; 1/2/24 gives
    "2024-02-01". *)
Theorem date_of_first_match :
  (forall today before line after m,
     Forall (fun l => exec dateRegex l = None) before ->
     exec dateRegex line = Some m ->
     exists day month year,
       groups m = [day; month; year] /\
       Digits 1 2 day /\ Digits 1 2 month /\ Digits 2 4 year /\
       date (parseLines today (before ++ line :: after)) =
         if (12 <? Num.digitsVal month)%Z
         then isoDate year day month
         else isoDate year month day) /\
  (forall today before line after m,
     Forall (fun l => exec dateRegex l = None) before ->
     exec dateRegex line = Some m ->
     whole m = lit "05/13/24" \/ whole m = lit "13/05/24" ->
     date (parseLines today (before ++ line :: after)) = lit "2024-05-13") /\
  (forall today,
     date (parseLines today [lit "05/13/24"]) = lit "2024-05-13" /\
     date (parseLines today [lit "13/05/24"]) = lit "2024-05-13" /\
     date (parseLines today [lit "LIDL"; lit "FECHA: 05/13/24 18:30"])
       = lit "2024-05-13" /\
     date (parseLines today [lit "1/2/24"]) = lit "2024-02-01" /\
     date (parseLines today [lit "5/13/24"]) = lit "2024-05-13" /\
     date (parseLines today [lit "13/5/2024"]) = lit "2024-05-13").
Proof.
  assert (G : forall today before line after m,
            Forall (fun l => exec dateRegex l = None) before ->
            exec dateRegex line = Some m ->
            exists d s1 mo s2 y,
              groups m = [d; mo; y] /\ whole m = d ++ s1 :: mo ++ s2 :: y /\
              Digits 1 2 d /\ Digits 1 2 mo /\ Digits 2 4 y /\
              oneOf "-/." s1 = true /\ oneOf "-/." s2 = true /\
              date (parseLines today (before ++ line :: after)) =
                if (12 <? Num.digitsVal mo)%Z
                then isoDate y d mo else isoDate y mo d).
  { intros today before line after m Hb Hm.
    destruct (dateRegex_shape m (exec_IsMatch _ _ _ Hm))
      as (d & s1 & mo & s2 & y & Hg & Hw & Hd & Hmo & Hy & Hs1 & Hs2).
    exists d, s1, mo, s2, y. repeat (split; [assumption|]).
    destruct (parseLines_fields today (before ++ line :: after))
      as (_ & -> & _).
    rewrite (detectDate_first today before line after m Hb Hm), Hg.
    cbn [nth]. apply normalizeDate_isoDate; assumption. }
  split; [|split].
  - intros today before line after m Hb Hm.
    destruct (G today before line after m Hb Hm)
      as (d & s1 & mo & s2 & y & Hg & _ & Hd & Hmo & Hy & _ & _ & E).
    exists d, mo, y. repeat (split; [assumption|]). exact E.
  - intros today before line after m Hb Hm Hw.
    destruct (G today before line after m Hb Hm)
      as (d & s1 & mo & s2 & y & _ & Hw' & Hd & Hmo & Hy & Hs1 & Hs2 & E).
    rewrite E. rewrite Hw' in Hw.
    destruct Hw as [Hw|Hw].
    + destruct (groups_of_whole d s1 mo s2 y (lit "05") (lit "13") (lit "24")
                  Hd Hmo Hy Hs1 Hs2) as (-> & -> & ->);
        [repeat split; simpl; lia ..|exact Hw|].
      vm_compute. reflexivity.
    + destruct (groups_of_whole d s1 mo s2 y (lit "13") (lit "05") (lit "24")
                  Hd Hmo Hy Hs1 Hs2) as (-> & -> & ->);
        [repeat split; simpl; lia ..|exact Hw|].
      vm_compute. reflexivity.
  - intros today. rewrite !(proj1 (proj2 (parseLines_fields today _))).
    vm_compute. repeat split; reflexivity.
Qed.

Lemma date_of_first_match_witness :
  Forall (fun l => exec dateRegex l = None) [lit "LIDL"] /\
  exec dateRegex (lit "FECHA: 5/13/24 18:30") = Some dateMatch /\
  isoDate (lit "24") (lit "5") (lit "13") = lit "2024-05-13" /\
  exists day month year,
    groups dateMatch = [day; month; year] /\
    Digits 1 2 day /\ Digits 1 2 month /\ Digits 2 4 year /\
    date (parseLines (lit "2026-11-02") dateLines) =
      if (12 <? Num.digitsVal month)%Z
      then isoDate year day month
      else isoDate year month day.
Proof.
  assert (Hb : Forall (fun l => exec dateRegex l = None) [lit "LIDL"])
    by (repeat constructor).
  assert (Hm : exec dateRegex (lit "FECHA: 5/13/24 18:30") = Some dateMatch)
    by (vm_compute; reflexivity).
  split; [exact Hb|]. split; [exact Hm|]. split; [reflexivity|].
  exact (proj1 date_of_first_match (lit "2026-11-02") [lit "LIDL"]
           (lit "FECHA: 5/13/24 18:30") [] dateMatch Hb Hm).
Defined.

(** ** C6 *)

Lemma eqb_not_ltb a b : Num.eqb a b = true -> Num.ltb a b = false.
Proof.
  unfold Num.eqb, Num.ltb, SFeqb, SFltb.
  destruct (SFcompare a b) as [[]|]; auto; discriminate.
Qed.

Lemma eqb_zero_not_gtb a :
  Num.eqb a (Num.ofZ 0) = true -> Num.gtb a (Num.ofZ 0) = false.
Proof. destruct a as [[]|[]| |[]]; simpl; auto; discriminate. Qed.

(** C6. Every item of the draft has a price above 0 and below 1000
    and a description longer than one unit; a line whose price is
    exactly 0 or exactly 1000 leaves the items and the calculated
    total as they were. *)
Theorem items_within_range :
  (forall today rawText,
     Forall (fun it =>
               Num.gtb (price it) (Num.ofZ 0) = true /\
               Num.ltb (price it) (Num.ofZ 1000) = true /\
               1 < length (description it))
            (items (parse today rawText))) /\
  (forall line st,
     Num.eqb (parsePrice
                (tokenAt (matchAll priceRegex line)
                   (priceIndex (length (matchAll priceRegex line)))))
             (Num.ofZ 0) = true \/
     Num.eqb (parsePrice
                (tokenAt (matchAll priceRegex line)
                   (priceIndex (length (matchAll priceRegex line)))))
             (Num.ofZ 1000) = true ->
     extractItem line = None /\ itemStep st line = st).
Proof.
  split.
  - intros today rawText. unfold parse.
    destruct (parseLines_fields today (splitLines rawText))
      as (_ & _ & -> & _).
    apply (extractItems_inv (splitLines rawText)).
  - intros line st H.
    assert (E : extractItem line = None).
    { unfold extractItem.
      destruct (matchAll priceRegex line) as [|first more]; [reflexivity|].
      cbv zeta.
      destruct H as [H|H].
      - rewrite (eqb_zero_not_gtb _ H), andb_false_r. reflexivity.
      - rewrite (eqb_not_ltb _ _ H), andb_false_r. reflexivity. }
    split; [exact E|]. unfold itemStep. rewrite E.
    destruct (skipped line); reflexivity.
Qed.

Lemma items_within_range_witness :
  Num.eqb (parsePrice
             (tokenAt (matchAll priceRegex line1000)
                (priceIndex (length (matchAll priceRegex line1000)))))
          (Num.ofZ 1000) = true /\
  extractItem line1000 = None /\
  itemStep ([pan], Num.dec 100 2) line1000 = ([pan], Num.dec 100 2).
Proof.
  split; [vm_compute; reflexivity|].
  apply (proj2 items_within_range line1000 ([pan], Num.dec 100 2)).
  right. vm_compute. reflexivity.
Defined.

(** ** C7 *)





(** *** The alias DIA *)









(** ** C8 *)

(** What every draft of [parse] has. *)
Lemma parse_guarantees today rawText :
  merchant (parse today rawText) <> [] /\
  nonneg (total (parse today rawText)) = true /\
  Forall itemOk (items (parse today rawText)).
Proof.
  unfold parse.
  destruct (parseLines_fields today (splitLines rawText))
    as (-> & _ & -> & ->).
  destruct (extractItems_inv (splitLines rawText)) as [Hi Hc].
  split; [|split].
  - apply detectMerchant_nonempty, splitLines_solid.
  - apply sanity_nonneg; auto.
    apply reconcile_nonneg; auto. apply detectTotal_nonneg.
  - exact Hi.
Qed.

(** ** C9 *)

(** C9, at the failing input.  The pattern takes a year of three
    digits, which is neither completed nor refused: the line
    "01/02/202" gives the date "202-02-01". *)
Theorem date_three_digit_year today :
  date (parse today (lit "01/02/202")) = lit "202-02-01" /\
  isIsoDate (date (parse today (lit "01/02/202"))) = false /\
  isIsoDate (date (parse today (lit "01/02/2024"))) = true.
Proof.
  unfold parse.
  rewrite !(proj1 (proj2 (parseLines_fields today _))).
  vm_compute. repeat split; reflexivity.
Qed.

(** Apart from a year of three digits the date is well formed. *)
Lemma isoDate_valid y m d :
  Digits 2 4 y -> length y <> 3 -> Digits 1 2 m -> Digits 1 2 d ->
  isIsoDate (isoDate y m d) = true.
Proof.
  intros [Hy Ly] Ny [Hm Lm] [Hd Ld].
  destruct y as [|y1 [|y2 [|y3 [|y4 [|y5 y]]]]]; simpl in Ly, Ny; try lia;
    destruct m as [|m1 [|m2 [|m3 m]]]; simpl in Lm; try lia;
    destruct d as [|d1 [|d2 [|d3 d]]]; simpl in Ld; try lia;
    cbn [forallb] in Hy, Hm, Hd;
    repeat match goal with
           | H : _ && _ = true |- _ =>
               apply andb_prop in H; destruct H
           end;
    cbv [isoDate isIsoDate zeroPadded length Nat.eqb app
         lit list_ascii_of_string forallb];
    repeat match goal with
           | H : Char.isDigit _ = true |- _ => rewrite H; clear H
           end;
    reflexivity.
Qed.

Lemma detectDate_valid today lines :
  isIsoDate today = true ->
  (forall line m,
     In line lines -> exec dateRegex line = Some m ->
     length (nth 2 (groups m) []) <> 3) ->
  isIsoDate (detectDate lines today) = true.
Proof.
  intros Ht. induction lines as [|l ls IH]; intros H; simpl; auto.
  destruct (exec dateRegex l) as [m|] eqn:E.
  - destruct (dateRegex_shape m (exec_IsMatch _ _ _ E))
      as (d & s1 & mo & s2 & y & Hg & _ & Hd & Hmo & Hy & _).
    pose proof (H l m (or_introl eq_refl) E) as Ny.
    rewrite Hg in *. simpl nth in *.
    rewrite (normalizeDate_isoDate d mo y Hd Hmo).
    destruct (12 <? Num.digitsVal mo)%Z; apply isoDate_valid; auto.
  - apply IH. intros line m Hin. apply H. right. exact Hin.
Qed.

(** ** C10 *)

Lemma priceIndex_lt n : 1 <= n -> priceIndex n < n.
Proof.
  intros H. unfold priceIndex. destruct (2 <=? n) eqn:E.
  - apply Nat.leb_le in E. lia.
  - lia.
Qed.

Lemma tokenAt_token ms i :
  Forall (IsMatch priceRegex) ms -> i < length ms ->
  Token 2 3 (tokenAt ms i).
Proof.
  intros H Hi. unfold tokenAt. apply priceRegex_token.
  rewrite Forall_forall in H. apply H, nth_In, Hi.
Qed.

(** C10. Whatever [parse] hands to [parsePrice] is a price token:
    digits, one of [,] and [.], then two or three digits (two on a
    total line).  On a token the currency and OCR substitutions
    change nothing, the test for both separators fails, and the
    value is that of the numeral with a decimal point in place of
    the separator. *)
Theorem parsePrice_on_tokens :
  (forall line,
     matchAll priceRegex line <> [] ->
     Token 2 3 (tokenAt (matchAll priceRegex line)
                  (priceIndex (length (matchAll priceRegex line)))) /\
     Token 2 3 (tokenAt (matchAll priceRegex line)
                  (length (matchAll priceRegex line) - 1))) /\
  (forall line m,
     exec totalRegex line = Some m ->
     Token 2 2 (nth 0 (groups m) [])) /\
  (forall ip sep fp,
     forallb Char.isDigit ip = true -> 1 <= length ip ->
     isSep sep = true -> forallb Char.isDigit fp = true ->
     Str.trim (Str.removeAll currencyClass (ip ++ sep :: fp))
       = ip ++ sep :: fp /\
     ocrFix (ip ++ sep :: fp) = ip ++ sep :: fp /\
     Str.includesChar (ip ++ sep :: fp) ","
       && Str.includesChar (ip ++ sep :: fp) "." = false /\
     parsePrice (ip ++ sep :: fp) = Num.parseFloat (ip ++ "."%char :: fp) /\
     parsePrice (ip ++ sep :: fp) = decimalValue ip fp).
Proof.
  split; [|split].
  - intros line Hne.
    pose proof (matchAll_sound priceRegex line) as Hs.
    assert (Hl : 1 <= length (matchAll priceRegex line))
      by (destruct (matchAll priceRegex line); [congruence|simpl; lia]).
    split; apply tokenAt_token; auto.
    + apply priceIndex_lt, Hl.
    + lia.
  - intros line m Hm.
    destruct (totalRegex_token m (exec_IsMatch _ _ _ Hm)) as [Ht ->].
    exact Ht.
  - intros ip sep fp Hip Hn Hsep Hfp.
    destruct (parsePrice_token ip sep fp Hip Hn Hsep Hfp)
      as (H1 & H2 & H3 & _ & H5).
    repeat split; auto.
    rewrite H5. symmetry. apply parseFloat_numeral; auto.
Qed.

Lemma parsePrice_on_tokens_witness :
  matchAll priceRegex panLine <> [] /\
  tokenAt (matchAll priceRegex panLine)
    (priceIndex (length (matchAll priceRegex panLine))) = lit "0,50" /\
  Token 2 3 (lit "0,50") /\
  parsePrice (lit "0" ++ ","%char :: lit "50") = decimalValue (lit "0") (lit "50").
Proof.
  assert (Hne : matchAll priceRegex panLine <> [])
    by (vm_compute; discriminate).
  split; [exact Hne|]. split; [vm_compute; reflexivity|]. split.
  - exact (proj1 (proj1 parsePrice_on_tokens panLine Hne)).
  - apply (proj2 (proj2 parsePrice_on_tokens) (lit "0") ","%char (lit "50"));
      vm_compute; auto.
Defined.

End Claims.

(** * More facts on the parser *)

Module PriceNormalForm.

Import NumFacts PriceFacts TokenPrice.

Lemma significant_ocr c : significant c = tokenChar (ocrChar c).
Proof. ascii_cases c; vm_compute; reflexivity. Qed.

Lemma significant_facts c :
  significant c = true ->
  currencyClass c = false /\ Char.isSpace c = false.
Proof.
  ascii_cases c; intros H; vm_compute in H; try discriminate H;
    vm_compute; split; reflexivity.
Qed.

Lemma tokenChar_sep c : isSep c = true -> tokenChar c = true.
Proof. unfold tokenChar. intros ->. apply orb_true_r. Qed.

Lemma digitOrDot_tokenChar c : digitOrDot c = true -> tokenChar c = true.
Proof.
  ascii_cases c; intros H; vm_compute in H; try discriminate H;
    vm_compute; reflexivity.
Qed.

Lemma filter_map_swap (p : ascii -> bool) (g : ascii -> ascii) l :
  filter p (map g l) = map g (filter (fun x => p (g x)) l).
Proof.
  induction l as [|x l IH]; simpl; auto.
  destruct (p (g x)); simpl; rewrite IH; reflexivity.
Qed.

Lemma filter_filter_comm (p q : ascii -> bool) l :
  filter p (filter q l) = filter q (filter p l).
Proof.
  induction l as [|x l IH]; simpl; auto.
  destruct (p x) eqn:P, (q x) eqn:Q; simpl; rewrite ?P, ?Q, IH; reflexivity.
Qed.

Lemma filter_filter_absorb (p q : ascii -> bool) l :
  (forall c, p c = true -> q c = true) ->
  filter p (filter q l) = filter p l.
Proof.
  intros H. induction l as [|x l IH]; simpl; auto.
  destruct (q x) eqn:Q; simpl.
  - destruct (p x); rewrite IH; reflexivity.
  - destruct (p x) eqn:P; [|exact IH].
    rewrite (H x P) in Q. discriminate.
Qed.

Lemma existsb_filter (p q : ascii -> bool) l :
  (forall c, p c = true -> q c = true) ->
  existsb p (filter q l) = existsb p l.
Proof.
  intros H. induction l as [|x l IH]; simpl; auto.
  destruct (q x) eqn:Q; simpl; rewrite IH; auto.
  destruct (p x) eqn:P; auto. rewrite (H x P) in Q. discriminate.
Qed.

Lemma filter_dropWhile (p q : ascii -> bool) l :
  (forall c, q c = true -> p c = false) ->
  filter p (Str.dropWhile q l) = filter p l.
Proof.
  intros H. induction l as [|x l IH]; simpl; auto.
  destruct (q x) eqn:Q; simpl; auto.
  rewrite (H x Q). exact IH.
Qed.

Lemma filter_trim (p : ascii -> bool) l :
  (forall c, Char.isSpace c = true -> p c = false) ->
  filter p (Str.trim l) = filter p l.
Proof.
  intros H. unfold Str.trim, Str.trimEnd, Str.trimStart.
  rewrite filter_rev, (filter_dropWhile p Char.isSpace _ H).
  rewrite filter_rev, rev_involutive.
  apply (filter_dropWhile p Char.isSpace _ H).
Qed.

(** *** The order of the last comma and the last point *)

Lemma sep_cases c :
  (Char.eqb c "," = true /\ Char.eqb c "." = false /\ isSep c = true) \/
  (Char.eqb c "," = false /\ Char.eqb c "." = true /\ isSep c = true) \/
  (Char.eqb c "," = false /\ Char.eqb c "." = false /\ isSep c = false).
Proof. ascii_cases c; vm_compute; tauto. Qed.

Lemma lastIndex_order : forall v i fc fd acc,
  (fc < i)%Z -> (fd < i)%Z -> (fd <? fc)%Z = isComma acc ->
  (Str.lastIndexOfFrom "." v i fd <? Str.lastIndexOfFrom "," v i fc)%Z =
  isComma (fold_left (fun acc c => if isSep c then Some c else acc) v acc).
Proof.
  induction v as [|x v IH]; intros i fc fd acc Hc Hd Hacc; simpl; auto.
  apply IH.
  - destruct (Char.eqb x ","); lia.
  - destruct (Char.eqb x "."); lia.
  - destruct (sep_cases x) as [(E1 & E2 & E3)|[(E1 & E2 & E3)|(E1 & E2 & E3)]];
      rewrite E1, E2, E3; cbn [isComma]; rewrite ?E1.
    + apply Z.ltb_lt; lia.
    + apply Z.ltb_ge; lia.
    + exact Hacc.
Qed.

Lemma lastSep_filter v : lastSep (filter tokenChar v) = lastSep v.
Proof.
  unfold lastSep. generalize (@None ascii).
  induction v as [|x v IH]; intros acc; simpl; auto.
  destruct (tokenChar x) eqn:T; simpl; [apply IH|].
  rewrite IH. destruct (isSep x) eqn:S; auto.
  rewrite (tokenChar_sep x S) in T. discriminate.
Qed.

Lemma lastIndex_lastSep v :
  (Str.lastIndexOf v "." <? Str.lastIndexOf v ",")%Z = isComma (lastSep v).
Proof.
  unfold Str.lastIndexOf, lastSep.
  apply lastIndex_order; try lia. reflexivity.
Qed.

Lemma includesChar_filter v c :
  tokenChar c = true ->
  Str.includesChar (filter tokenChar v) c = Str.includesChar v c.
Proof.
  intros H. unfold Str.includesChar. apply existsb_filter.
  intros x E. apply Ascii.eqb_eq in E. subst x. exact H.
Qed.

Lemma replaceFirst_filter w :
  filter tokenChar (Str.replaceFirst "," (lit ".") w) =
  Str.replaceFirst "," (lit ".") (filter tokenChar w).
Proof.
  induction w as [|c w IH]; [reflexivity|].
  cbn [Str.replaceFirst].
  destruct (Char.eqb c ",") eqn:E.
  - apply Ascii.eqb_eq in E. subst c. reflexivity.
  - cbn [filter]. destruct (tokenChar c); cbn [Str.replaceFirst];
      rewrite ?E, IH; reflexivity.
Qed.

Lemma cleanup_filter w : cleanup (filter tokenChar w) = cleanup w.
Proof.
  unfold cleanup, Str.removeAll. apply filter_filter_absorb.
  intros c H. apply digitOrDot_tokenChar. unfold digitOrDot.
  destruct (Char.isDigit c || Char.eqb c "."); [reflexivity|discriminate].
Qed.

Lemma removeAll_filter (p : ascii -> bool) w :
  Str.removeAll p (filter tokenChar w) = filter tokenChar (Str.removeAll p w).
Proof. unfold Str.removeAll. apply filter_filter_comm. Qed.

(** Units that are neither digits nor separators do not influence
    the resolution of the separators. *)
Lemma resolve_filter v :
  cleanup (resolveSeparators v) =
  cleanup (resolveSeparators (filter tokenChar v)).
Proof.
  unfold resolveSeparators.
  rewrite !includesChar_filter by reflexivity.
  rewrite !lastIndex_lastSep, lastSep_filter.
  destruct (Str.includesChar v "," && Str.includesChar v ".").
  - destruct (isComma (lastSep v)).
    + rewrite removeAll_filter, <- replaceFirst_filter, cleanup_filter.
      reflexivity.
    + rewrite removeAll_filter, cleanup_filter. reflexivity.
  - destruct (Str.includesChar v ",").
    + rewrite <- replaceFirst_filter, cleanup_filter. reflexivity.
    + rewrite cleanup_filter. reflexivity.
Qed.

Lemma ocrFix_filter u :
  ocrFix (filter significant u) = filter tokenChar (ocrFix u).
Proof.
  rewrite !ocrFix_map, filter_map_swap. f_equal.
  apply filter_ext. intros c. apply significant_ocr.
Qed.

Lemma parsePrice_numeral s :
  s <> [] ->
  parsePrice s = Num.orElse (Num.parseFloat (numeral s)) (Num.ofZ 0).
Proof. apply parsePrice_unfold. Qed.

Lemma numeral_significant s :
  numeral s = cleanup (resolveSeparators (ocrFix (filter significant s))).
Proof.
  unfold numeral.
  rewrite resolve_filter, <- ocrFix_filter. do 3 f_equal.
  rewrite filter_trim.
  - unfold Str.removeAll. apply filter_filter_absorb.
    intros c H. apply significant_facts in H. destruct H as [-> _].
    reflexivity.
  - intros c H. destruct (significant c) eqn:S; auto.
    apply significant_facts in S. destruct S as [_ S]. congruence.
Qed.

Lemma numeral_filter s :
  numeral (filter significant s) = numeral s.
Proof.
  rewrite (numeral_significant s), (numeral_significant (filter significant s)).
  do 3 f_equal. apply filter_filter_absorb. auto.
Qed.

Lemma numeral_nil : numeral [] = [].
Proof. reflexivity. Qed.

(** [parsePrice] reads its argument through its significant units
    only. *)
Lemma parsePrice_filter s : parsePrice s = parsePrice (filter significant s).
Proof.
  destruct s as [|c s]; [reflexivity|].
  rewrite (parsePrice_numeral (c :: s)) by discriminate.
  destruct (filter significant (c :: s)) as [|d u] eqn:E.
  - rewrite <- numeral_filter, E. reflexivity.
  - rewrite (parsePrice_numeral (d :: u)) by discriminate.
    rewrite <- E, numeral_filter. reflexivity.
Qed.

End PriceNormalForm.

Module LoopMore.

Import NumFacts RegexSpec RegexFacts ExecFacts TokenFacts PriceFacts
       TokenPrice LoopFacts LineFacts Claims.

(** *** The total loop *)

Lemma fold_totalStep_no_value after : forall d,
  Forall (fun l => isTotalLine l = false \/ exec totalRegex l = None) after ->
  fold_left totalStep after d = d.
Proof.
  induction after as [|l ls IH]; intros d H; simpl; auto.
  inversion H as [|l' ls' Hl Hls]; subst.
  assert (E : totalStep d l = d).
  { unfold totalStep. destruct Hl as [-> | Hl]; [reflexivity|].
    rewrite Hl. destruct (isTotalLine l); reflexivity. }
  rewrite E. apply IH, Hls.
Qed.

Lemma detectTotal_last before line after m :
  isTotalLine line = true -> exec totalRegex line = Some m ->
  Forall (fun l => isTotalLine l = false \/ exec totalRegex l = None) after ->
  detectTotal (before ++ line :: after) = parsePrice (whole m) /\
  Token 2 2 (whole m).
Proof.
  intros Ht Hm Ha.
  destruct (totalRegex_token m (exec_IsMatch _ _ _ Hm)) as [Tk Hg].
  split; [|exact Tk].
  unfold detectTotal. rewrite fold_left_app. simpl.
  rewrite (fold_totalStep_no_value after _ Ha).
  unfold totalStep. rewrite Ht, Hm, Hg. reflexivity.
Qed.

(** *** The item loop *)

Lemma itemStep_itemOf st line :
  fst (itemStep st line) = fst st ++ itemOf line.
Proof.
  unfold itemStep, itemOf. destruct (skipped line).
  - rewrite app_nil_r. reflexivity.
  - destruct (extractItem line) as [[it amt]|]; simpl; auto.
    rewrite app_nil_r. reflexivity.
Qed.

Lemma fold_itemStep_items lines : forall st,
  fst (fold_left itemStep lines st) = fst st ++ flat_map itemOf lines.
Proof.
  induction lines as [|l ls IH]; intros st; simpl.
  - rewrite app_nil_r. reflexivity.
  - rewrite IH, itemStep_itemOf, <- app_assoc. reflexivity.
Qed.

(** The items are what the lines give one by one, in their order. *)
Lemma extractItems_items lines :
  fst (extractItems lines) = flat_map itemOf lines.
Proof. unfold extractItems. rewrite fold_itemStep_items. reflexivity. Qed.

Lemma itemOf_length line : length (itemOf line) <= 1.
Proof.
  unfold itemOf. destruct (skipped line); simpl; auto.
  destruct (extractItem line) as [[it amt]|]; simpl; auto.
Qed.

Lemma flat_map_itemOf_length lines :
  length (flat_map itemOf lines) <= length lines.
Proof.
  induction lines as [|l ls IH]; simpl; auto.
  rewrite length_app. pose proof (itemOf_length l). lia.
Qed.

Lemma itemStep_no_item st line : itemOf line = [] -> itemStep st line = st.
Proof.
  unfold itemStep, itemOf. destruct (skipped line); auto.
  destruct (extractItem line) as [[it amt]|]; auto. discriminate.
Qed.

Lemma extractItems_no_item lines :
  flat_map itemOf lines = [] -> extractItems lines = ([], Num.ofZ 0).
Proof.
  unfold extractItems. generalize (@nil LineItem, Num.ofZ 0).
  induction lines as [|l ls IH]; intros st H; simpl in *; auto.
  apply app_eq_nil in H. destruct H as [H1 H2].
  rewrite (itemStep_no_item st l H1). apply IH, H2.
Qed.

(** *** Lines *)

Lemma split_nonempty sep s : Str.split sep s <> [].
Proof.
  destruct s as [|c s]; simpl; [discriminate|].
  destruct (Char.eqb c sep); [discriminate|].
  destruct (Str.split sep s); discriminate.
Qed.

Lemma split_app sep a b :
  Str.split sep (a ++ sep :: b) = Str.split sep a ++ Str.split sep b.
Proof.
  induction a as [|c a IH]; simpl.
  - unfold Char.eqb. rewrite Ascii.eqb_refl. reflexivity.
  - destruct (Char.eqb c sep); rewrite IH; [reflexivity|].
    pose proof (split_nonempty sep a) as N.
    destruct (Str.split sep a); [congruence|reflexivity].
Qed.

Lemma splitLines_app a b :
  splitLines (a ++ LF :: b) = splitLines a ++ splitLines b.
Proof.
  unfold splitLines. rewrite split_app, map_app, filter_app. reflexivity.
Qed.

Lemma trim_idempotent s : Str.trim (Str.trim s) = Str.trim s.
Proof.
  destruct (Str.trim s) as [|c t] eqn:E; [reflexivity|].
  assert (Hs : solid (Str.trim s)) by (apply trim_solid; congruence).
  rewrite E in Hs. simpl in Hs.
  assert (Hl : exists z d, rev (c :: t) = d :: z /\ Char.isSpace d = false).
  { unfold Str.trim, Str.trimEnd in E.
    destruct (Str.dropWhile Char.isSpace (rev (Str.trimStart s)))
      as [|d z] eqn:D.
    - discriminate.
    - exists z, d. split.
      + rewrite <- E, rev_involutive. reflexivity.
      + exact (dropWhile_stops _ _ _ _ D). }
  destruct Hl as (z & d & Hr & Hd).
  unfold Str.trim, Str.trimStart, Str.trimEnd.
  rewrite (dropWhile_head _ _ _ Hs), Hr, (dropWhile_head _ _ _ Hd), <- Hr.
  apply rev_involutive.
Qed.

Lemma splitLines_trimmed rawText :
  Forall (fun l => l <> [] /\ Str.trim l = l) (splitLines rawText).
Proof.
  unfold splitLines. apply Forall_forall. intros l Hl.
  apply filter_In in Hl. destruct Hl as [Hl Hn].
  apply in_map_iff in Hl. destruct Hl as (x & <- & _).
  split; [|apply trim_idempotent].
  destruct (Str.trim x); [discriminate|discriminate].
Qed.

End LoopMore.

Module TotalMore.

Import NumFacts PriceFacts TokenPrice LoopFacts LineFacts Claims LoopMore.

Lemma nonneg_nonzero_positive x :
  nonneg x = true -> Num.eqb x (Num.ofZ 0) = false ->
  Num.gtb x (Num.ofZ 0) = true.
Proof. destruct x as [[]|[]| |[] m e]; simpl; auto; discriminate. Qed.

Lemma positive_nonzero x :
  Num.gtb x (Num.ofZ 0) = true -> Num.eqb x (Num.ofZ 0) = false.
Proof. destruct x as [[]|[]| |[] m e]; simpl; auto; discriminate. Qed.

Lemma max2_positive a b :
  Num.gtb a (Num.ofZ 0) = true \/ a = S754_infinity true ->
  Num.gtb b (Num.ofZ 0) = true ->
  Num.gtb (Num.max2 a b) (Num.ofZ 0) = true.
Proof.
  intros Ha Hb. unfold Num.max2.
  assert (Hinf : a = S754_infinity true -> SFcompare a b = Some Lt).
  { intros ->. destruct b as [[]|[]| |[]]; try reflexivity;
      vm_compute in Hb; discriminate Hb. }
  destruct (SFcompare a b) as [[]|] eqn:E.
  - destruct Ha as [Ha|Ha]; [|discriminate (Hinf Ha)].
    destruct a as [[]|[]| |[]]; try exact Ha; vm_compute in Ha; discriminate Ha.
  - exact Hb.
  - destruct Ha as [Ha|Ha]; [exact Ha|].
    discriminate (Hinf Ha).
  - destruct Ha as [Ha|Ha]; [|discriminate (Hinf Ha)].
    destruct a as [[]|[]| |[]], b as [[]|[]| |[]];
      vm_compute in Ha, Hb; try discriminate Ha; try discriminate Hb;
      discriminate E.
Qed.

Lemma fold_max2_positive l : forall a,
  Num.gtb a (Num.ofZ 0) = true \/ a = S754_infinity true ->
  l <> [] \/ Num.gtb a (Num.ofZ 0) = true ->
  Forall (fun p => Num.gtb p (Num.ofZ 0) = true) l ->
  Num.gtb (fold_left Num.max2 l a) (Num.ofZ 0) = true.
Proof.
  induction l as [|p l IH]; intros a Ha Hne Hl; simpl.
  - destruct Hne as [Hne|Hne]; [congruence|exact Hne].
  - inversion Hl; subst. apply IH; auto.
    + left. apply max2_positive; auto.
    + right. apply max2_positive; auto.
Qed.

Lemma max_positive l :
  l <> [] -> Forall (fun p => Num.gtb p (Num.ofZ 0) = true) l ->
  Num.gtb (Num.max l) (Num.ofZ 0) = true.
Proof.
  intros Hne Hl. unfold Num.max. apply fold_max2_positive; auto.
Qed.

Lemma prices_positive its :
  Forall itemOk its ->
  Forall (fun p => Num.gtb p (Num.ofZ 0) = true) (map price its).
Proof.
  intros H. apply Forall_map. eapply Forall_impl; [|exact H].
  intros it (Hp & _). exact Hp.
Qed.

Lemma sanity_positive t its :
  nonneg t = true -> Forall itemOk its -> its <> [] ->
  Num.gtb (sanity t its) (Num.ofZ 0) = true.
Proof.
  intros Ht Hi Hne. unfold sanity.
  destruct (Num.eqb t (Num.ofZ 0)) eqn:E.
  - destruct its as [|it its]; [congruence|]. simpl andb. cbv iota.
    apply max_positive; [discriminate|apply prices_positive, Hi].
  - simpl. apply nonneg_nonzero_positive; auto.
Qed.

(** *** Order *)

Lemma compare_refl x : nonneg x = true -> SFcompare x x = Some Eq.
Proof.
  destruct x as [[]|[]| |[] m e]; simpl; intros H; try discriminate; auto.
  rewrite Z.compare_refl, Pos.compare_cont_refl. reflexivity.
Qed.

Lemma leb_refl x : nonneg x = true -> leb x x = true.
Proof.
  intros H. unfold leb, SFleb. rewrite (compare_refl x H). reflexivity.
Qed.

Lemma compare_nonneg a b :
  nonneg a = true -> nonneg b = true -> SFcompare a b <> None.
Proof.
  destruct a as [[]|[]| |[]], b as [[]|[]| |[]]; simpl; intros; congruence.
Qed.

Lemma leb_max2 a b :
  nonneg a = true -> nonneg b = true -> leb a (Num.max2 a b) = true.
Proof.
  intros Ha Hb. unfold Num.max2.
  destruct (SFcompare a b) as [[]|] eqn:E.
  - destruct a as [[]| | |]; try (apply leb_refl; assumption).
    discriminate.
  - unfold leb, SFleb. rewrite E. reflexivity.
  - apply leb_refl, Ha.
  - exfalso. exact (compare_nonneg a b Ha Hb E).
Qed.

Lemma leb_reconcile d calc :
  nonneg d = true -> nonneg calc = true -> leb d (reconcile d calc) = true.
Proof.
  intros Hd Hc. unfold reconcile.
  destruct (_ || _).
  - apply leb_max2; auto using rounded_nonneg.
  - apply leb_refl, Hd.
Qed.

Lemma leb_zero_positive x y :
  Num.eqb x (Num.ofZ 0) = true -> nonneg x = true ->
  Num.gtb y (Num.ofZ 0) = true -> leb x y = true.
Proof.
  destruct x as [[]|[]| |[]], y as [[]|[]| |[]]; simpl; auto; discriminate.
Qed.

Lemma eqb_zero_leb d t :
  nonneg d = true -> nonneg t = true ->
  leb d t = true -> Num.eqb t (Num.ofZ 0) = true ->
  Num.eqb d (Num.ofZ 0) = true.
Proof.
  destruct d as [[]|[]| |[]], t as [[]|[]| |[]]; simpl; auto; discriminate.
Qed.

Lemma leb_sanity d t its :
  nonneg d = true -> nonneg t = true -> leb d t = true ->
  Forall itemOk its -> leb d (sanity t its) = true.
Proof.
  intros Hd Ht Hle Hi. unfold sanity.
  destruct (Num.eqb t (Num.ofZ 0)) eqn:E; [|exact Hle].
  destruct its as [|it its]; [exact Hle|]. simpl andb. cbv iota.
  apply leb_zero_positive; auto.
  - apply (eqb_zero_leb d t); auto.
  - apply max_positive; [discriminate|apply prices_positive, Hi].
Qed.

Lemma reconcile_no_items d :
  nonneg d = true -> reconcile d (Num.ofZ 0) = d.
Proof.
  intros Hd. unfold reconcile.
  replace (Num.gtb (Num.ofZ 0) (Num.ofZ 0)) with false by reflexivity.
  cbn [andb]. rewrite orb_false_r.
  destruct (Num.eqb d (Num.ofZ 0)) eqn:E; [|reflexivity].
  replace (rounded (Num.ofZ 0)) with Num.zero by (vm_compute; reflexivity).
  destruct d as [[]|[]| |[]]; simpl in *; try discriminate; reflexivity.
Qed.

End TotalMore.

Module EdgeMore.

Import NumFacts RegexSpec RegexFacts ExecFacts TokenFacts PriceFacts
       TokenPrice LoopFacts DateFacts MerchantFacts LineFacts Claims
       LoopMore TotalMore.

(** *** The fall-back on the first lines *)

Lemma firstn_min {A} (l : list A) n :
  firstn (Nat.min (length l) n) l = firstn n l.
Proof.
  destruct (Nat.le_ge_cases (length l) n) as [H|H].
  - rewrite Nat.min_l by exact H.
    rewrite firstn_all, firstn_all2 by exact H. reflexivity.
  - rewrite Nat.min_r by exact H. reflexivity.
Qed.

Lemma find_none_all {A} (f : A -> bool) l :
  Forall (fun x => f x = false) l -> find f l = None.
Proof.
  induction 1 as [|x l Hx _ IH]; simpl; auto. rewrite Hx. exact IH.
Qed.

Lemma knownMerchant_none text :
  Forall (fun e => aliasMatches text e = false) establishments ->
  knownMerchant text = unknownMerchant.
Proof.
  intros H. unfold knownMerchant. rewrite (find_none_all _ _ H). reflexivity.
Qed.

Lemma firstHeader_first before l after fb :
  Forall (fun x => headerCandidate (Str.toUpperCase x) = false) before ->
  headerCandidate (Str.toUpperCase l) = true ->
  firstHeader (before ++ l :: after) fb = Str.trim (Str.toUpperCase l).
Proof.
  intros Hb Hl. induction Hb as [|x before Hx _ IH]; simpl.
  - rewrite Hl. reflexivity.
  - rewrite Hx. exact IH.
Qed.

Lemma firstHeader_none ls fb :
  Forall (fun x => headerCandidate (Str.toUpperCase x) = false) ls ->
  firstHeader ls fb = fb.
Proof.
  induction 1 as [|x ls Hx _ IH]; simpl; auto. rewrite Hx. exact IH.
Qed.

Lemma detectMerchant_fallback lines :
  Forall (fun e => aliasMatches (fullTextOf lines) e = false) establishments ->
  detectMerchant lines = firstHeader (firstn 12 lines) unknownMerchant.
Proof.
  intros H. unfold detectMerchant.
  fold (fullTextOf lines). rewrite (knownMerchant_none _ H).
  replace (Str.eqb unknownMerchant unknownMerchant) with true by reflexivity.
  rewrite firstn_min. reflexivity.
Qed.

(** *** Texts without a digit *)

Lemma digits_exist ip :
  forallb Char.isDigit ip = true -> 1 <= length ip ->
  existsb Char.isDigit ip = true.
Proof.
  destruct ip as [|c ip]; simpl; [lia|].
  intros H _. apply andb_prop in H. destruct H as [-> _]. reflexivity.
Qed.

Lemma token_needsDigit hi :
  needsDigit
    (Grp (seq [digits 1 None; Chr (oneOf ".,"); digits 2 (Some hi)])).
Proof.
  intros prev w rest caps caps' M.
  apply tokenRegex_shape in M. destruct M as [(ip & sep & fp & -> & Hip & Hn & _) _].
  rewrite existsb_app, (digits_exist ip Hip Hn). reflexivity.
Qed.

Lemma dateRegex_needsDigit : needsDigit dateRegex.
Proof.
  intros prev w rest caps caps' M.
  apply dateRegex_matches in M.
  destruct M as (d & s1 & mo & s2 & y & _ & -> & [Hd Hn] & _).
  rewrite existsb_app, (digits_exist d Hd (proj1 Hn)). reflexivity.
Qed.

Lemma matchHere_noDigit r prev s :
  needsDigit r -> existsb Char.isDigit s = false ->
  matchHere r prev s = None.
Proof.
  intros Hr Hs. destruct (matchHere r prev s) as [m|] eqn:E; auto.
  apply matchHere_sound in E. destruct E as (w & E & M).
  apply Hr in M. rewrite E, existsb_app, M in Hs. discriminate.
Qed.

Lemma execFrom_noDigit r : forall s prev i,
  needsDigit r -> existsb Char.isDigit s = false ->
  execFrom r prev s i = None.
Proof.
  induction s as [|c s IH]; intros prev i Hr Hs; simpl;
    rewrite (matchHere_noDigit r prev _ Hr Hs); auto.
  simpl in Hs. apply orb_false_elim in Hs. apply IH; tauto.
Qed.

Lemma matchAllFrom_noDigit r : forall s prev i,
  needsDigit r -> existsb Char.isDigit s = false ->
  matchAllFrom r prev s i 0 = [].
Proof.
  induction s as [|c s IH]; intros prev i Hr Hs; simpl;
    rewrite (matchHere_noDigit r prev _ Hr Hs); auto.
  simpl in Hs. apply orb_false_elim in Hs. apply IH; tauto.
Qed.

Lemma In_dropWhile (p : ascii -> bool) c s :
  In c (Str.dropWhile p s) -> In c s.
Proof.
  induction s as [|x s IH]; simpl; auto.
  destruct (p x); auto.
Qed.

Lemma In_trim c s : In c (Str.trim s) -> In c s.
Proof.
  unfold Str.trim, Str.trimEnd, Str.trimStart. intros H.
  apply in_rev, In_dropWhile, in_rev, In_dropWhile in H. exact H.
Qed.

Lemma In_split sep c : forall s p,
  In p (Str.split sep s) -> In c p -> In c s.
Proof.
  induction s as [|x s IH]; simpl; intros p Hp Hc.
  - destruct Hp as [<-|[]]. exact Hc.
  - destruct (Char.eqb x sep).
    + destruct Hp as [<-|Hp]; [destruct Hc|]. right. eapply IH; eauto.
    + destruct (Str.split sep s) as [|cur more] eqn:E.
      * destruct Hp as [<-|[]]. destruct Hc as [<-|[]]. left; reflexivity.
      * destruct Hp as [<-|Hp].
        -- destruct Hc as [<-|Hc]; [left; reflexivity|].
           right. apply (IH cur); [left; reflexivity|exact Hc].
        -- right. apply (IH p); [right; exact Hp|exact Hc].
Qed.

Lemma In_splitLines c l rawText :
  In l (splitLines rawText) -> In c l -> In c rawText.
Proof.
  unfold splitLines. intros Hl Hc.
  apply filter_In in Hl. destruct Hl as [Hl _].
  apply in_map_iff in Hl. destruct Hl as (x & <- & Hx).
  apply In_trim in Hc. eapply In_split; eauto.
Qed.

Lemma existsb_false_In (p : ascii -> bool) s :
  existsb p s = false <-> (forall c, In c s -> p c = false).
Proof.
  split.
  - intros H c Hc. destruct (p c) eqn:E; auto.
    assert (existsb p s = true) by (apply existsb_exists; eauto).
    congruence.
  - intros H. destruct (existsb p s) eqn:E; auto.
    apply existsb_exists in E. destruct E as (c & Hc & Pc).
    rewrite (H c Hc) in Pc. discriminate.
Qed.

Lemma splitLines_noDigit rawText :
  existsb Char.isDigit rawText = false ->
  Forall (fun l => existsb Char.isDigit l = false) (splitLines rawText).
Proof.
  intros H. apply Forall_forall. intros l Hl.
  apply existsb_false_In. intros c Hc.
  rewrite existsb_false_In in H. apply H.
  eapply In_splitLines; eauto.
Qed.

Lemma itemOf_noDigit l : existsb Char.isDigit l = false -> itemOf l = [].
Proof.
  intros H. unfold itemOf, extractItem, matchAll.
  rewrite (matchAllFrom_noDigit priceRegex l None 0 (token_needsDigit 3) H).
  destruct (skipped l); reflexivity.
Qed.

Lemma detectDate_none today lines :
  Forall (fun l => exec dateRegex l = None) lines ->
  detectDate lines today = today.
Proof.
  induction 1 as [|l ls Hl _ IH]; simpl; auto. rewrite Hl. exact IH.
Qed.

(** *** Texts of white space *)

Lemma dropWhile_all (p : ascii -> bool) s :
  forallb p s = true -> Str.dropWhile p s = [].
Proof.
  induction s as [|c s IH]; simpl; auto.
  intros H. apply andb_prop in H. destruct H as [-> H]. auto.
Qed.

Lemma trim_blank s : forallb Char.isSpace s = true -> Str.trim s = [].
Proof.
  intros H. unfold Str.trim, Str.trimStart, Str.trimEnd.
  rewrite (dropWhile_all _ _ H). reflexivity.
Qed.

Lemma splitLines_blank rawText :
  forallb Char.isSpace rawText = true -> splitLines rawText = [].
Proof.
  intros H. unfold splitLines.
  assert (P : Forall (fun p => forallb Char.isSpace p = true)
                     (Str.split LF rawText)).
  { apply Forall_forall. intros p Hp. apply forallb_forall. intros c Hc.
    rewrite forallb_forall in H. apply H. eapply In_split; eauto. }
  induction P as [|p ps Hp _ IH]; simpl; auto.
  rewrite (trim_blank p Hp). simpl. exact IH.
Qed.

End EdgeMore.

(** * The categorizer and the store *)

Module CategoryFacts.

Import MerchantFacts.

Lemma Str_eqb_eq a : forall b, Str.eqb a b = true <-> a = b.
Proof.
  induction a as [|x a IH]; intros [|y b]; simpl; split; intros H;
    try discriminate; auto.
  - apply andb_prop in H. destruct H as [Hx H].
    apply Ascii.eqb_eq in Hx. apply IH in H. congruence.
  - inversion H; subst. unfold Char.eqb. rewrite Ascii.eqb_refl.
    apply IH. reflexivity.
Qed.

Lemma startsWith_spec k : forall s,
  Str.startsWith k s = true <-> exists post, s = k ++ post.
Proof.
  induction k as [|x k IH]; intros s; simpl.
  - split; eauto.
  - destruct s as [|y s].
    + split; [discriminate|]. intros (post & E). discriminate.
    + split.
      * intros H. apply andb_prop in H. destruct H as [Hx H].
        apply Ascii.eqb_eq in Hx. apply IH in H. destruct H as (post & ->).
        exists post. congruence.
      * intros (post & E). inversion E; subst.
        unfold Char.eqb. rewrite Ascii.eqb_refl. apply IH. eauto.
Qed.

(** [s.includes(k)] holds exactly when [k] occurs in [s]. *)
Lemma includes_spec k : forall s,
  Str.includes s k = true <-> exists pre post, s = pre ++ k ++ post.
Proof.
  induction s as [|c s IH]; simpl.
  - rewrite orb_false_r, startsWith_spec. split.
    + intros (post & E). exists [], post. exact E.
    + intros (pre & post & E). destruct pre; [eauto|discriminate].
  - split.
    + intros H. apply orb_prop in H. destruct H as [H|H].
      * apply startsWith_spec in H. destruct H as (post & E).
        exists [], post. exact E.
      * apply IH in H. destruct H as (pre & post & ->).
        exists (c :: pre), post. reflexivity.
    + intros (pre & post & E). apply orb_true_intro.
      destruct pre as [|x pre].
      * left. apply startsWith_spec. eauto.
      * right. apply IH. inversion E; subst. eauto.
Qed.

Lemma includes_trans s k k' :
  Str.includes s k = true -> Str.includes k k' = true ->
  Str.includes s k' = true.
Proof.
  rewrite !includes_spec.
  intros (pre & post & ->) (pre' & post' & ->).
  exists (pre ++ pre'), (post' ++ post). rewrite <- !app_assoc. reflexivity.
Qed.

Lemma includes_nonempty s k :
  k <> [] -> Str.includes s k = true -> s <> [].
Proof.
  intros Hk H. apply includes_spec in H. destruct H as (pre & post & ->).
  destruct pre; [destruct k; [congruence|discriminate]|discriminate].
Qed.

Lemma toLowerCase_nil d : Latin1.toLowerCase d = [] <-> d = [].
Proof. destruct d; simpl; split; intros H; try reflexivity; discriminate H. Qed.

Lemma categorize_unfold d :
  d <> [] ->
  Categorizer.categorize d =
  if Str.includes (Latin1.toLowerCase d) (lit "papel higienico")
  then lit "Higiene"
  else if Str.includes (Latin1.toLowerCase d) (lit "papel cocina")
  then lit "Limpieza y Hogar"
  else match find (Categorizer.mentions (Latin1.toLowerCase d))
               Categorizer.categories with
       | Some e => fst e
       | None => lit "Otros"
       end.
Proof. destruct d; [congruence|reflexivity]. Qed.

Lemma names_in_getCategories x :
  In x (lit "Otros" :: lit "Higiene" :: lit "Limpieza y Hogar"
          :: map fst Categorizer.categories) ->
  In x Categorizer.getCategories.
Proof.
  intros H.
  assert (K : forallb (fun n => existsb (Str.eqb n) Categorizer.getCategories)
                (lit "Otros" :: lit "Higiene" :: lit "Limpieza y Hogar"
                   :: map fst Categorizer.categories) = true)
    by (vm_compute; reflexivity).
  rewrite forallb_forall in K. apply K in H.
  apply existsb_exists in H. destruct H as (y & Hy & E).
  apply Str_eqb_eq in E. subst y. exact Hy.
Qed.

(** [categorize] answers a label of [getCategories()]. *)
Lemma categorize_closed d :
  In (Categorizer.categorize d) Categorizer.getCategories.
Proof.
  apply names_in_getCategories.
  destruct d as [|c d]; [left; reflexivity|].
  rewrite categorize_unfold by discriminate.
  destruct (Str.includes _ (lit "papel higienico")).
  { right; left; reflexivity. }
  destruct (Str.includes _ (lit "papel cocina")).
  { right; right; left; reflexivity. }
  destruct (find _ Categorizer.categories) as [e|] eqn:E.
  - do 3 right. apply in_map. apply find_some in E. tauto.
  - left; reflexivity.
Qed.

Lemma categorize_lower d d' :
  Latin1.toLowerCase d = Latin1.toLowerCase d' ->
  Categorizer.categorize d = Categorizer.categorize d'.
Proof.
  intros E. destruct d as [|c d], d' as [|c' d']; try discriminate;
    [reflexivity|].
  rewrite !categorize_unfold by discriminate. rewrite E. reflexivity.
Qed.

End CategoryFacts.

Module StoreFacts.

Import CategoryFacts.

Lemma Str_eqb_refl a : Str.eqb a a = true.
Proof. apply Str_eqb_eq. reflexivity. Qed.

Lemma reclassifyItem_unchanged item item' :
  Storage.reclassifyItem item = (item', false) -> item' = item.
Proof.
  unfold Storage.reclassifyItem.
  destruct (description item); [congruence|].
  destruct (negb _); congruence.
Qed.

Lemma reclassifyItem_again item :
  Storage.reclassifyItem (fst (Storage.reclassifyItem item)) =
  (fst (Storage.reclassifyItem item), false).
Proof.
  destruct item as [d p c]. unfold Storage.reclassifyItem.
  cbn [description price category].
  destruct d as [|x d]; [reflexivity|].
  set (newCat := Categorizer.categorize (x :: d)).
  destruct (Str.eqb newCat c) eqn:E; cbn [negb fst description category].
  - fold newCat. rewrite E. reflexivity.
  - fold newCat. rewrite Str_eqb_refl. reflexivity.
Qed.

Lemma items_unchanged l :
  existsb snd (map Storage.reclassifyItem l) = false ->
  map fst (map Storage.reclassifyItem l) = l.
Proof.
  induction l as [|it l IH]; simpl; auto.
  intros H. apply orb_false_elim in H. destruct H as [H1 H2].
  rewrite (IH H2). f_equal.
  destruct (Storage.reclassifyItem it) as [it' b] eqn:E. simpl in *. subst b.
  apply reclassifyItem_unchanged, E.
Qed.

Lemma items_again l :
  map Storage.reclassifyItem (map fst (map Storage.reclassifyItem l)) =
  map (fun it => (fst (Storage.reclassifyItem it), false)) l.
Proof.
  rewrite !map_map. apply map_ext. intros it. apply reclassifyItem_again.
Qed.

Lemma existsb_all_false {A} (f : A -> LineItem) (l : list A) :
  existsb snd (map (fun x => (f x, false)) l) = false.
Proof. induction l; simpl; auto. Qed.

Lemma reclassifyTicket_unchanged t :
  snd (Storage.reclassifyTicket t) = false ->
  fst (Storage.reclassifyTicket t) = t.
Proof.
  unfold Storage.reclassifyTicket. simpl. intros H.
  rewrite (items_unchanged _ H).
  destruct t as [i ts [m d tot its]]. reflexivity.
Qed.

Lemma reclassifyTicket_again t :
  Storage.reclassifyTicket (fst (Storage.reclassifyTicket t)) =
  (fst (Storage.reclassifyTicket t), false).
Proof.
  unfold Storage.reclassifyTicket. simpl.
  rewrite items_again, !map_map. simpl.
  rewrite (existsb_all_false (fun it => fst (Storage.reclassifyItem it))).
  reflexivity.
Qed.

Lemma tickets_unchanged l :
  existsb snd (map Storage.reclassifyTicket l) = false ->
  map fst (map Storage.reclassifyTicket l) = l.
Proof.
  induction l as [|t l IH]; simpl; auto.
  intros H. apply orb_false_elim in H. destruct H as [H1 H2].
  rewrite (IH H2). f_equal. apply reclassifyTicket_unchanged, H1.
Qed.

Lemma tickets_again l :
  map Storage.reclassifyTicket (map fst (map Storage.reclassifyTicket l)) =
  map (fun t => (fst (Storage.reclassifyTicket t), false)) l.
Proof.
  rewrite !map_map. apply map_ext. intros t. apply reclassifyTicket_again.
Qed.

Lemma existsb_tickets_false {A} (f : A -> Ticket) (l : list A) :
  existsb snd (map (fun x => (f x, false)) l) = false.
Proof. induction l; simpl; auto. Qed.

Lemma cache_reclassifyAll st :
  cache (Storage.reclassifyAll st) =
  map fst (map Storage.reclassifyTicket (cache st)).
Proof.
  unfold Storage.reclassifyAll. destruct (existsb _ _); reflexivity.
Qed.

End StoreFacts.

Module PriceZero.

Import NumFacts PriceFacts TokenPrice PriceNormalForm.

Lemma In_replaceFirst c w :
  In c (Str.replaceFirst "," (lit ".") w) -> In c w \/ c = "."%char.
Proof.
  induction w as [|x w IH]; simpl; auto.
  destruct (Char.eqb x ","); simpl.
  - intros [<-|H]; auto.
  - intros [<-|H]; auto. destruct (IH H); auto.
Qed.

Lemma In_removeAll (p : ascii -> bool) c w :
  In c (Str.removeAll p w) -> In c w.
Proof. unfold Str.removeAll. intros H. apply filter_In in H. tauto. Qed.

Lemma In_resolveSeparators c v :
  In c (resolveSeparators v) -> In c v \/ c = "."%char.
Proof.
  unfold resolveSeparators.
  destruct (_ && _); [destruct (_ <? _)%Z|destruct (Str.includesChar v ",")];
    intros H; auto.
  - apply In_replaceFirst in H. destruct H as [H|H]; auto.
    left. eapply In_removeAll, H.
  - left. eapply In_removeAll, H.
  - apply In_replaceFirst in H. exact H.
Qed.

Lemma parseFloat_points n :
  forallb (fun c => Char.eqb c ".") n = true ->
  Num.parseFloat n = Num.NaN.
Proof.
  destruct n as [|c n]; [reflexivity|].
  cbn [forallb]. intros H. apply andb_prop in H. destruct H as [Hc H].
  apply Ascii.eqb_eq in Hc. subst c.
  destruct n as [|d n]; [reflexivity|].
  cbn [forallb] in H. apply andb_prop in H. destruct H as [Hd _].
  apply Ascii.eqb_eq in Hd. subst d. reflexivity.
Qed.

Lemma numeral_points s :
  existsb Char.isDigit (ocrFix s) = false ->
  forallb (fun c => Char.eqb c ".") (numeral s) = true.
Proof.
  intros H. apply forallb_forall. intros c Hc.
  rewrite numeral_significant in Hc.
  unfold cleanup, Str.removeAll in Hc. apply filter_In in Hc.
  destruct Hc as [Hc Hk].
  apply In_resolveSeparators in Hc. destruct Hc as [Hc| ->]; [|reflexivity].
  rewrite ocrFix_filter in Hc. apply filter_In in Hc. destruct Hc as [Hc _].
  assert (Hd : Char.isDigit c = false).
  { destruct (Char.isDigit c) eqn:D; auto.
    assert (existsb Char.isDigit (ocrFix s) = true)
      by (apply existsb_exists; eauto).
    congruence. }
  rewrite Hd in Hk. simpl in Hk.
  destruct (Char.eqb c "."); [reflexivity|discriminate].
Qed.

Lemma parsePrice_no_digit s :
  existsb Char.isDigit (ocrFix s) = false -> parsePrice s = Num.ofZ 0.
Proof.
  intros H. destruct s as [|c s]; [reflexivity|].
  rewrite parsePrice_numeral by discriminate.
  rewrite (parseFloat_points _ (numeral_points _ H)). reflexivity.
Qed.

End PriceZero.

Module CaseFacts.

Import PriceFacts CategoryFacts.

Lemma lower_upper c :
  (Char.code c =? 223) = false ->
  Latin1.toLowerCase (Char.upper c) = [Latin1.lower c].
Proof.
  ascii_cases c; intros H; vm_compute in H; try discriminate H;
    vm_compute; reflexivity.
Qed.

Lemma toLowerCase_toUpperCase d :
  existsb (fun c => Char.code c =? 223) d = false ->
  Latin1.toLowerCase (Str.toUpperCase d) = Latin1.toLowerCase d.
Proof.
  induction d as [|c d IH]; [reflexivity|].
  cbn [existsb]. intros H. apply orb_false_elim in H. destruct H as [Hc H].
  unfold Str.toUpperCase, Latin1.toLowerCase in *.
  cbn [flat_map map]. rewrite map_app.
  rewrite IH by exact H.
  change (map Latin1.lower (Char.upper c))
    with (Latin1.toLowerCase (Char.upper c)).
  rewrite (lower_upper c Hc). reflexivity.
Qed.

Lemma find_prefix {A} (f : A -> bool) before e after :
  f e = true ->
  exists x, find f (before ++ e :: after) = Some x /\
            In x (before ++ [e]).
Proof.
  intros He. induction before as [|b before IH]; simpl.
  - rewrite He. eauto.
  - destruct (f b); [eauto|].
    destruct IH as (x & -> & Hx). eauto.
Qed.

End CaseFacts.

(** * Further properties of the parser *)

Module Further.

Import NumFacts RegexSpec RegexFacts ExecFacts TokenFacts PriceFacts
       TokenPrice LoopFacts DateFacts MerchantFacts LineFacts Claims
       PriceNormalForm LoopMore TotalMore EdgeMore PriceZero.

Lemma items_flat_map today rawText :
  items (parse today rawText) = flat_map itemOf (splitLines rawText).
Proof.
  unfold parse.
  destruct (parseLines_fields today (splitLines rawText))
    as (_ & _ & -> & _).
  apply extractItems_items.
Qed.

Lemma total_fields today rawText :
  total (parse today rawText) =
  sanity (reconcile (detectTotal (splitLines rawText))
                    (snd (extractItems (splitLines rawText))))
         (fst (extractItems (splitLines rawText))).
Proof.
  unfold parse.
  destruct (parseLines_fields today (splitLines rawText))
    as (_ & _ & _ & ->).
  reflexivity.
Qed.

Lemma extractItem_description line it amt :
  extractItem line = Some (it, amt) ->
  exists i, description it = describe line i.
Proof.
  unfold extractItem.
  destruct (matchAll priceRegex line) as [|first ms]; [discriminate|].
  cbv zeta.
  destruct (_ && _); [|discriminate].
  intros H. injection H as <- _. eexists. reflexivity.
Qed.

Lemma describe_trimmed line i :
  Str.trim (describe line i) = describe line i.
Proof. unfold describe. apply trim_idempotent. Qed.

Lemma noDigit_no_match r l :
  needsDigit r -> existsb Char.isDigit l = false -> exec r l = None.
Proof. intros N H. unfold exec. apply execFrom_noDigit; assumption. Qed.

Lemma total_without_items today rawText :
  items (parse today rawText) = [] ->
  total (parse today rawText) = detectTotal (splitLines rawText).
Proof.
  intros He. rewrite total_fields. rewrite items_flat_map in He.
  rewrite (extractItems_no_item _ He). cbn [fst snd].
  rewrite (reconcile_no_items _ (detectTotal_nonneg (splitLines rawText))).
  unfold sanity. cbn [length Nat.ltb Nat.leb].
  rewrite andb_false_r. reflexivity.
Qed.

(** X1.  [parsePrice] returns, for every string, a Number that is
    neither NaN nor negative; it returns 0 when the string holds no
    digit after the replacement of the misread letters. *)
Theorem parsePrice_range :
  (forall priceStr, nonneg (parsePrice priceStr) = true) /\
  (forall priceStr,
     existsb Char.isDigit (ocrFix priceStr) = false ->
     parsePrice priceStr = Num.ofZ 0).
Proof. split; [apply parsePrice_nonneg|apply parsePrice_no_digit]. Qed.

Lemma parsePrice_range_witness :
  existsb Char.isDigit (ocrFix (lit "n/a -,.")) = false /\
  parsePrice (lit "n/a -,.") = Num.ofZ 0.
Proof.
  split; [reflexivity|].
  apply (proj2 parsePrice_range). reflexivity.
Defined.

(** X2.  [parsePrice] reads the digits, the two separators and the
    letters of its replacement table, in their order, and nothing
    else: deleting every other unit of the string leaves the result
    as it is.  A minus sign in front is one of the units it drops. *)
Theorem parsePrice_significant_units :
  (forall priceStr,
     parsePrice priceStr = parsePrice (filter significant priceStr)) /\
  (forall priceStr,
     parsePrice ("-"%char :: priceStr) = parsePrice priceStr).
Proof.
  split; [apply parsePrice_filter|].
  intros s. rewrite (parsePrice_filter ("-"%char :: s)).
  rewrite (parsePrice_filter s). reflexivity.
Qed.

(** X3.  The total read off the text is the amount on the last line
    that holds a total keyword, no SUBTOTAL, and a number with two
    decimals: the first such number of that line, given to
    [parsePrice].  Earlier total lines do not count. *)
Theorem detectTotal_last_total_line before line after m :
  isTotalLine line = true ->
  exec totalRegex line = Some m ->
  Forall (fun l => isTotalLine l = false \/ exec totalRegex l = None)
         after ->
  detectTotal (before ++ line :: after) = parsePrice (nth 0 (groups m) []) /\
  Token 2 2 (nth 0 (groups m) []).
Proof.
  intros Ht Hm Ha.
  destruct (totalRegex_token m (exec_IsMatch _ _ _ Hm)) as [Tk Hg].
  rewrite Hg. cbn [nth].
  destruct (detectTotal_last before line after m Ht Hm Ha) as [E _].
  split; assumption.
Qed.

Lemma detectTotal_last_total_line_witness :
  exec totalRegex (lit "TOTAL A PAGAR 7,50") = Some totalMatch /\
  detectTotal [lit "TOTAL 5,00"; lit "TOTAL A PAGAR 7,50";
               lit "SUBTOTAL 9,99"; lit "GRACIAS"]
  = parsePrice (lit "7,50").
Proof.
  split; [vm_compute; reflexivity|].
  apply (detectTotal_last_total_line
           [lit "TOTAL 5,00"] (lit "TOTAL A PAGAR 7,50")
           [lit "SUBTOTAL 9,99"; lit "GRACIAS"] totalMatch).
  - vm_compute; reflexivity.
  - vm_compute; reflexivity.
  - repeat constructor.
Defined.

(** X4.  The items of a text are found line by line, each line on its
    own and at most one item a line: the items of two texts joined by
    a line break are the items of the first followed by the items of
    the second, and there are never more items than lines. *)
Theorem items_line_by_line :
  (forall today rawText,
     items (parse today rawText) = flat_map itemOf (splitLines rawText)) /\
  (forall today a b,
     items (parse today (a ++ LF :: b)) =
     items (parse today a) ++ items (parse today b)) /\
  (forall today rawText,
     length (items (parse today rawText)) <=
     length (splitLines rawText)).
Proof.
  split; [|split].
  - apply items_flat_map.
  - intros today a b. rewrite !items_flat_map, splitLines_app.
    apply flat_map_app.
  - intros today rawText. rewrite items_flat_map.
    apply flat_map_itemOf_length.
Qed.

(** X5.  Every item of the result comes from a line of the text: a
    line that the noise filter let through, that holds no summary
    keyword, that does not look like a date or a telephone number, and
    on which the item was read.  Its category is 'Otros' and its
    description has no white space at either end. *)
Theorem item_of_a_line today rawText it :
  In it (items (parse today rawText)) ->
  exists line amountForTotal,
    In line (splitLines rawText) /\
    skipped line = false /\
    extractItem line = Some (it, amountForTotal) /\
    isSummary line = false /\ isGarbage line = false /\
    category it = otros /\
    Str.trim (description it) = description it.
Proof.
  rewrite items_flat_map. intros H.
  apply in_flat_map in H. destruct H as (line & Hl & Hi).
  unfold itemOf in Hi.
  destruct (skipped line) eqn:Sk; [destruct Hi|].
  destruct (extractItem line) as [[it' amt]|] eqn:E; [|destruct Hi].
  destruct Hi as [->|[]].
  exists line, amt.
  destruct (extractItem_inv line it amt E) as (_ & _ & _ & Hc & _ & Hs & Hg).
  destruct (extractItem_description line it amt E) as [i Hd].
  repeat split; auto.
  rewrite Hd. apply describe_trimmed.
Qed.

Lemma item_of_a_line_witness :
  In pan (items (parse (lit "2026-11-02") text1)) /\
  exists line amountForTotal,
    In line (splitLines text1) /\
    skipped line = false /\
    extractItem line = Some (pan, amountForTotal) /\
    isSummary line = false /\ isGarbage line = false /\
    category pan = otros /\
    Str.trim (description pan) = description pan.
Proof.
  assert (H : In pan (items (parse (lit "2026-11-02") text1)))
    by (vm_compute; left; reflexivity).
  split; [exact H|].
  exact (item_of_a_line (lit "2026-11-02") text1 pan H).
Defined.

(** X6.  A result with at least one item has a total above 0; a result
    without items has the total read off the total lines, 0 if there
    is none. *)
Theorem total_with_and_without_items today rawText :
  (items (parse today rawText) <> [] ->
   Num.gtb (total (parse today rawText)) (Num.ofZ 0) = true) /\
  (items (parse today rawText) = [] ->
   total (parse today rawText) = detectTotal (splitLines rawText)).
Proof.
  split; [|apply total_without_items].
  rewrite total_fields.
  destruct (extractItems_inv (splitLines rawText)) as [Hi Hc].
  pose proof (detectTotal_nonneg (splitLines rawText)) as Hd.
  intros Hne. apply sanity_positive.
  - apply reconcile_nonneg; assumption.
  - exact Hi.
  - rewrite extractItems_items, <- (items_flat_map today). exact Hne.
Qed.

Lemma total_with_and_without_items_witness :
  items (parse (lit "2026-11-02") text1) <> [] /\
  Num.gtb (total (parse (lit "2026-11-02") text1)) (Num.ofZ 0) = true.
Proof.
  assert (H : items (parse (lit "2026-11-02") text1) <> [])
    by (vm_compute; discriminate).
  split; [exact H|].
  exact (proj1 (total_with_and_without_items (lit "2026-11-02") text1) H).
Defined.

(** X7.  The total of the result is never below the total read off the
    total lines: the two corrections after the total loop only raise
    it. *)
Theorem total_at_least_detected today rawText :
  leb (detectTotal (splitLines rawText)) (total (parse today rawText))
  = true.
Proof.
  rewrite total_fields.
  destruct (extractItems_inv (splitLines rawText)) as [Hi Hc].
  pose proof (detectTotal_nonneg (splitLines rawText)) as Hd.
  apply leb_sanity; auto.
  - apply reconcile_nonneg; assumption.
  - apply leb_reconcile; assumption.
Qed.

(** X8.  When no shop name of the table is found in the text, the
    merchant is the first of the first twelve lines that, in upper
    case, is longer than three units, has no two digits in a row and
    no address word; it is stored in upper case and trimmed.  When
    none of the twelve is such a line the merchant stays 'Desconocido',
    whatever the later lines are. *)
Theorem merchant_first_candidate today lines :
  Forall (fun e => aliasMatches (fullTextOf lines) e = false)
         establishments ->
  (forall before l after,
     firstn 12 lines = before ++ l :: after ->
     Forall (fun x => headerCandidate (Str.toUpperCase x) = false)
            before ->
     headerCandidate (Str.toUpperCase l) = true ->
     merchant (parseLines today lines) = Str.trim (Str.toUpperCase l)) /\
  (Forall (fun x => headerCandidate (Str.toUpperCase x) = false)
          (firstn 12 lines) ->
   merchant (parseLines today lines) = unknownMerchant).
Proof.
  intros Hn.
  destruct (parseLines_fields today lines) as (-> & _).
  rewrite (detectMerchant_fallback lines Hn).
  split.
  - intros before l after -> Hb Hl. apply firstHeader_first; assumption.
  - intros Hall. apply firstHeader_none, Hall.
Qed.

Lemma merchant_first_candidate_witness :
  Forall (fun e => aliasMatches (fullTextOf cornerShop) e = false)
         establishments /\
  merchant (parseLines (lit "2026-11-02") cornerShop) = lit "FRUTAS PEPE".
Proof.
  assert (H : Forall (fun e => aliasMatches (fullTextOf cornerShop) e = false)
                     establishments)
    by (repeat (constructor; [vm_compute; reflexivity|]); constructor).
  split; [exact H|].
  apply (proj1 (merchant_first_candidate (lit "2026-11-02") cornerShop H)
           [lit "28001 MADRID"; lit "CALLE MAYOR 5"] (lit "Frutas Pepe")
           [lit "PERAS 1,20"]).
  - reflexivity.
  - repeat (constructor; [vm_compute; reflexivity|]); constructor.
  - vm_compute; reflexivity.
Defined.

(** X9.  A text without any digit gives no item, the total 0 and
    today's date. *)
Theorem text_without_digits today rawText :
  existsb Char.isDigit rawText = false ->
  date (parse today rawText) = today /\
  items (parse today rawText) = [] /\
  total (parse today rawText) = Num.ofZ 0.
Proof.
  intros H.
  pose proof (splitLines_noDigit rawText H) as Hl.
  assert (Hi : items (parse today rawText) = []).
  { rewrite items_flat_map.
    induction Hl as [|l ls Hd _ IH]; [reflexivity|].
    cbn [flat_map]. rewrite (itemOf_noDigit l Hd). exact IH. }
  split; [|split; [exact Hi|]].
  - unfold parse.
    destruct (parseLines_fields today (splitLines rawText))
      as (_ & -> & _).
    apply detectDate_none.
    eapply Forall_impl; [|exact Hl].
    intros l Hd. apply noDigit_no_match; [apply dateRegex_needsDigit|exact Hd].
  - rewrite (total_without_items today rawText Hi).
    apply detectTotal_no_value.
    eapply Forall_impl; [|exact Hl].
    intros l Hd. right.
    apply noDigit_no_match; [apply (token_needsDigit 2)|exact Hd].
Qed.

Lemma text_without_digits_witness :
  existsb Char.isDigit (lit "LIDL" ++ LF :: lit "TOTAL A PAGAR") = false /\
  date (parse (lit "2026-11-02") (lit "LIDL" ++ LF :: lit "TOTAL A PAGAR"))
    = lit "2026-11-02" /\
  items (parse (lit "2026-11-02") (lit "LIDL" ++ LF :: lit "TOTAL A PAGAR"))
    = [] /\
  total (parse (lit "2026-11-02") (lit "LIDL" ++ LF :: lit "TOTAL A PAGAR"))
    = Num.ofZ 0.
Proof.
  split; [reflexivity|].
  apply (text_without_digits (lit "2026-11-02")
           (lit "LIDL" ++ LF :: lit "TOTAL A PAGAR")).
  reflexivity.
Defined.

(** X10.  A text of white space only, line breaks included, gives the
    empty draft: merchant 'Desconocido', today's date, total 0 and no
    item. *)
Theorem blank_text today rawText :
  forallb Char.isSpace rawText = true ->
  parse today rawText = emptyDraft today.
Proof.
  intros H. unfold parse. rewrite (splitLines_blank rawText H).
  vm_compute. reflexivity.
Qed.

Lemma blank_text_witness :
  forallb Char.isSpace (lit "  " ++ LF :: lit " ") = true /\
  parse (lit "2026-11-02") (lit "  " ++ LF :: lit " ")
  = emptyDraft (lit "2026-11-02").
Proof.
  split; [reflexivity|].
  apply (blank_text (lit "2026-11-02") (lit "  " ++ LF :: lit " ")).
  reflexivity.
Defined.

(** X11.  The lines [parse] works on are never empty and have no
    white space at either end, and the lines of two texts joined by a
    line break are the lines of the first followed by the lines of the
    second. *)
Theorem lines_trimmed :
  (forall rawText,
     Forall (fun l => l <> [] /\ Str.trim l = l) (splitLines rawText)) /\
  (forall a b, splitLines (a ++ LF :: b) = splitLines a ++ splitLines b).
Proof. split; [apply splitLines_trimmed|apply splitLines_app]. Qed.

End Further.

(** * Properties of the categorizer, the controller and the store *)

Module FurtherApp.

Import PriceFacts MerchantFacts CategoryFacts StoreFacts CaseFacts.

Lemma filter_all {A} (f : A -> bool) l :
  Forall (fun x => f x = true) l -> filter f l = l.
Proof.
  induction 1 as [|x l Hx _ IH]; simpl; [reflexivity|].
  rewrite Hx, IH. reflexivity.
Qed.

Lemma reclassifyItem_category item :
  description (fst (Storage.reclassifyItem item)) = description item /\
  price (fst (Storage.reclassifyItem item)) = price item /\
  (description item <> [] ->
   category (fst (Storage.reclassifyItem item)) =
   Categorizer.categorize (description item)).
Proof.
  unfold Storage.reclassifyItem.
  destruct (description item) as [|c d] eqn:E.
  - cbn [fst]. rewrite E. repeat split. intros H. destruct H. reflexivity.
  - destruct (Str.eqb _ _) eqn:Q; cbn [negb fst description price category].
    + rewrite E. repeat split. intros _.
      apply Str_eqb_eq in Q. symmetry. exact Q.
    + repeat split.
Qed.

Lemma keywords_nonempty e keyword :
  In e Categorizer.categories -> In keyword (snd e) -> keyword <> [].
Proof.
  assert (H : forallb (fun e => forallb (fun k => 0 <? length k) (snd e))
                      Categorizer.categories = true)
    by (vm_compute; reflexivity).
  intros He Hk. rewrite forallb_forall in H.
  specialize (H e He). rewrite forallb_forall in H.
  specialize (H keyword Hk). intros ->. discriminate H.
Qed.

Lemma toLowerCase_nil_iff d : Latin1.toLowerCase d <> [] -> d <> [].
Proof. intros H ->. apply H. reflexivity. Qed.

(** X12.  [categorize] answers, for every description, with one of the
    names [getCategories] lists. *)
Theorem categorize_in_getCategories description :
  In (Categorizer.categorize description) Categorizer.getCategories.
Proof. apply categorize_closed. Qed.

(** X13.  The order in which [categorize] decides: 'papel higienico'
    in the lower-case description gives 'Higiene'; failing that,
    'papel cocina' gives 'Limpieza y Hogar'; failing that, the first
    category of the table one of whose keywords the lower-case
    description contains; failing that, 'Otros'. *)
Theorem categorize_order description :
  (Str.includes (Latin1.toLowerCase description) (lit "papel higienico")
     = true ->
   Categorizer.categorize description = lit "Higiene") /\
  (Str.includes (Latin1.toLowerCase description) (lit "papel higienico")
     = false ->
   (Str.includes (Latin1.toLowerCase description) (lit "papel cocina")
      = true ->
    Categorizer.categorize description = lit "Limpieza y Hogar") /\
   (Str.includes (Latin1.toLowerCase description) (lit "papel cocina")
      = false ->
    (forall before e after,
       Categorizer.categories = before ++ e :: after ->
       Forall (fun x =>
                 Categorizer.mentions (Latin1.toLowerCase description) x
                 = false) before ->
       Categorizer.mentions (Latin1.toLowerCase description) e = true ->
       description <> [] ->
       Categorizer.categorize description = fst e) /\
    (Forall (fun x =>
               Categorizer.mentions (Latin1.toLowerCase description) x
               = false) Categorizer.categories ->
     Categorizer.categorize description = lit "Otros"))).
Proof.
  split; [|intros H1; split; [|intros H2; split]].
  - intros H.
    assert (Hd : description <> []).
    { intros ->. discriminate H. }
    rewrite (categorize_unfold _ Hd), H. reflexivity.
  - intros H.
    assert (Hd : description <> []).
    { intros ->. discriminate H. }
    rewrite (categorize_unfold _ Hd), H1, H. reflexivity.
  - intros before e after Ht Hb He Hd.
    rewrite (categorize_unfold _ Hd), H1, H2, Ht.
    rewrite (find_first _ before e after Hb He). reflexivity.
  - intros Hall. destruct description as [|c d]; [reflexivity|].
    rewrite categorize_unfold by discriminate. rewrite H1, H2.
    rewrite (EdgeMore.find_none_all _ _ Hall). reflexivity.
Qed.

Lemma categorize_order_witness :
  Categorizer.categorize (Latin1.text "Atún claro") =
  Latin1.text "Pescado y Marisco".
Proof.
  refine (proj1 (proj2 (proj2 (categorize_order (Latin1.text "Atún claro"))
                          _) _)
            (firstn 1 Categorizer.categories)
            (nth 1 Categorizer.categories ([], []))
            (skipn 2 Categorizer.categories) _ _ _ _).
  - vm_compute; reflexivity.
  - vm_compute; reflexivity.
  - reflexivity.
  - repeat (constructor; [vm_compute; reflexivity|]); constructor.
  - vm_compute; reflexivity.
  - discriminate.
Defined.

(** X14.  A description that contains a keyword of a category, or any
    text that contains such a keyword, gets that category or one that
    stands before it in the table (the two 'papel' cases apart): a
    keyword that contains a keyword of an earlier category, as
    'repollo' contains 'pollo', never decides. *)
Theorem categorize_not_later description before e after keyword longer :
  Categorizer.categories = before ++ e :: after ->
  In keyword (snd e) ->
  Str.includes longer keyword = true ->
  Str.includes (Latin1.toLowerCase description) longer = true ->
  Str.includes (Latin1.toLowerCase description) (lit "papel higienico")
    = false ->
  Str.includes (Latin1.toLowerCase description) (lit "papel cocina")
    = false ->
  exists x, In x (before ++ [e]) /\
            Categorizer.categorize description = fst x.
Proof.
  intros Ht Hk Hl Hd H1 H2.
  assert (Hm : Categorizer.mentions (Latin1.toLowerCase description) e
               = true).
  { unfold Categorizer.mentions. apply existsb_exists.
    exists keyword. split; [exact Hk|].
    eapply includes_trans; eassumption. }
  assert (Hne : description <> []).
  { apply toLowerCase_nil_iff.
    apply (includes_nonempty _ longer); [|exact Hd].
    apply (includes_nonempty _ keyword); [|exact Hl].
    apply (keywords_nonempty e keyword); [|exact Hk].
    rewrite Ht. apply in_elt. }
  destruct (find_prefix
              (Categorizer.mentions (Latin1.toLowerCase description))
              before e after Hm) as (x & Hf & Hx).
  exists x. split; [exact Hx|].
  rewrite (categorize_unfold _ Hne), H1, H2, Ht, Hf. reflexivity.
Qed.

Lemma categorize_not_later_witness :
  exists x, In x ([] ++ [nth 0 Categorizer.categories ([], [])]) /\
            Categorizer.categorize (lit "REPOLLO 1 KG") = fst x.
Proof.
  apply (categorize_not_later (lit "REPOLLO 1 KG") []
           (nth 0 Categorizer.categories ([], []))
           (skipn 1 Categorizer.categories)
           (lit "pollo") (lit "repollo")).
  - reflexivity.
  - left. reflexivity.
  - vm_compute; reflexivity.
  - vm_compute; reflexivity.
  - vm_compute; reflexivity.
  - vm_compute; reflexivity.
Defined.

(** X15.  [categorize] reads the description through [toLowerCase]
    only: two descriptions with the same lower-case form get the same
    category, and so do a description and its upper-case form, as long
    as each of its units has an upper-case form of one Latin-1 unit
    (all but U+00B5, U+00DF and U+00FF). *)
Theorem categorize_ignores_case :
  (forall d d',
     Latin1.toLowerCase d = Latin1.toLowerCase d' ->
     Categorizer.categorize d = Categorizer.categorize d') /\
  (forall d,
     forallb plainCase d = true ->
     Categorizer.categorize (Str.toUpperCase d) = Categorizer.categorize d).
Proof.
  split; [apply categorize_lower|].
  intros d H. apply categorize_lower, toLowerCase_toUpperCase.
  induction d as [|c d IH]; [reflexivity|].
  cbn [forallb] in H. apply andb_prop in H. destruct H as [Hc H].
  cbn [existsb]. rewrite (IH H), orb_false_r.
  unfold plainCase in Hc.
  destruct (Char.code c =? 223); [|reflexivity].
  rewrite orb_true_r in Hc. discriminate Hc.
Qed.

Lemma categorize_ignores_case_witness :
  Latin1.toLowerCase (lit "Pechuga POLLO") =
    Latin1.toLowerCase (lit "PECHUGA pollo") /\
  Categorizer.categorize (lit "Pechuga POLLO") =
    Categorizer.categorize (lit "PECHUGA pollo") /\
  forallb plainCase (Latin1.text "jamón") = true /\
  Categorizer.categorize (Str.toUpperCase (Latin1.text "jamón")) =
    Categorizer.categorize (Latin1.text "jamón").
Proof.
  split; [reflexivity|split; [|split; [reflexivity|]]].
  - apply (proj1 categorize_ignores_case). reflexivity.
  - apply (proj2 categorize_ignores_case). reflexivity.
Defined.

Lemma reclassifyItem_categorized it :
  Storage.reclassifyItem (App.categorizeItem it) =
  (App.categorizeItem it, false).
Proof.
  unfold Storage.reclassifyItem, App.categorizeItem.
  cbn [description category price].
  destruct (description it) as [|c d]; [reflexivity|].
  rewrite Str_eqb_refl. reflexivity.
Qed.

Lemma reclassifyItems_categorized l :
  map Storage.reclassifyItem (map App.categorizeItem l) =
  map (fun it => (App.categorizeItem it, false)) l.
Proof.
  rewrite map_map. apply map_ext. intros it.
  apply reclassifyItem_categorized.
Qed.

Lemma reclassifyTicket_categorized uuid now rawData :
  Storage.reclassifyTicket
    {| id := uuid; timestamp := now;
       receipt := App.categorizeItems rawData |} =
  ({| id := uuid; timestamp := now;
      receipt := App.categorizeItems rawData |}, false).
Proof.
  unfold Storage.reclassifyTicket, App.categorizeItems.
  cbn [receipt items id timestamp merchant date total].
  rewrite reclassifyItems_categorized, !map_map. cbn [fst snd].
  f_equal. apply (existsb_all_false App.categorizeItem).
Qed.

(** X16.  A ticket stored as the categorising loop of [processText]
    and [processFiles] left it is settled for [reclassifyAll]: the
    pass over it sets no category and does not raise [changed], so in
    a store whose other tickets are settled too the run changes
    nothing and writes nothing. *)
Theorem categorized_ticket_settled uuid now rawData st :
  Storage.reclassifyTicket
    {| id := uuid; timestamp := now;
       receipt := App.categorizeItems rawData |} =
  ({| id := uuid; timestamp := now;
      receipt := App.categorizeItems rawData |}, false) /\
  (existsb snd (map Storage.reclassifyTicket (cache st)) = false ->
   Storage.reclassifyAll
     (Storage.addTicket uuid now (App.categorizeItems rawData) st) =
   Storage.addTicket uuid now (App.categorizeItems rawData) st).
Proof.
  split; [apply reclassifyTicket_categorized|].
  intros H. unfold Storage.reclassifyAll, Storage.addTicket, Storage.save.
  cbn [cache saved map existsb].
  rewrite reclassifyTicket_categorized. cbn [fst snd orb].
  rewrite H, (tickets_unchanged _ H). reflexivity.
Qed.

Lemma categorized_ticket_settled_witness :
  existsb snd (map Storage.reclassifyTicket (cache (Storage.save [])))
    = false /\
  Storage.reclassifyAll
    (Storage.addTicket (lit "a1") 7%Z
       (App.processText (lit "2026-11-02") text1) (Storage.save [])) =
  Storage.addTicket (lit "a1") 7%Z
    (App.processText (lit "2026-11-02") text1) (Storage.save []).
Proof.
  split; [reflexivity|].
  apply (proj2 (categorized_ticket_settled (lit "a1") 7%Z
                  (parse (lit "2026-11-02") text1) (Storage.save []))).
  reflexivity.
Defined.

Lemma reclassifyAll_fixed st :
  existsb snd (map Storage.reclassifyTicket
                 (cache (Storage.reclassifyAll st))) = false /\
  map fst (map Storage.reclassifyTicket
             (cache (Storage.reclassifyAll st))) =
  cache (Storage.reclassifyAll st).
Proof.
  rewrite cache_reclassifyAll, tickets_again. split.
  - apply existsb_tickets_false.
  - rewrite !map_map. reflexivity.
Qed.

(** X17.  After [reclassifyAll] every stored item with a description
    has the category [categorize] gives it; the tickets, their
    identifiers and the descriptions and prices of their items are as
    before; and a second run changes nothing. *)
Theorem reclassifyAll_settles st :
  Storage.reclassifyAll (Storage.reclassifyAll st) =
    Storage.reclassifyAll st /\
  map id (cache (Storage.reclassifyAll st)) = map id (cache st) /\
  map (fun t => map description (items (receipt t)))
      (cache (Storage.reclassifyAll st)) =
    map (fun t => map description (items (receipt t))) (cache st) /\
  map (fun t => map price (items (receipt t)))
      (cache (Storage.reclassifyAll st)) =
    map (fun t => map price (items (receipt t))) (cache st) /\
  Forall (fun t =>
            Forall (fun it =>
                      description it <> [] ->
                      category it =
                      Categorizer.categorize (description it))
                   (items (receipt t)))
         (cache (Storage.reclassifyAll st)).
Proof.
  split; [|rewrite !cache_reclassifyAll, !map_map; repeat split].
  - destruct (reclassifyAll_fixed st) as [E1 E2].
    unfold Storage.reclassifyAll at 1. rewrite E1, E2.
    destruct (Storage.reclassifyAll st). reflexivity.
  - apply map_ext. intros t. unfold Storage.reclassifyTicket.
    cbn [fst receipt items]. rewrite !map_map.
    apply map_ext. intros it. apply reclassifyItem_category.
  - apply map_ext. intros t. unfold Storage.reclassifyTicket.
    cbn [fst receipt items]. rewrite !map_map.
    apply map_ext. intros it. apply reclassifyItem_category.
  - apply Forall_forall. intros t Ht. apply in_map_iff in Ht.
    destruct Ht as (t0 & <- & _).
    unfold Storage.reclassifyTicket. cbn [fst receipt items].
    apply Forall_forall. intros it Hit. rewrite map_map in Hit.
    apply in_map_iff in Hit. destruct Hit as (it0 & <- & _).
    destruct (reclassifyItem_category it0) as (Hd & _ & Hc).
    rewrite Hd. exact Hc.
Qed.

Lemma reclassifyAll_settles_witness :
  Forall (fun t =>
            Forall (fun it =>
                      description it <> [] ->
                      category it =
                      Categorizer.categorize (description it))
                   (items (receipt t)))
         (cache (Storage.reclassifyAll
                   (Storage.addTicket (lit "a1") 7%Z draft1
                      (Storage.save [])))).
Proof.
  exact (proj2 (proj2 (proj2 (proj2
           (reclassifyAll_settles
              (Storage.addTicket (lit "a1") 7%Z draft1
                 (Storage.save []))))))).
Defined.

Lemma map_fixed {A} (f : A -> A) l :
  map f l = l -> forall x, In x l -> f x = x.
Proof.
  induction l as [|y l IH]; cbn [map]; intros E x Hx; [destruct Hx|].
  injection E as E1 E2. destruct Hx as [<-|Hx]; [exact E1|].
  apply IH; assumption.
Qed.

Lemma reclassifyItem_changed item :
  snd (Storage.reclassifyItem item) = true ->
  fst (Storage.reclassifyItem item) <> item.
Proof.
  unfold Storage.reclassifyItem.
  destruct (description item) as [|c d]; [discriminate|].
  destruct (Str.eqb _ (category item)) eqn:Q; cbn [negb fst snd];
    [discriminate|].
  intros _ E. apply (f_equal category) in E. cbn [category] in E.
  rewrite E, Str_eqb_refl in Q. discriminate Q.
Qed.

Lemma reclassifyTicket_changed t :
  snd (Storage.reclassifyTicket t) = true ->
  fst (Storage.reclassifyTicket t) <> t.
Proof.
  unfold Storage.reclassifyTicket. cbn [fst snd]. intros H E.
  apply existsb_exists in H. destruct H as (r & Hr & Hs).
  apply in_map_iff in Hr. destruct Hr as (it & <- & Hit).
  assert (I : map fst (map Storage.reclassifyItem (items (receipt t))) =
              items (receipt t)).
  { apply (f_equal (fun x => items (receipt x))) in E. exact E. }
  rewrite map_map in I.
  apply (reclassifyItem_changed it Hs).
  exact (map_fixed _ _ I it Hit).
Qed.

(** X18.  [reclassifyAll] raises [changed] exactly when it changes
    the cache: if no pass raised it the store is as before, nothing
    being written, and if a pass raised it the cache differs from
    the one before. *)
Theorem reclassifyAll_changed_exact st :
  (existsb snd (map Storage.reclassifyTicket (cache st)) = false ->
   cache (Storage.reclassifyAll st) = cache st /\
   saved (Storage.reclassifyAll st) = saved st) /\
  (existsb snd (map Storage.reclassifyTicket (cache st)) = true ->
   cache (Storage.reclassifyAll st) <> cache st).
Proof.
  split.
  - intros H. unfold Storage.reclassifyAll. rewrite H. cbn [cache saved].
    rewrite (tickets_unchanged _ H). split; reflexivity.
  - intros H E. rewrite cache_reclassifyAll, map_map in E.
    apply existsb_exists in H. destruct H as (r & Hr & Hs).
    apply in_map_iff in Hr. destruct Hr as (t & <- & Ht).
    apply (reclassifyTicket_changed t Hs).
    exact (map_fixed _ _ E t Ht).
Qed.

Lemma reclassifyAll_changed_exact_witness :
  existsb snd (map Storage.reclassifyTicket
                 (cache (Storage.addTicket (lit "a1") 7%Z draft1
                           (Storage.save [])))) = true /\
  cache (Storage.reclassifyAll
           (Storage.addTicket (lit "a1") 7%Z draft1 (Storage.save []))) <>
  cache (Storage.addTicket (lit "a1") 7%Z draft1 (Storage.save [])).
Proof.
  assert (H : existsb snd (map Storage.reclassifyTicket
                 (cache (Storage.addTicket (lit "a1") 7%Z draft1
                           (Storage.save [])))) = true)
    by (vm_compute; reflexivity).
  split; [exact H|].
  exact (proj2 (reclassifyAll_changed_exact
                  (Storage.addTicket (lit "a1") 7%Z draft1
                     (Storage.save []))) H).
Defined.

(** X19.  [deleteTicket] leaves no ticket with the identifier it was
    given and no other ticket is touched; so adding a ticket under an
    identifier that no stored ticket has and deleting that identifier
    gives the cache back as it was. *)
Theorem add_then_delete :
  (forall ticketId st,
     cache (Storage.deleteTicket ticketId st) =
     filter (fun t => negb (Str.eqb (id t) ticketId)) (cache st) /\
     Forall (fun t => id t <> ticketId)
            (cache (Storage.deleteTicket ticketId st))) /\
  (forall uuid now ticket st,
     Forall (fun t => id t <> uuid) (cache st) ->
     cache (Storage.deleteTicket uuid
              (Storage.addTicket uuid now ticket st)) = cache st).
Proof.
  split.
  - intros ticketId st. split; [reflexivity|].
    unfold Storage.deleteTicket, Storage.save. cbn [cache].
    apply Forall_forall. intros t Ht. apply filter_In in Ht.
    destruct Ht as [_ Ht]. intros E.
    apply Str_eqb_eq in E. rewrite E in Ht. discriminate Ht.
  - intros uuid now ticket st H.
    unfold Storage.deleteTicket, Storage.addTicket, Storage.save.
    cbn [cache filter id]. rewrite Str_eqb_refl. cbn [negb].
    apply filter_all. eapply Forall_impl; [|exact H].
    intros t Ht. cbv beta in *.
    destruct (Str.eqb (id t) uuid) eqn:E; [|reflexivity].
    apply Str_eqb_eq in E. contradiction.
Qed.

Lemma add_then_delete_witness :
  cache (Storage.deleteTicket (lit "b2")
           (Storage.addTicket (lit "b2") 9%Z draft1
              (Storage.addTicket (lit "a1") 7%Z draft1 (Storage.save []))))
  = cache (Storage.addTicket (lit "a1") 7%Z draft1 (Storage.save [])).
Proof.
  apply (proj2 add_then_delete (lit "b2") 9%Z draft1
           (Storage.addTicket (lit "a1") 7%Z draft1 (Storage.save []))).
  repeat constructor. cbn [id]. discriminate.
Defined.

End FurtherApp.

(** * [consolidateItems] *)

Module GroupFacts.

Import CategoryFacts StoreFacts.

Lemma Str_eqb_sym a b : Str.eqb a b = Str.eqb b a.
Proof.
  destruct (Str.eqb a b) eqn:E.
  - apply Str_eqb_eq in E. subst. symmetry. apply Str_eqb_refl.
  - destruct (Str.eqb b a) eqn:E'; [|reflexivity].
    apply Str_eqb_eq in E'. subst. rewrite Str_eqb_refl in E.
    discriminate E.
Qed.

Lemma member_eq a b l : Str.eqb a b = true -> Str.member a l = Str.member b l.
Proof. intros E. apply Str_eqb_eq in E. subst. reflexivity. Qed.

(** The keys of [firsts seen l] are the keys of [l] that are not in
    [seen]. *)
Lemma firsts_has k : forall l seen,
  existsb (fun y => Str.eqb (App.groupKey y) k) (firsts seen l) =
  negb (Str.member k seen) &&
  existsb (fun y => Str.eqb (App.groupKey y) k) l.
Proof.
  induction l as [|y l IH]; intros seen; cbn [firsts existsb].
  - rewrite andb_false_r. reflexivity.
  - destruct (Str.member (App.groupKey y) seen) eqn:M.
    + rewrite IH. destruct (Str.eqb (App.groupKey y) k) eqn:E;
        [|reflexivity].
      rewrite <- (member_eq _ _ seen E), M. reflexivity.
    + cbn [existsb]. rewrite IH.
      destruct (Str.eqb (App.groupKey y) k) eqn:E.
      * rewrite <- (member_eq _ _ seen E), M. reflexivity.
      * unfold Str.member. cbn [existsb]. fold (Str.member k seen).
        rewrite Str_eqb_sym, E. reflexivity.
Qed.

Lemma firsts_snoc x : forall l seen,
  firsts seen (l ++ [x]) =
  firsts seen l ++
  (if Str.member (App.groupKey x) seen
      || existsb (fun y => Str.eqb (App.groupKey y) (App.groupKey x)) l
   then [] else [x]).
Proof.
  induction l as [|y l IH]; intros seen; cbn [app firsts existsb].
  - rewrite orb_false_r.
    destruct (Str.member (App.groupKey x) seen); reflexivity.
  - destruct (Str.member (App.groupKey y) seen) eqn:M.
    + rewrite IH.
      destruct (Str.eqb (App.groupKey y) (App.groupKey x)) eqn:E;
        [|reflexivity].
      rewrite <- (member_eq _ _ seen E), M. reflexivity.
    + cbn [app]. rewrite IH. f_equal. f_equal.
      unfold Str.member. cbn [existsb].
      fold (Str.member (App.groupKey x) seen).
      rewrite (Str_eqb_sym (App.groupKey x) (App.groupKey y)).
      destruct (Str.eqb (App.groupKey y) (App.groupKey x)),
               (Str.member (App.groupKey x) seen); reflexivity.
Qed.

Lemma firsts_NoDup : forall l seen, NoDup (map App.groupKey (firsts seen l)).
Proof.
  induction l as [|y l IH]; intros seen; cbn [firsts].
  - constructor.
  - destruct (Str.member (App.groupKey y) seen); [apply IH|].
    cbn [map]. constructor; [|apply IH].
    intros H. apply in_map_iff in H. destruct H as (z & Hz & Hin).
    pose proof (firsts_has (App.groupKey y) l (App.groupKey y :: seen)) as F.
    unfold Str.member in F. cbn [existsb] in F.
    rewrite Str_eqb_refl in F. cbn in F.
    assert (T : existsb (fun y0 => Str.eqb (App.groupKey y0) (App.groupKey y))
                  (firsts (App.groupKey y :: seen) l) = true).
    { apply existsb_exists. exists z. split; [exact Hin|].
      rewrite Hz. apply Str_eqb_refl. }
    rewrite T in F. discriminate F.
Qed.

Lemma firsts_length : forall l seen, length (firsts seen l) <= length l.
Proof.
  induction l as [|y l IH]; intros seen; cbn [firsts length]; [lia|].
  destruct (Str.member (App.groupKey y) seen).
  - specialize (IH seen). lia.
  - cbn [length]. specialize (IH (App.groupKey y :: seen)). lia.
Qed.

Lemma firsts_distinct : forall l seen,
  NoDup (map App.groupKey l) ->
  (forall y, In y l -> Str.member (App.groupKey y) seen = false) ->
  firsts seen l = l.
Proof.
  induction l as [|y l IH]; intros seen Hn Hs; cbn [firsts]; [reflexivity|].
  rewrite (Hs y (or_introl eq_refl)). f_equal.
  cbn [map] in Hn. inversion Hn as [|? ? Hy Hn']. subst.
  apply IH; [exact Hn'|].
  intros z Hz. unfold Str.member. cbn [existsb].
  fold (Str.member (App.groupKey z) seen).
  rewrite (Hs z (or_intror Hz)), orb_false_r.
  destruct (Str.eqb (App.groupKey z) (App.groupKey y)) eqn:E; [|reflexivity].
  apply Str_eqb_eq in E. exfalso. apply Hy. rewrite <- E.
  apply in_map. exact Hz.
Qed.

(** *** The group of an item when one item more is read *)

Lemma members_snoc y l x :
  members y (l ++ [x]) =
  members y l ++ (if sameKey y x then [x] else []).
Proof. unfold members. rewrite filter_app. reflexivity. Qed.

Lemma groupOf_other y l x :
  sameKey y x = false -> groupOf y (l ++ [x]) = groupOf y l.
Proof.
  intros E. unfold groupOf. rewrite members_snoc, E, app_nil_r.
  reflexivity.
Qed.

Lemma groupOf_same y l x :
  sameKey y x = true ->
  groupOf y (l ++ [x]) =
  {| groupDescription := groupDescription (groupOf y l);
     groupCategory := groupCategory (groupOf y l);
     groupPrice := Num.add (groupPrice (groupOf y l)) (price x);
     count := count (groupOf y l) + 1 |}.
Proof.
  intros E. unfold groupOf. rewrite members_snoc, E.
  cbn [groupDescription groupCategory groupPrice count].
  rewrite map_app, fold_left_app, length_app. reflexivity.
Qed.

Lemma members_none x l :
  existsb (fun y => Str.eqb (App.groupKey y) (App.groupKey x)) l = false ->
  members x l = [].
Proof.
  induction l as [|y l IH]; [reflexivity|].
  cbn [existsb]. intros H. apply orb_false_elim in H. destruct H as [E H].
  unfold members, sameKey. cbn [filter]. rewrite E. apply IH, H.
Qed.

(** *** The association list *)

Lemma lookup_entries (G : LineItem -> Group) k : forall l,
  App.lookup k (map (fun y => (App.groupKey y, G y)) l) = None <->
  existsb (fun y => Str.eqb (App.groupKey y) k) l = false.
Proof.
  induction l as [|y l IH]; cbn [map App.lookup existsb]; [tauto|].
  destruct (Str.eqb (App.groupKey y) k); cbn [orb]; [|exact IH].
  split; discriminate.
Qed.

Lemma update_new k f g : forall st,
  Forall (fun e => Str.eqb (fst e) k = false) st ->
  App.update k f (st ++ [(k, g)]) = st ++ [(k, f g)].
Proof.
  induction 1 as [|[k' g'] st He _ IH]; cbn [app App.update].
  - rewrite Str_eqb_refl. reflexivity.
  - cbn [fst] in He. rewrite He, IH. reflexivity.
Qed.

Lemma update_entries p x f :
  (forall y, sameKey y x = true ->
             f (groupOf y p) = groupOf y (p ++ [x])) ->
  forall l,
  NoDup (map App.groupKey l) ->
  existsb (fun y => Str.eqb (App.groupKey y) (App.groupKey x)) l = true ->
  App.update (App.groupKey x) f
    (map (fun y => (App.groupKey y, groupOf y p)) l) =
  map (fun y => (App.groupKey y, groupOf y (p ++ [x]))) l.
Proof.
  intros Hf. induction l as [|y l IH]; [discriminate|].
  cbn [map existsb App.update]. intros Hn He.
  inversion Hn as [|? ? Hy Hn']. subst.
  destruct (Str.eqb (App.groupKey y) (App.groupKey x)) eqn:E.
  - f_equal.
    + f_equal. apply Hf. unfold sameKey. rewrite Str_eqb_sym. exact E.
    + apply map_ext_in. intros z Hz. f_equal. symmetry.
      apply groupOf_other. unfold sameKey.
      destruct (Str.eqb (App.groupKey x) (App.groupKey z)) eqn:E';
        [|reflexivity].
      apply Str_eqb_eq in E, E'. exfalso. apply Hy.
      rewrite E, E'. apply in_map, Hz.
  - cbn [orb] in He. f_equal; [|apply IH; assumption].
    f_equal. symmetry. apply groupOf_other.
    unfold sameKey. rewrite Str_eqb_sym. exact E.
Qed.

Lemma consolidateStep_groupsOf p x :
  App.consolidateStep (groupsOf p) x = groupsOf (p ++ [x]).
Proof.
  unfold App.consolidateStep, groupsOf. cbv zeta.
  rewrite firsts_snoc. cbn [Str.member existsb orb].
  pose proof (lookup_entries (fun y => groupOf y p) (App.groupKey x)
                (firsts [] p)) as L.
  pose proof (firsts_has (App.groupKey x) p []) as F.
  cbn [Str.member existsb negb andb] in F.
  destruct (existsb (fun y => Str.eqb (App.groupKey y) (App.groupKey x)) p)
    eqn:H.
  - destruct L as [L1 L2]. destruct (App.lookup _ _) eqn:Lk.
    + rewrite app_nil_r. apply update_entries.
      * intros y Hy. symmetry. apply groupOf_same, Hy.
      * apply firsts_NoDup.
      * exact F.
    + specialize (L1 eq_refl). rewrite F in L1. discriminate L1.
  - destruct L as [L1 L2]. destruct (App.lookup _ _) eqn:Lk.
    + discriminate (L2 F).
    + rewrite update_new.
      * rewrite map_app. cbn [map]. f_equal.
        -- apply map_ext_in. intros y Hy. f_equal. symmetry.
           apply groupOf_other. unfold sameKey.
           assert (T : forall z, In z (firsts [] p) ->
                         Str.eqb (App.groupKey z) (App.groupKey x) = false).
           { intros z Hz.
             destruct (Str.eqb (App.groupKey z) (App.groupKey x)) eqn:E;
               [|reflexivity].
             assert (existsb (fun y0 => Str.eqb (App.groupKey y0)
                                          (App.groupKey x))
                       (firsts [] p) = true)
               by (apply existsb_exists; eauto).
             congruence. }
           rewrite Str_eqb_sym. apply T, Hy.
        -- f_equal. f_equal. unfold groupOf.
           rewrite members_snoc, (members_none x p H).
           unfold sameKey. rewrite Str_eqb_refl. reflexivity.
      * apply Forall_forall. intros e He. apply in_map_iff in He.
        destruct He as (z & <- & Hz). cbn [fst].
        destruct (Str.eqb (App.groupKey z) (App.groupKey x)) eqn:E;
          [|reflexivity].
        assert (existsb (fun y0 => Str.eqb (App.groupKey y0)
                                     (App.groupKey x))
                  (firsts [] p) = true)
          by (apply existsb_exists; eauto).
        congruence.
Qed.

Lemma fold_consolidateStep : forall rest p,
  fold_left App.consolidateStep rest (groupsOf p) = groupsOf (p ++ rest).
Proof.
  induction rest as [|x rest IH]; intros p; cbn [fold_left].
  - rewrite app_nil_r. reflexivity.
  - rewrite consolidateStep_groupsOf, IH, <- app_assoc. reflexivity.
Qed.

Lemma consolidateItems_groups l :
  App.consolidateItems l =
  map (fun x => App.consolidated (groupOf x l)) (firsts [] l).
Proof.
  unfold App.consolidateItems.
  change (@nil (str * Group)) with (groupsOf []).
  rewrite fold_consolidateStep. cbn [app]. unfold groupsOf.
  rewrite !map_map. reflexivity.
Qed.

Lemma members_alone x l :
  NoDup (map App.groupKey l) -> In x l -> members x l = [x].
Proof.
  induction l as [|y l IH]; [intros _ []|].
  cbn [map]. intros Hn Hin. inversion Hn as [|? ? Hy Hn']. subst.
  unfold members, sameKey. cbn [filter].
  destruct Hin as [->|Hin].
  - rewrite Str_eqb_refl. f_equal.
    apply members_none.
    destruct (existsb _ l) eqn:E; [|reflexivity].
    apply existsb_exists in E. destruct E as (z & Hz & E).
    apply Str_eqb_eq in E. exfalso. apply Hy. rewrite <- E.
    apply in_map, Hz.
  - destruct (Str.eqb (App.groupKey y) (App.groupKey x)) eqn:E.
    + apply Str_eqb_eq in E. exfalso. apply Hy. rewrite E.
      apply in_map, Hin.
    + apply IH; assumption.
Qed.

Lemma add_zero_positive p :
  Num.gtb p (Num.ofZ 0) = true -> Num.add (Num.ofZ 0) p = p.
Proof.
  destruct p as [s|s| |s m e]; intros H; try discriminate H.
  - destruct s; [discriminate H|reflexivity].
  - destruct s; [discriminate H|reflexivity].
Qed.

End GroupFacts.

Module FurtherGroups.

Import LoopFacts Claims CategoryFacts StoreFacts GroupFacts.

(** X20.  [consolidateItems] gives one item for each key, in the order
    in which the keys first occur, the key being the trimmed
    upper-case description with the category.  The item has the
    description and the category of the first member of its group, the
    description followed by the number of members when there is more
    than one, and as price the prices of the members added from the
    left to 0. *)
Theorem consolidateItems_by_group items :
  App.consolidateItems items =
    map (fun x => App.consolidated (groupOf x items)) (firsts [] items) /\
  NoDup (map App.groupKey (firsts [] items)) /\
  length (App.consolidateItems items) <= length items.
Proof.
  split; [apply consolidateItems_groups|split; [apply firsts_NoDup|]].
  rewrite consolidateItems_groups, length_map. apply firsts_length.
Qed.

(** X21.  On items whose keys differ from one another
    [consolidateItems] changes nothing but the prices, which become
    0 + price; with prices above 0, as the items of [parse] have them,
    it gives the items back as they are. *)
Theorem consolidateItems_distinct :
  (forall items,
     NoDup (map App.groupKey items) ->
     App.consolidateItems items = map repriced items) /\
  (forall today rawText,
     NoDup (map App.groupKey (items (parse today rawText))) ->
     App.consolidateItems (items (parse today rawText)) =
     items (parse today rawText)).
Proof.
  assert (A : forall items,
            NoDup (map App.groupKey items) ->
            App.consolidateItems items = map repriced items).
  { intros items Hn. rewrite consolidateItems_groups.
    rewrite (firsts_distinct items [] Hn) by reflexivity.
    apply map_ext_in. intros x Hx.
    unfold App.consolidated, groupOf.
    cbn [count groupDescription groupCategory groupPrice].
    rewrite (members_alone x items Hn Hx). reflexivity. }
  split; [exact A|].
  intros today rawText Hn. rewrite (A _ Hn).
  assert (Hok : Forall itemOk (items (parse today rawText))).
  { unfold parse.
    destruct (parseLines_fields today (splitLines rawText))
      as (_ & _ & -> & _).
    apply extractItems_inv. }
  induction Hok as [|it its Hit _ IH]; [reflexivity|].
  cbn [map] in *. inversion Hn as [|? ? _ Hn']. subst.
  rewrite (IH Hn'). f_equal.
  destruct it as [d p c]. unfold repriced. cbn [description price category].
  destruct Hit as [Hp _]. cbn [price] in Hp.
  rewrite (add_zero_positive p Hp). reflexivity.
Qed.

Lemma consolidateItems_distinct_witness :
  NoDup (map App.groupKey (firstn 2 basket)) /\
  App.consolidateItems (firstn 2 basket) = map repriced (firstn 2 basket).
Proof.
  assert (H : NoDup (map App.groupKey (firstn 2 basket))).
  { cbn [firstn basket map]. constructor.
    - intros [E|[]]. vm_compute in E. discriminate E.
    - constructor; [intros []|constructor]. }
  split; [exact H|].
  exact (proj1 consolidateItems_distinct (firstn 2 basket) H).
Defined.

End FurtherGroups.

(** * Calls of [parse] *)

Module Calls.

Import NumFacts PriceFacts LoopFacts LineFacts Claims LoopMore TotalMore.

Lemma splitLines_longReceipt n :
  splitLines (longReceipt n) = repeat zeroLine n.
Proof.
  induction n as [|n IH]; [reflexivity|].
  unfold longReceipt in *. cbn [repeat concat].
  rewrite <- app_assoc. cbn [app].
  rewrite splitLines_app, IH. reflexivity.
Qed.

Lemma itemStep_zeroLine its :
  itemStep (its, Num.ofZ 0) zeroLine = (its ++ [zeroItem], Num.ofZ 0).
Proof.
  unfold itemStep.
  assert (S : skipped zeroLine = false) by (vm_compute; reflexivity).
  assert (E : extractItem zeroLine = Some (zeroItem, Num.ofZ 0))
    by (vm_compute; reflexivity).
  rewrite S, E. cbn [fst snd]. f_equal.
Qed.

Lemma fold_itemStep_zeroLines n : forall its,
  fold_left itemStep (repeat zeroLine n) (its, Num.ofZ 0) =
  (its ++ repeat zeroItem n, Num.ofZ 0).
Proof.
  induction n as [|n IH]; intros its; cbn [repeat fold_left].
  - rewrite app_nil_r. reflexivity.
  - rewrite itemStep_zeroLine, IH, <- app_assoc. reflexivity.
Qed.

Lemma detectTotal_zeroLines n :
  detectTotal (repeat zeroLine n) = Num.ofZ 0.
Proof.
  apply detectTotal_no_value. apply Forall_forall. intros l Hl.
  apply repeat_spec in Hl. subst l. left. vm_compute. reflexivity.
Qed.

Lemma parseCall_cases argLimit today rawText :
  (parseCall argLimit today rawText = RangeError /\
   spreadOverflows argLimit
     (reconcile (detectTotal (splitLines rawText))
                (snd (extractItems (splitLines rawText))))
     (fst (extractItems (splitLines rawText))) = true) \/
  (parseCall argLimit today rawText = Returns (parse today rawText) /\
   spreadOverflows argLimit
     (reconcile (detectTotal (splitLines rawText))
                (snd (extractItems (splitLines rawText))))
     (fst (extractItems (splitLines rawText))) = false).
Proof.
  unfold parseCall.
  destruct (extractItems (splitLines rawText)) as [its calc].
  cbn [fst snd]. destruct (spreadOverflows _ _ _); auto.
Qed.

Lemma items_extracted today rawText :
  items (parse today rawText) = fst (extractItems (splitLines rawText)).
Proof.
  unfold parse.
  destruct (parseLines_fields today (splitLines rawText))
    as (_ & _ & -> & _).
  reflexivity.
Qed.

(** C8, at the failing inputs.  A call of [parse] is not always
    answered, and its answer is not always a well-formed draft.
    Whatever the number of arguments the engine takes in a call, a
    receipt of one more line "PAN 0,50 0,00" ends in a RangeError
    at the final sanity check.  The text "01/02/202" is answered
    with the date "202-02-01", and a total line with an amount of
    310 digits with the total [Infinity].  A call throws only when
    there are more items than the engine takes arguments and no
    total line gave an amount other than 0; every draft returned has
    a merchant that is not empty, a total that is neither [NaN] nor
    negative, items within the range, and a date of the form
    YYYY-MM-DD unless a match has a year of three digits; the empty
    text is answered with the merchant 'Desconocido', the processing
    date, the total 0 and no item. *)
Theorem parse_fatal_or_malformed :
  (forall argLimit today,
     parseCall argLimit today (longReceipt (S argLimit)) = RangeError) /\
  (forall argLimit today,
     parseCall argLimit today (lit "01/02/202") =
       Returns (parse today (lit "01/02/202")) /\
     date (parse today (lit "01/02/202")) = lit "202-02-01" /\
     ~ wellFormed (parse today (lit "01/02/202"))) /\
  (forall argLimit today,
     parseCall argLimit today hugeTotal =
       Returns (parse today hugeTotal) /\
     total (parse today hugeTotal) = Num.Infinity /\
     ~ wellFormed (parse today hugeTotal)) /\
  (forall argLimit today rawText,
     parseCall argLimit today rawText = RangeError ->
     argLimit < length (items (parse today rawText)) /\
     Num.eqb (detectTotal (splitLines rawText)) (Num.ofZ 0) = true) /\
  (forall argLimit today rawText,
     length (items (parse today rawText)) <= argLimit ->
     parseCall argLimit today rawText = Returns (parse today rawText)) /\
  (forall today rawText,
     merchant (parse today rawText) <> [] /\
     nonneg (total (parse today rawText)) = true /\
     Forall itemOk (items (parse today rawText))) /\
  (forall today rawText,
     isIsoDate today = true ->
     (forall line m,
        In line (splitLines rawText) -> exec dateRegex line = Some m ->
        length (nth 2 (groups m) []) <> 3) ->
     isIsoDate (date (parse today rawText)) = true) /\
  (forall argLimit today,
     parseCall argLimit today (lit "") =
     Returns {| merchant := unknownMerchant; date := today;
                total := Num.ofZ 0; items := [] |}).
Proof.
  split; [|split; [|split; [|split; [|split; [|split; [|split]]]]]].
  - intros argLimit today. unfold parseCall.
    rewrite splitLines_longReceipt. unfold extractItems.
    rewrite (fold_itemStep_zeroLines (S argLimit) []).
    rewrite detectTotal_zeroLines. cbn [app].
    unfold spreadOverflows. rewrite repeat_length.
    replace (Num.eqb (reconcile (Num.ofZ 0) (Num.ofZ 0)) (Num.ofZ 0))
      with true by (vm_compute; reflexivity).
    replace (argLimit <? S argLimit) with true
      by (symmetry; apply Nat.ltb_lt; lia).
    reflexivity.
  - intros argLimit today.
    assert (D : date (parse today (lit "01/02/202")) = lit "202-02-01").
    { unfold parse.
      rewrite (proj1 (proj2 (parseLines_fields today _))).
      vm_compute. reflexivity. }
    split; [|split; [exact D|]].
    + destruct (parseCall_cases argLimit today (lit "01/02/202"))
        as [[_ H]|[H _]]; [|exact H].
      vm_compute in H. discriminate H.
    + intros (_ & H & _). rewrite D in H. vm_compute in H. discriminate H.
  - intros argLimit today.
    assert (T : total (parse today hugeTotal) = Num.Infinity).
    { rewrite Further.total_fields. vm_compute. reflexivity. }
    split; [|split; [exact T|]].
    + destruct (parseCall_cases argLimit today hugeTotal)
        as [[_ H]|[H _]]; [|exact H].
      vm_compute in H. discriminate H.
    + intros (_ & _ & H & _). rewrite T in H. discriminate H.
  - intros argLimit today rawText H.
    destruct (parseCall_cases argLimit today rawText)
      as [[_ O]|[R _]]; [|rewrite R in H; discriminate H].
    unfold spreadOverflows in O.
    apply andb_prop in O. destruct O as [O L].
    apply andb_prop in O. destruct O as [Z _].
    split.
    + rewrite items_extracted. apply Nat.ltb_lt, L.
    + destruct (extractItems_inv (splitLines rawText)) as [_ Hc].
      pose proof (detectTotal_nonneg (splitLines rawText)) as Hd.
      apply (eqb_zero_leb _ _ Hd (reconcile_nonneg _ _ Hd Hc)
               (leb_reconcile _ _ Hd Hc) Z).
  - intros argLimit today rawText H.
    destruct (parseCall_cases argLimit today rawText)
      as [[_ O]|[R _]]; [|exact R].
    unfold spreadOverflows in O.
    apply andb_prop in O. destruct O as [_ L].
    apply Nat.ltb_lt in L. rewrite items_extracted in H. lia.
  - apply parse_guarantees.
  - intros today rawText Ht H. unfold parse.
    rewrite (proj1 (proj2 (parseLines_fields today _))).
    apply detectDate_valid; assumption.
  - intros argLimit today. vm_compute. reflexivity.
Qed.

Lemma parse_fatal_or_malformed_witness :
  length (items (parse (lit "2026-11-02") text1)) <= 1000 /\
  parseCall 1000 (lit "2026-11-02") text1 =
    Returns (parse (lit "2026-11-02") text1) /\
  isIsoDate (lit "2026-11-02") = true /\
  isIsoDate (date (parse (lit "2026-11-02") text1)) = true.
Proof.
  assert (L : length (items (parse (lit "2026-11-02") text1)) <= 1000)
    by (vm_compute; lia).
  split; [exact L|]. split; [|split; [reflexivity|]].
  - exact (proj1 (proj2 (proj2 (proj2 (proj2 parse_fatal_or_malformed))))
             1000 (lit "2026-11-02") text1 L).
  - apply (proj1 (proj2 (proj2 (proj2 (proj2 (proj2
             (proj2 parse_fatal_or_malformed))))))
             (lit "2026-11-02") text1); [reflexivity|].
    intros line m Hin Hm.
    assert (S : splitLines text1 = receipt1) by (vm_compute; reflexivity).
    rewrite S in Hin. unfold receipt1 in Hin. cbn [In] in Hin.
    repeat (destruct Hin as [<-|Hin];
            [vm_compute in Hm;
             first [discriminate Hm
                   | injection Hm as <-; vm_compute; discriminate]|]).
    destruct Hin.
Defined.

End Calls.
